(** * peer-dial: a shallow embedding of [src/peer-dial.ts]

    The development follows the source file top to bottom: the helper
    functions ([getExtraHeaders], [merge]), the application description
    renderer, the DIAL [Server] (SSDP announcements and withdrawal, the HTTP
    application routes), the [DialDevice] remote-control calls and the
    discovery [Client].  The provider of the demo server
    ([test/dial-server.js]) serves as sample data.

    JavaScript objects used as dictionaries are finite maps of their own
    properties, read through [Object.prototype] where the source reads
    them under a computed key; objects enumerated in order are association
    lists; callbacks, responses and
    event emissions are recorded as traces of effects; the collaborators
    outside the file (application provider hooks, URL parser, HTTP peer,
    operating-system strings) are arguments of the functions that use
    them. *)

From Stdlib Require Import ZArith NArith List Lia.
From stdpp Require Import base option gmap strings list fin_maps pretty.

Open Scope string_scope.
Open Scope list_scope.
Open Scope Z_scope.

(** ** JavaScript values and truthiness *)

Module Js.

(** The values that header dictionaries hold: the primitive ones, and the
    members of [Object.prototype] that a read finds under their names (the
    functions [constructor], [toString], ..., and the prototype itself
    under [__proto__]).  Numbers are the integral ones (header values such
    as [7337]); [NaN] does not occur. *)
Inductive value :=
| VUndefined
| VNull
| VBool (b : bool)
| VNum (n : Z)
| VStr (s : string)
| VInherited (name : string).

#[global] Instance value_eq_dec : EqDecision value.
Proof. solve_decision. Defined.

(** Truthiness of a string-typed expression. *)
Definition truthy_str (s : string) : bool := negb (String.eqb s "").

(** [ToBoolean]. *)
Definition truthy (v : value) : bool :=
  match v with
  | VUndefined | VNull => false
  | VBool b => b
  | VNum n => negb (Z.eqb n 0)
  | VStr s => truthy_str s
  | VInherited _ => true
  end.

(** Truthiness of a [string | null | undefined] expression. *)
Definition truthy_ostr (o : option string) : bool :=
  match o with Some s => truthy_str s | None => false end.

(** [a || b] where [a] is the result of a property read: a missing
    property reads as [undefined]. *)
Definition or_read (a : option value) (b : value) : value :=
  match a with
  | Some v => if truthy v then v else b
  | None => b
  end.

(** [a || b] on [string | null | undefined] operands. *)
Definition or_ostr (a b : option string) : option string :=
  if truthy_ostr a then a else b.

(** Template-literal rendering of a nullable string, a nullable number and
    a boolean. *)
Definition show_ostr (o : option string) : string :=
  match o with Some s => s | None => "null" end.

Definition show_onum (o : option Z) : string :=
  match o with Some n => pretty n | None => "null" end.

Definition show_bool (b : bool) : string := if b then "true" else "false".

(** The double quote and the line feed, as one-character strings. *)
Definition dq : string := String (Ascii.ascii_of_nat 34) EmptyString.
Definition nl : string := String (Ascii.ascii_of_nat 10) EmptyString.

End Js.
Import Js.

Abbreviation headers := (gmap string value).

(** ** Plain objects

    The dictionaries of the file are plain objects ([{}] and object
    literals): a finite map holds their own properties, and their prototype
    is [Object.prototype], whose members are these. *)
Definition OBJECT_PROTOTYPE : list string :=
  [ "constructor"; "__defineGetter__"; "__defineSetter__"; "hasOwnProperty";
    "__lookupGetter__"; "__lookupSetter__"; "isPrototypeOf"; "propertyIsEnumerable";
    "toString"; "valueOf"; "__proto__"; "toLocaleString" ].

Definition inherited (key : string) : bool := bool_decide (key ∈ OBJECT_PROTOTYPE).

(** [obj[key]] as a read: the own property, else the member of the
    prototype, else [undefined] ([None]). *)
Definition get_prop (obj : headers) (key : string) : option value :=
  match obj !! key with
  | Some v => Some v
  | None => if inherited key then Some (VInherited key) else None
  end.

(** [obj[key] = v] for a primitive [v] or for the value just read from
    [obj[key]]: an own property is created or overwritten, except under
    [__proto__] when the object has no own property of that name; there the
    inherited setter runs, which ignores a primitive and is given back the
    prototype the object already has. *)
Definition hits_setter (obj : headers) (key : string) : bool :=
  bool_decide (key = "__proto__") && bool_decide (obj !! key = None).

Definition set_prop (key : string) (v : value) (obj : headers) : headers :=
  if hits_setter obj key then obj else <[key := v]> obj.

(** The error objects the file creates: [new Error(message)], with the
    [code] property some paths add. *)
Record Error := { message : string; code : option string }.

Definition mkError (msg : string) : Error := {| message := msg; code := None |}.

(** ** Template renderers *)

Module AppDescData.
Record t := {
  name : string;
  state : string;
  allowStop : bool;
  rel : string;
  href : option string;
  additionalData : option (list (string * string));
  namespaces : list (string * string);
}.
End AppDescData.

(** The two [for ... in] loops of [APP_DESC_RENDERER]. *)
Definition render_namespaces (ns : list (string * string)) : string :=
  fold_left (λ acc kv, acc +:+ " xmlns:" +:+ kv.1 +:+ "=" +:+ dq +:+ kv.2 +:+ dq) ns "".

Definition render_additional (ad : list (string * string)) : string :=
  fold_left (λ acc kv,
    acc +:+ "            <" +:+ kv.1 +:+ ">" +:+ kv.2 +:+ "</" +:+ kv.1 +:+ ">" +:+ nl) ad "".

Definition state_element (st : string) : string :=
  "<state>" +:+ st +:+ "</state>".

(** The first template of [APP_DESC_RENDERER], up to and including the
    [<options/>] line and the indentation of the state line. *)
Definition app_desc_head (data : AppDescData.t) : string :=
  "<?xml version=" +:+ dq +:+ "1.0" +:+ dq +:+ " encoding=" +:+ dq +:+ "UTF-8" +:+ dq +:+ "?>" +:+ nl +:+
  "<service xmlns=" +:+ dq +:+ "urn:dial-multiscreen-org:schemas:dial" +:+ dq +:+
  render_namespaces (AppDescData.namespaces data) +:+
  " dialVer=" +:+ dq +:+ "1.7" +:+ dq +:+ ">" +:+ nl +:+
  "  <name>" +:+ AppDescData.name data +:+ "</name>" +:+ nl +:+
  "  <options allowStop=" +:+ dq +:+ show_bool (AppDescData.allowStop data) +:+ dq +:+ "/>" +:+ nl +:+
  "  ".

(** What follows the state element: the optional link, the optional
    additional data and the closing tag. *)
Definition app_desc_tail (data : AppDescData.t) : string :=
  nl +:+
  (match AppDescData.href data with
   | Some h =>
       if truthy_str h
       then "  <link rel=" +:+ dq +:+ AppDescData.rel data +:+ dq +:+
            " href=" +:+ dq +:+ h +:+ dq +:+ " />" +:+ nl
       else ""
   | None => ""
   end) +:+
  (match AppDescData.additionalData data with
   | Some ad =>
       "        <additionalData>" +:+ nl +:+ render_additional ad +:+
       "        </additionalData>" +:+ nl
   | None => ""
   end) +:+
  "</service>" +:+ nl.

Definition APP_DESC_RENDERER (data : AppDescData.t) : string :=
  app_desc_head data +:+ state_element (AppDescData.state data) +:+ app_desc_tail data.

(** ** Helpers *)

(** [getExtraHeaders]: copies, by assignment into a fresh [{}], the
    entries whose value is a number, a string or a boolean. *)
Definition is_header_value (v : value) : bool :=
  match v with
  | VNum _ | VStr _ | VBool _ => true
  | _ => false
  end.

Definition extra_step (key : string) (v : value) (extraHeaders : headers) : headers :=
  if is_header_value v then set_prop key v extraHeaders else extraHeaders.

Definition getExtraHeaders (dict : option headers) : headers :=
  match dict with
  | Some d => map_fold extra_step ∅ d
  | None => ∅
  end.

(** [merge]: for every key of [obj2], [obj1[key] = obj1[key] || obj2[key]].
    The loop enumerates the keys of [obj2], each once; [obj1[key]] is read
    through the prototype. *)
Definition merge_step (key : string) (v2 : value) (obj1 : headers) : headers :=
  set_prop key (or_read (get_prop obj1 key) v2) obj1.

Definition merge (obj1 obj2 : headers) : headers :=
  map_fold merge_step obj1 obj2.

(** ** Server *)

(** [AppInfo]: what the provider's [getApp] hook returns.  [pid] is [None]
    for [undefined] and for [null]. *)
Module AppInfo.
Record t := {
  name : string;
  state : option string;
  pid : option string;
  allowStop : option bool;
  additionalData : option (list (string * string));
  namespaces : option (list (string * string));
}.
End AppInfo.

(** The request as the handlers read it: [req.protocol], [req.hostname],
    [req.ip], the route parameters, and the [text] and [length] the
    body-reading middleware recorded (absent when it did not read). *)
Module Request.
Record t := {
  protocol : string;
  hostname : option string;
  ip : option string;
  appName : string;
  pid : option string;
  text : option string;
  length : option Z;
}.
End Request.

(** The provider hooks.  A hook runs against the provider's store; what a
    hook passes to its completion callback is listed in call order (the
    callback is not guarded against zero or repeated calls). *)
Module ServerDelegate.
Record t (Store : Type) := {
  getApp : option (Request.t → string → Store → option AppInfo.t * Store);
  launchApp :
    option (Request.t → string → option string → Store →
            list (option string * option Error) * Store);
  stopApp : option (Request.t → string → string → Store → list bool * Store);
}.
Arguments getApp {Store} _.
Arguments launchApp {Store} _.
Arguments stopApp {Store} _.
End ServerDelegate.

(** [ServerOptions].  [maxContentLength] holds what [parseInt] makes of the
    option: [None] for [NaN] (option absent or not a number). *)
Module ServerOptions.
Record t (Store : Type) := {
  prefix : option string;
  port : option Z;
  host : option string;
  uuid : option string;
  maxContentLength : option Z;
  extraHeaders : option headers;
  delegate : option (ServerDelegate.t Store);
}.
Arguments prefix {Store} _.
Arguments port {Store} _.
Arguments host {Store} _.
Arguments uuid {Store} _.
Arguments maxContentLength {Store} _.
Arguments extraHeaders {Store} _.
Arguments delegate {Store} _.
End ServerOptions.

Module Server.
Record t (Store : Type) := {
  prefix : string;
  port : option Z;
  host : option string;
  uuid : string;
  maxContentLength : Z;
  extraHeaders : headers;
  delegate : ServerDelegate.t Store;
}.
Arguments prefix {Store} _.
Arguments port {Store} _.
Arguments host {Store} _.
Arguments uuid {Store} _.
Arguments maxContentLength {Store} _.
Arguments extraHeaders {Store} _.
Arguments delegate {Store} _.
End Server.

(** [parseInt(options.maxContentLength) || 4096], then the floor. *)
Definition max_content_length (parsed : option Z) : Z :=
  Z.max (match parsed with
         | Some n => if Z.eqb n 0 then 4096 else n
         | None => 4096
         end) 4096.

(** The constructor; [randomUUID] is the value [crypto.randomUUID()] yields
    when it is called. *)
Definition Server_new {Store} (options : ServerOptions.t Store) (randomUUID : string)
  : Server.t Store :=
  {| Server.prefix :=
       match ServerOptions.prefix options with
       | Some p => if truthy_str p then p else ""
       | None => ""
       end;
     Server.port := ServerOptions.port options;
     Server.host := ServerOptions.host options;
     Server.uuid :=
       match ServerOptions.uuid options with
       | Some u => if truthy_str u then u else randomUUID
       | None => randomUUID
       end;
     Server.maxContentLength := max_content_length (ServerOptions.maxContentLength options);
     Server.extraHeaders := getExtraHeaders (ServerOptions.extraHeaders options);
     Server.delegate :=
       match ServerOptions.delegate options with
       | Some d => d
       | None => {| ServerDelegate.getApp := None;
                    ServerDelegate.launchApp := None;
                    ServerDelegate.stopApp := None |}
       end |}.

(** *** SSDP withdrawal: [Server.stop] *)

(** [SERVER_STR], from what [os.type()] and [os.release()] return. *)
Record Os := { os_type : string; os_release : string }.

Definition SERVER_STR (os : Os) : string :=
  os_type os +:+ "/" +:+ os_release os +:+ " UPnP/1.1 famium/0.0.1".

Definition DIAL_SERVICE : string := "urn:dial-multiscreen-org:service:dial:1".
Definition DIAL_DEVICE : string := "urn:dial-multiscreen-org:device:dial:1".

Definition serviceTypes (uuid : string) : list string :=
  [ DIAL_SERVICE; DIAL_DEVICE; "upnp:rootdevice"; "ssdp:all"; "uuid:" +:+ uuid ].

Definition ssdp_location {Store} (srv : Server.t Store) : string :=
  "http://{{networkInterfaceAddress}}:" +:+ show_onum (Server.port srv) +:+
  Server.prefix srv +:+ "/ssdp/device-desc.xml".

(** The header object of one alive or byebye message, before the merge. *)
Definition advert_base {Store} (srv : Server.t Store) (os : Os) (st : string) : headers :=
  <["NT" := VStr st]>
  (<["USN" := VStr ("uuid:" +:+ Server.uuid srv +:+ "::" +:+ st)]>
  (<["SERVER" := VStr (SERVER_STR os)]>
  (<["LOCATION" := VStr (ssdp_location srv)]> ∅))).

Definition advert_headers {Store} (srv : Server.t Store) (os : Os) (st : string) : headers :=
  merge (advert_base srv os st) (Server.extraHeaders srv).

(** The header object of a search reply ([headers.ST] is the requested
    type). *)
Definition reply_base {Store} (srv : Server.t Store) (os : Os) (st : string) : headers :=
  <["LOCATION" := VStr (ssdp_location srv)]>
  (<["ST" := VStr st]>
  (<["CONFIGID.UPNP.ORG" := VNum 7337]>
  (<["BOOTID.UPNP.ORG" := VNum 7337]>
  (<["SERVER" := VStr (SERVER_STR os)]>
  (<["USN" := VStr ("uuid:" +:+ Server.uuid srv +:+ "::" +:+ st)]> ∅))))).

(** Calls on the SSDP peer.  A byebye carries its completion callback;
    [stop] passes the one closure [done] to all of them. *)
Inductive PeerCallback := DoneCallback.

Inductive PeerCall :=
| PeerAlive (h : headers)
| PeerByebye (h : headers) (cb : PeerCallback)
| PeerReply (h : headers)
| PeerClose.

Definition reply_headers {Store} (srv : Server.t Store) (os : Os) (st : string) : headers :=
  merge (reply_base srv os st) (Server.extraHeaders srv).

(** The handler of the peer's "ready" event: one alive per service type
    (the server then emits its own "ready"). *)
Definition Server_on_ready {Store} (srv : Server.t Store) (os : Os) : list PeerCall :=
  map (λ st, PeerAlive (advert_headers srv os st)) (serviceTypes (Server.uuid srv)).

(** The handler of the peer's "search" event: a reply when the requested
    type [headers.ST] is one of the five. *)
Definition Server_on_search {Store} (srv : Server.t Store) (os : Os) (ST : option string)
  : list PeerCall :=
  match ST with
  | Some st =>
      if bool_decide (st ∈ serviceTypes (Server.uuid srv))
      then [PeerReply (reply_headers srv os st)]
      else []
  | None => []
  end.

(** The state the closure [done] captures. *)
Record StopState := { remaining : Z }.

(** [stop()]: the counter is set to the number of service types, then one
    byebye is sent per type. *)
Definition Server_stop {Store} (srv : Server.t Store) (os : Os)
  : list PeerCall * StopState :=
  let types := serviceTypes (Server.uuid srv) in
  (map (λ st, PeerByebye (advert_headers srv os st) DoneCallback) types,
   {| remaining := Z.of_nat (List.length types) |}).

(** [done]: decrement, and close the peer once the counter is not
    positive. *)
Definition done (s : StopState) : list PeerCall * StopState :=
  let r := remaining s - 1 in
  (if Z.leb r 0 then [PeerClose] else [], {| remaining := r |}).

Definition run_callback (cb : PeerCallback) (s : StopState) : list PeerCall * StopState :=
  match cb with DoneCallback => done s end.

(** The peer acknowledges the byebye sent at position [i] by calling the
    callback that message carries. *)
Definition acknowledge (sent : list PeerCall) (i : nat) (s : StopState)
  : list PeerCall * StopState :=
  match sent !! i with
  | Some (PeerByebye _ cb) => run_callback cb s
  | _ => ([], s)
  end.

Fixpoint acknowledge_all (sent : list PeerCall) (order : list nat) (s : StopState)
  : list PeerCall * StopState :=
  match order with
  | [] => ([], s)
  | i :: rest =>
      let '(calls, s1) := acknowledge sent i s in
      let '(calls', s2) := acknowledge_all sent rest s1 in
      (calls ++ calls', s2)
  end.

(** [stop()] followed by the acknowledgments in the given order: the
    byebyes sent, and the peer calls the acknowledgments caused. *)
Definition stop_then_acks {Store} (srv : Server.t Store) (os : Os)
  (order : list nat) : list PeerCall * list PeerCall :=
  let '(sent, s) := Server_stop srv os in
  (sent, (acknowledge_all sent order s).1).

Definition is_close (c : PeerCall) : bool :=
  match c with PeerClose => true | _ => false end.

Definition count_close (calls : list PeerCall) : nat :=
  List.length (List.filter is_close calls).

Definition header_str (h : headers) (k : string) : option string :=
  match h !! k with Some (VStr s) => Some s | _ => None end.

Definition byebye_NT (c : PeerCall) : option string :=
  match c with PeerByebye h _ => header_str h "NT" | _ => None end.

Definition byebye_USN (c : PeerCall) : option string :=
  match c with PeerByebye h _ => header_str h "USN" | _ => None end.

(** *** The HTTP application routes *)

(** What a handler does, in order: the provider hooks it calls and what it
    does to the response object.  [ThrowHeadersSent] is the
    [ERR_HTTP_HEADERS_SENT] error that [setHeader] and [sendStatus] throw
    when the response has been sent already. *)
Inductive Effect :=
| CallGetApp (appName : string)
| CallLaunchApp (appName : string) (launchData : option string)
| CallStopApp (appName pid : string)
| SetHeader (key val : string)
| SetType (type : string)
| Send (body : string)
| SendStatus (status : Z)
| ThrowHeadersSent.

(** [this.delegate.getApp?.call(req, appName) ?? null] *)
Definition lookup_app {Store} (srv : Server.t Store) (req : Request.t) (appName : string)
  (σ : Store) : option AppInfo.t * Store * list Effect :=
  match ServerDelegate.getApp (Server.delegate srv) with
  | Some hook => let '(r, σ') := hook req appName σ in (r, σ', [CallGetApp appName])
  | None => (None, σ, [])
  end.

(** [appInfo.state || (appInfo.pid && "running") || "stopped"] *)
Definition infer_state (appInfo : AppInfo.t) : string :=
  if truthy_ostr (AppInfo.state appInfo) then show_ostr (AppInfo.state appInfo)
  else if truthy_ostr (AppInfo.pid appInfo) then "running"
  else "stopped".

(** [`${req.protocol}://${req.hostname || req.ip || this.host}:${this.port}${pref}`] *)
Definition base_url {Store} (srv : Server.t Store) (req : Request.t) : string :=
  Request.protocol req +:+ "://" +:+
  show_ostr (or_ostr (Request.hostname req) (or_ostr (Request.ip req) (Server.host srv))) +:+
  ":" +:+ show_onum (Server.port srv) +:+ Server.prefix srv.

(** [req.length && req.length > this.maxContentLength] *)
Definition too_large {Store} (srv : Server.t Store) (req : Request.t) : bool :=
  match Request.length req with
  | Some n => negb (Z.eqb n 0) && Z.ltb (Server.maxContentLength srv) n
  | None => false
  end.

(** [GET /apps/:appName] *)
Definition get_app {Store} (srv : Server.t Store) (req : Request.t) (σ : Store)
  : list Effect * Store :=
  let appName := Request.appName req in
  let '(appInfo, σ1, tr) := lookup_app srv req appName σ in
  match appInfo with
  | Some info =>
      let state := infer_state info in
      let xml := APP_DESC_RENDERER
        {| AppDescData.name := appName;
           AppDescData.state := state;
           AppDescData.allowStop :=
             match AppInfo.allowStop info with Some true => true | _ => false end;
           AppDescData.rel := "run";
           AppDescData.href := AppInfo.pid info;
           AppDescData.additionalData := AppInfo.additionalData info;
           AppDescData.namespaces := default [] (AppInfo.namespaces info) |} in
      (tr ++ [SetType "application/xml"; Send xml], σ1)
  | None => (tr ++ [SendStatus 404], σ1)
  end.

(** A hook may call its completion callback any number of times.  The
    first call sends the response; in every later call the first thing the
    callback does to the response ([setHeader] or [sendStatus]) throws
    [ERR_HTTP_HEADERS_SENT] into the provider and the response stays as it
    was sent. *)
Definition complete_all {R} (callback : R → list Effect) (replies : list R) : list Effect :=
  match replies with
  | [] => []
  | first :: later => callback first ++ map (λ _, ThrowHeadersSent) later
  end.

(** The completion callback the POST handler hands to the launch hook, as
    it runs on a response not sent yet. *)
Definition launch_callback (baseURL appName state : string)
  (reply : option string * option Error) : list Effect :=
  let status := if decide (state = "stopped") then 201 else 200 in
  match reply.2 with
  | Some _ => [SendStatus 503]
  | None =>
      if truthy_ostr reply.1
      then [SetHeader "LOCATION"
              (baseURL +:+ "/apps/" +:+ appName +:+ "/" +:+ show_ostr reply.1);
            SendStatus status]
      else [SendStatus status]
  end.

(** [POST /apps/:appName] *)
Definition post_app {Store} (srv : Server.t Store) (req : Request.t) (σ : Store)
  : list Effect * Store :=
  let baseURL := base_url srv req in
  let appName := Request.appName req in
  let '(appInfo, σ1, tr) := lookup_app srv req appName σ in
  match appInfo with
  | None => (tr ++ [SendStatus 404], σ1)
  | Some info =>
      if too_large srv req then (tr ++ [SendStatus 413], σ1)
      else
        let state := infer_state info in
        match ServerDelegate.launchApp (Server.delegate srv) with
        | Some hook =>
            let launchData := or_ostr (Request.text req) None in
            let '(replies, σ2) := hook req appName launchData σ1 in
            (tr ++ CallLaunchApp appName launchData ::
               complete_all (launch_callback baseURL appName state) replies, σ2)
        | None => (tr, σ1)
        end
  end.

(** [POST /apps/:appName/dial_data] *)
Definition post_dial_data {Store} (srv : Server.t Store) (req : Request.t) (σ : Store)
  : list Effect * Store :=
  let '(appInfo, σ1, tr) := lookup_app srv req (Request.appName req) σ in
  match appInfo with
  | None => (tr ++ [SendStatus 404], σ1)
  | Some _ =>
      if too_large srv req then (tr ++ [SendStatus 413], σ1)
      else (tr ++ [SendStatus 501], σ1)
  end.

(** The completion callback the DELETE handler hands to the stop hook, as
    it runs on a response not sent yet. *)
Definition stop_callback (stopped : bool) : list Effect :=
  [SendStatus (if stopped then 200 else 400)].

(** [DELETE /apps/:appName/:pid] *)
Definition delete_app {Store} (srv : Server.t Store) (req : Request.t) (σ : Store)
  : list Effect * Store :=
  let appName := Request.appName req in
  let pid := Request.pid req in
  let '(appInfo, σ1, tr) := lookup_app srv req appName σ in
  match appInfo with
  | Some info =>
      match AppInfo.allowStop info with
      | Some true =>
          if truthy_ostr pid then
            match ServerDelegate.stopApp (Server.delegate srv) with
            | Some hook =>
                let '(replies, σ2) := hook req appName (show_ostr pid) σ1 in
                (tr ++ CallStopApp appName (show_ostr pid) ::
                   complete_all stop_callback replies, σ2)
            | None => (tr, σ1)
            end
          else (tr ++ [SendStatus 400], σ1)
      | _ => (tr ++ [SendStatus 405], σ1)
      end
  | None => (tr ++ [SendStatus 404], σ1)
  end.

(** Reading a trace.  The status of the response is the one of the first
    [sendStatus], or Express's default 200 when the body is sent with
    [send] (no handler sets another status before it). *)
Fixpoint response_status (tr : list Effect) : option Z :=
  match tr with
  | [] => None
  | SendStatus c :: _ => Some c
  | Send _ :: _ => Some 200
  | _ :: rest => response_status rest
  end.

Fixpoint response_body (tr : list Effect) : option string :=
  match tr with
  | [] => None
  | Send b :: _ => Some b
  | SendStatus _ :: _ => None
  | _ :: rest => response_body rest
  end.

(** The value a header was given before the response was sent. *)
Fixpoint response_header (key : string) (tr : list Effect) : option string :=
  match tr with
  | [] => None
  | SetHeader k v :: rest => if decide (k = key) then Some v else response_header key rest
  | SendStatus _ :: _ | Send _ :: _ => None
  | _ :: rest => response_header key rest
  end.

Definition is_launch_call (e : Effect) : bool :=
  match e with CallLaunchApp _ _ => true | _ => false end.

Definition launch_invoked (tr : list Effect) : bool := existsb is_launch_call tr.

(** *** The provider of the demo server ([test/dial-server.js])

    The store is the [apps] object, read here under application names that
    are not names of [Object.prototype] members.  [launchApp] marks the
    application running under the pid ["run"] and completes with that pid;
    on an unknown name it throws before completing.  [stopApp] succeeds
    when the pid is the recorded one. *)
Definition demo_store := gmap string AppInfo.t.

Definition demo_apps : demo_store :=
  {[ "YouTube" := {| AppInfo.name := "YouTube"; AppInfo.state := Some "stopped";
                     AppInfo.pid := None; AppInfo.allowStop := Some true;
                     AppInfo.additionalData := None; AppInfo.namespaces := None |} ]}.

Definition demo_getApp (_ : Request.t) (appName : string) (apps : demo_store)
  : option AppInfo.t * demo_store := (apps !! appName, apps).

Definition demo_launchApp (_ : Request.t) (appName : string) (_ : option string)
  (apps : demo_store) : list (option string * option Error) * demo_store :=
  match apps !! appName with
  | Some app =>
      let app' := {| AppInfo.name := AppInfo.name app; AppInfo.state := Some "running";
                     AppInfo.pid := Some "run"; AppInfo.allowStop := AppInfo.allowStop app;
                     AppInfo.additionalData := AppInfo.additionalData app;
                     AppInfo.namespaces := AppInfo.namespaces app |} in
      ([(Some "run", None)], <[appName := app']> apps)
  | None => ([], apps)
  end.

Definition demo_stopApp (_ : Request.t) (appName pid : string) (apps : demo_store)
  : list bool * demo_store :=
  match apps !! appName with
  | Some app =>
      if decide (AppInfo.pid app = Some pid) then
        let app' := {| AppInfo.name := AppInfo.name app; AppInfo.state := Some "stopped";
                       AppInfo.pid := None; AppInfo.allowStop := AppInfo.allowStop app;
                       AppInfo.additionalData := AppInfo.additionalData app;
                       AppInfo.namespaces := AppInfo.namespaces app |} in
        ([true], <[appName := app']> apps)
      else ([false], apps)
  | None => ([false], apps)
  end.

Definition demo_delegate : ServerDelegate.t demo_store :=
  {| ServerDelegate.getApp := Some demo_getApp;
     ServerDelegate.launchApp := Some demo_launchApp;
     ServerDelegate.stopApp := Some demo_stopApp |}.

Definition demo_options : ServerOptions.t demo_store :=
  {| ServerOptions.prefix := Some "/dial";
     ServerOptions.port := Some 3000;
     ServerOptions.host := None;
     ServerOptions.uuid := None;
     ServerOptions.maxContentLength := None;
     ServerOptions.extraHeaders := None;
     ServerOptions.delegate := Some demo_delegate |}.

Definition demo_server : Server.t demo_store :=
  Server_new demo_options "6e1f0b2c-7c1d-4c57-9d53-0c8a1f4e2b90".

Definition demo_request (appName : string) (pid text : option string) (len : option Z)
  : Request.t :=
  {| Request.protocol := "http"; Request.hostname := Some "192.168.1.20";
     Request.ip := None; Request.appName := appName; Request.pid := pid;
     Request.text := text; Request.length := len |}.

(** ** DialDevice *)

(** JavaScript strings whose length matters are sequences of UTF-16 code
    units. *)
Abbreviation jsstring := (list N).

Module Utf8.
Open Scope N_scope.

Definition is_high_surrogate (c : N) : bool := (0xD800 <=? c) && (c <=? 0xDBFF).
Definition is_low_surrogate (c : N) : bool := (0xDC00 <=? c) && (c <=? 0xDFFF).

(** The code points of a string: a high surrogate followed by a low one is
    one supplementary code point, a lone surrogate reads as U+FFFD. *)
Fixpoint code_points (s : jsstring) : list N :=
  match s with
  | [] => []
  | c :: rest =>
      if is_high_surrogate c then
        match rest with
        | d :: rest' =>
            if is_low_surrogate d
            then (0x10000 + (c - 0xD800) * 0x400 + (d - 0xDC00)) :: code_points rest'
            else 0xFFFD :: code_points rest
        | [] => [0xFFFD]
        end
      else if is_low_surrogate c then 0xFFFD :: code_points rest
      else c :: code_points rest
  end.

Definition encode_code_point (cp : N) : list N :=
  if cp <? 0x80 then [cp]
  else if cp <? 0x800 then
    [N.lor 0xC0 (N.shiftr cp 6); N.lor 0x80 (N.land cp 0x3F)]
  else if cp <? 0x10000 then
    [N.lor 0xE0 (N.shiftr cp 12); N.lor 0x80 (N.land (N.shiftr cp 6) 0x3F);
     N.lor 0x80 (N.land cp 0x3F)]
  else
    [N.lor 0xF0 (N.shiftr cp 18); N.lor 0x80 (N.land (N.shiftr cp 12) 0x3F);
     N.lor 0x80 (N.land (N.shiftr cp 6) 0x3F); N.lor 0x80 (N.land cp 0x3F)].

Definition encode (s : jsstring) : list N :=
  flat_map encode_code_point (code_points s).

End Utf8.

(** [Buffer.byteLength(s)]: the number of bytes of the UTF-8 encoding. *)
Definition Buffer_byteLength (s : jsstring) : Z := Z.of_nat (List.length (Utf8.encode s)).

(** [s.length]: the number of code units. *)
Definition js_length (s : jsstring) : Z := Z.of_nat (List.length s).

(** The parts of a parsed [URL] the file reads. *)
Module URL.
Record t := {
  href : string;
  protocol : string;
  hostname : string;
  port : string;
  pathname : string;
  search : string;
}.
End URL.

Module RequestOptions.
Record t := {
  host : string;
  port : string;
  path : string;
  method : string;
  headers : gmap string value;
}.
End RequestOptions.

Record DialDevice := {
  descriptionUrl : option string;
  applicationUrl : option string;
  deviceType : option string;
  friendlyName : option string;
  manufacturer : option string;
  modelName : option string;
  UDN : option string;
}.

(** What the HTTP peer does with a request: it answers with a status and a
    body delivered in chunks, or the request fails. *)
Inductive HttpOutcome :=
| Responded (statusCode : Z) (chunks : list string)
| Failed (err : Error).

(** What a [DialDevice] method does, in order. *)
Inductive DevEffect (A : Type) :=
| HttpGet (url : string)
| HttpRequest (options : RequestOptions.t) (written : option jsstring)
| Callback (result : option A) (err : option Error).
Arguments HttpGet {A} _.
Arguments HttpRequest {A} _ _.
Arguments Callback {A} _ _.

(** A method call either throws (an invalid URL, or a URL that
    [http.get] refuses) or runs to its end. *)
Inductive Outcome (A : Type) :=
| Threw
| Ran (tr : list (DevEffect A)).
Arguments Threw {A}.
Arguments Ran {A} _.

(** [this.applicationUrl && appName ? `${this.applicationUrl}/${appName}` : null] *)
Definition app_url (dev : DialDevice) (appName : string) : option string :=
  if truthy_ostr (applicationUrl dev) && truthy_str appName
  then Some (show_ostr (applicationUrl dev) +:+ "/" +:+ appName)
  else None.

(** [this.applicationUrl && appName && pid ? ... : null] *)
Definition stop_url (dev : DialDevice) (appName pid : string) : option string :=
  if truthy_ostr (applicationUrl dev) && truthy_str appName && truthy_str pid
  then Some (show_ostr (applicationUrl dev) +:+ "/" +:+ appName +:+ "/" +:+ pid)
  else None.

Definition status_error (msg : string) (statusCode : Z) : Error :=
  {| message := msg; code := Some (pretty statusCode) |}.

Definition DEFAULT_CONTENT_TYPE : string :=
  "text/plain; charset=" +:+ dq +:+ "utf-8" +:+ dq.

Definition truthy_js (s : option jsstring) : bool :=
  match s with Some (_ :: _) => true | _ => false end.

(** [(launchData && Buffer.byteLength(launchData)) || 0] *)
Definition content_length (launchData : option jsstring) : Z :=
  match launchData with
  | Some s => if truthy_js launchData then Buffer_byteLength s else 0
  | None => 0
  end.

Section DialDeviceMethods.
(** [new URL(s)]: [None] when the constructor throws. *)
Context (parseURL : string → option URL.t).

(** [http.get(url, ...)] with a string: the string is parsed with
    [new URL], and a protocol other than [http:] is refused with
    [ERR_INVALID_PROTOCOL]; in both cases the call throws. *)
Definition http_get_accepts (url : string) : bool :=
  match parseURL url with
  | Some u => bool_decide (URL.protocol u = "http:")
  | None => false
  end.

Definition getAppInfoXml (dev : DialDevice) (appName : string) (answer : HttpOutcome)
  : Outcome string :=
  match app_url dev appName with
  | Some appUrl =>
      if negb (truthy_str appUrl) then
        Ran [Callback None (Some (mkError
          "DIAL appName and DIAL Application-URL cannot be empty for getAppInfo"))]
      else
        if http_get_accepts appUrl then
          Ran (HttpGet appUrl ::
            match answer with
            | Responded statusCode chunks =>
                if Z.eqb statusCode 200
                then [Callback (Some (String.concat "" chunks)) None]
                else [Callback None (Some (status_error
                        ("Cannot get app info from " +:+ appUrl) statusCode))]
            | Failed err => [Callback None (Some err)]
            end)
        else Threw
  | None =>
      Ran [Callback None (Some (mkError
        "DIAL appName and DIAL Application-URL cannot be empty for getAppInfo"))]
  end.

(** [launchApp]; a [contentType] that [http.request] refuses as a header
    value is not modelled. *)
Definition launchApp (dev : DialDevice) (appName : string) (launchData : option jsstring)
  (contentType : option string) (answer : HttpOutcome) : Outcome string :=
  match app_url dev appName with
  | Some appUrlStr =>
      if negb (truthy_str appUrlStr) then
        Ran [Callback None (Some (mkError
          "DIAL appName and DIAL Application-URL cannot be empty for launchApp"))]
      else
        match parseURL appUrlStr with
        | None => Threw
        | Some appUrl =>
            let contentLength := content_length launchData in
            let options :=
              {| RequestOptions.host := URL.hostname appUrl;
                 RequestOptions.port := URL.port appUrl;
                 RequestOptions.path := URL.pathname appUrl +:+ URL.search appUrl;
                 RequestOptions.method := "POST";
                 RequestOptions.headers :=
                   <["CONTENT-TYPE" :=
                       VStr (if truthy_ostr contentType then show_ostr contentType
                             else DEFAULT_CONTENT_TYPE)]>
                   (<["CONTENT-LENGTH" := VNum contentLength]> ∅) |} in
            Ran (HttpRequest options (if truthy_js launchData then launchData else None) ::
              match answer with
              | Responded statusCode chunks =>
                  if Z.leb 400 statusCode
                  then [Callback None (Some (status_error
                          ("Cannot get app info from " +:+ URL.href appUrl) statusCode))]
                  else [Callback (Some (String.concat "" chunks)) None]
              | Failed err => [Callback None (Some err)]
              end)
        end
  | None =>
      Ran [Callback None (Some (mkError
        "DIAL appName and DIAL Application-URL cannot be empty for launchApp"))]
  end.

Definition stopApp (dev : DialDevice) (appName pid : string) (answer : HttpOutcome)
  : Outcome Z :=
  match stop_url dev appName pid with
  | Some stopUrlStr =>
      if negb (truthy_str stopUrlStr) then
        Ran [Callback None (Some (mkError
          "DIAL appName, pid and DIAL Application-URL cannot be empty for stopApp"))]
      else
        match parseURL stopUrlStr with
        | None => Threw
        | Some stopUrl =>
            let options :=
              {| RequestOptions.host := URL.hostname stopUrl;
                 RequestOptions.port := URL.port stopUrl;
                 RequestOptions.path := URL.pathname stopUrl +:+ URL.search stopUrl;
                 RequestOptions.method := "DELETE";
                 RequestOptions.headers := ∅ |} in
            Ran (HttpRequest options None ::
              match answer with
              | Responded statusCode _ => [Callback (Some statusCode) None]
              | Failed err => [Callback None (Some err)]
              end)
        end
  | None =>
      Ran [Callback None (Some (mkError
        "DIAL appName, pid and DIAL Application-URL cannot be empty for stopApp"))]
  end.

End DialDeviceMethods.

(** Reading an outcome. *)
Definition is_http {A} (e : DevEffect A) : bool :=
  match e with HttpGet _ | HttpRequest _ _ => true | Callback _ _ => false end.

Definition http_issued {A} (o : Outcome A) : bool :=
  match o with Ran tr => existsb is_http tr | Threw => false end.

Definition callbacks {A} (o : Outcome A) : list (option A * option Error) :=
  match o with
  | Ran tr =>
      flat_map (λ e, match e with Callback r err => [(r, err)] | _ => [] end) tr
  | Threw => []
  end.

Definition request_of {A} (o : Outcome A) : option (RequestOptions.t * option jsstring) :=
  match o with
  | Ran (HttpRequest options written :: _) => Some (options, written)
  | _ => None
  end.

(** ** Client *)

Abbreviation SsdpHeaders := (gmap string string).

Module Client.

(** [this.services]: a plain object; the map holds its own properties. *)
Record t := { services : gmap string SsdpHeaders }.

Definition new : t := {| services := ∅ |}.

(** What [this.services[location]] reads: the headers stored under the
    location, or the member of [Object.prototype] of that name. *)
Inductive Service :=
| Stored (h : SsdpHeaders)
| Member (name : string).

Definition read_service (c : t) (location : string) : option Service :=
  match services c !! location with
  | Some h => Some (Stored h)
  | None => if inherited location then Some (Member location) else None
  end.

Definition serviceTypes : list string := [DIAL_SERVICE; DIAL_DEVICE].

(** What reaches the client: the events of its SSDP peer and the calls of
    its own methods. *)
Inductive Event :=
| PeerReady
| PeerFound (h : SsdpHeaders)
| PeerNotify (h : SsdpHeaders)
| PeerClosed
| Start
| Refresh
| Stop.

(** What the client does: the events it emits and its calls on the peer. *)
Inductive Action :=
| EmitReady
| EmitFound (location : string) (h : SsdpHeaders)
| EmitDisappear (location : string) (service : Service)
| EmitStop
| Search (st : string)
| StartPeer
| ClosePeer.

(** [serviceTypes.indexOf(nt) >= 0] under [nt && ...] *)
Definition tracked (nt : option string) : bool :=
  match nt with
  | Some s => truthy_str s && bool_decide (s ∈ serviceTypes)
  | None => false
  end.

Definition on_found (h : SsdpHeaders) (c : t) : list Action * t :=
  match h !! "LOCATION" with
  | Some location =>
      if truthy_str location && negb (bool_decide (is_Some (read_service c location)))
      then ([EmitFound location h], {| services := <[location := h]> (services c) |})
      else ([], c)
  | None => ([], c)
  end.

Definition on_notify (h : SsdpHeaders) (c : t) : list Action * t :=
  let location := h !! "LOCATION" in
  let nts := h !! "NTS" in
  let nt := h !! "NT" in
  if tracked nt then
    match location with
    | Some loc =>
        if truthy_str loc && bool_decide (nts = Some "ssdp:alive")
           && negb (bool_decide (is_Some (read_service c loc)))
        then ([EmitFound loc h], {| services := <[loc := h]> (services c) |})
        else
          match read_service c loc with
          | Some service =>
              if truthy_str loc && bool_decide (nts = Some "ssdp:byebye")
              then ([EmitDisappear loc service], {| services := delete loc (services c) |})
              else ([], c)
          | None => ([], c)
          end
    | None => ([], c)
    end
  else ([], c).

Definition step (e : Event) (c : t) : list Action * t :=
  match e with
  | PeerReady => ([Search DIAL_DEVICE; Search DIAL_SERVICE; EmitReady], c)
  | PeerFound h => on_found h c
  | PeerNotify h => on_notify h c
  | PeerClosed => ([EmitStop], c)
  | Start => ([StartPeer], c)
  | Refresh => ([Search DIAL_DEVICE; Search DIAL_SERVICE], {| services := ∅ |})
  | Stop => ([ClosePeer], c)
  end.

(** A run: the actions each event caused, in order. *)
Fixpoint run (es : list Event) (c : t) : list (Event * list Action) * t :=
  match es with
  | [] => ([], c)
  | e :: rest =>
      let '(acts, c1) := step e c in
      let '(log, c2) := run rest c1 in
      ((e, acts) :: log, c2)
  end.

Definition actions (log : list (Event * list Action)) : list Action :=
  flat_map snd log.

End Client.

(** ** The rest of the file *)

(** *** Server: the fields of the description, CORS and the body reader *)

(** The constructor's three naming fields:
    [options.friendlyName || os.hostname() || "unknown"],
    [options.manufacturer || "unknown manufacturer"] and
    [options.modelName || "unknown model"]. *)
Module ServerNames.
Record t := {
  friendlyName : string;
  manufacturer : string;
  modelName : string;
}.
End ServerNames.

Definition ServerNames_new (friendlyName manufacturer modelName : option string)
  (hostname : string) : ServerNames.t :=
  {| ServerNames.friendlyName :=
       show_ostr (or_ostr (or_ostr friendlyName (Some hostname)) (Some "unknown"));
     ServerNames.manufacturer :=
       show_ostr (or_ostr manufacturer (Some "unknown manufacturer"));
     ServerNames.modelName := show_ostr (or_ostr modelName (Some "unknown model")) |}.

(** The value of a CORS [origin] option: a boolean, a string, or an
    object (a [RegExp], an array or a function). *)
Inductive CorsOrigin (A : Type) :=
| OriginFlag (b : bool)
| OriginString (s : string)
| OriginObject (a : A).
Arguments OriginFlag {A} _.
Arguments OriginString {A} _.
Arguments OriginObject {A} _.

Module CorsOptions.
Record t (A : Type) := {
  origin : CorsOrigin A;
  methods : option (list string);
  exposedHeaders : option (list string);
}.
Arguments origin {A} _.
Arguments methods {A} _.
Arguments exposedHeaders {A} _.
End CorsOptions.

(** [options.corsAllowOrigins || false]; [None] stands for an absent
    option. *)
Definition corsAllowOrigins {A} (configured : option (CorsOrigin A)) : CorsOrigin A :=
  match configured with
  | Some (OriginFlag b) => OriginFlag b
  | Some (OriginString s) => if truthy_str s then OriginString s else OriginFlag false
  | Some (OriginObject a) => OriginObject a
  | None => OriginFlag false
  end.

Definition CORS_METHODS : list string := ["GET"; "POST"; "DELETE"; "OPTIONS"].

Definition corsOptionsSsdp {A} (configured : option (CorsOrigin A)) : CorsOptions.t A :=
  {| CorsOptions.origin := corsAllowOrigins configured;
     CorsOptions.methods := Some CORS_METHODS;
     CorsOptions.exposedHeaders := Some ["Location"] |}.

Definition corsOptionsApps {A} (configured : option (CorsOrigin A)) : CorsOptions.t A :=
  {| CorsOptions.origin := corsAllowOrigins configured;
     CorsOptions.methods := Some CORS_METHODS;
     CorsOptions.exposedHeaders := None |}.

(** ASCII case folding, as the [i] flag compares the letters of the
    pattern. *)
Definition ascii_lower (c : Ascii.ascii) : Ascii.ascii :=
  let n := Ascii.nat_of_ascii c in
  if (Nat.leb 65 n && Nat.leb n 90)%bool then Ascii.ascii_of_nat (n + 32) else c.

Fixpoint prefix_ci (p s : string) : bool :=
  match p, s with
  | EmptyString, _ => true
  | String a p', String b s' => Ascii.eqb (ascii_lower a) (ascii_lower b) && prefix_ci p' s'
  | String _ _, EmptyString => false
  end.

(** [/^(http|https|file):/i.test(origin)] *)
Definition web_scheme (origin : string) : bool :=
  prefix_ci "http:" origin || prefix_ci "https:" origin || prefix_ci "file:" origin.

(** [corsOptionsAppsDelegate]: the options handed to the callback for a
    request with the given [Origin] header. *)
Definition corsOptionsAppsDelegate {A} (configured : option (CorsOrigin A))
  (origin : option string)
  : CorsOptions.t A :=
  if negb (truthy_ostr origin) then
    {| CorsOptions.origin := OriginFlag false; CorsOptions.methods := None;
       CorsOptions.exposedHeaders := None |}
  else if negb (web_scheme (show_ostr origin)) then
    {| CorsOptions.origin := OriginFlag true; CorsOptions.methods := None;
       CorsOptions.exposedHeaders := None |}
  else corsOptionsApps configured.

(** The body-reading middleware.  [textual] is what the six [req.is(...)]
    tests give; the chunks are the strings of the [data] events.  The
    result is [(req.text, req.length)] when [next] is called, [None] in
    both places when the body is not read. *)
Definition read_chunk (acc : jsstring * Z) (chunk : jsstring) : jsstring * Z :=
  (acc.1 ++ chunk, acc.2 + js_length chunk).

Definition read_body (textual : bool) (chunks : list jsstring) : option (jsstring * Z) :=
  if textual then Some (fold_left read_chunk chunks ([], 0)) else None.

(** *** Server: the description document and the remaining routes *)

Module DeviceDescData.
Record t := {
  URLBase : string;
  friendlyName : string;
  manufacturer : string;
  modelName : string;
  uuid : string;
}.
End DeviceDescData.

(** A template given line by line: every line ends with a line feed. *)
Definition unlines (ls : list string) : string :=
  String.concat "" (map (λ l, l +:+ nl) ls).

Definition DEVICE_DESC_RENDERER (data : DeviceDescData.t) : string :=
  unlines [
    "<?xml version=" +:+ dq +:+ "1.0" +:+ dq +:+ "?>";
    "<root xmlns=" +:+ dq +:+ "urn:schemas-upnp-org:device-1-0" +:+ dq +:+ ">";
    "  <specVersion>";
    "    <major>1</major>";
    "    <minor>0</minor>";
    "  </specVersion>";
    "  <URLBase>" +:+ DeviceDescData.URLBase data +:+ "</URLBase>";
    "  <device>";
    "    <deviceType>urn:dial-multiscreen-org:device:dial:1</deviceType>";
    "    <friendlyName>" +:+ DeviceDescData.friendlyName data +:+ "</friendlyName>";
    "    <manufacturer>" +:+ DeviceDescData.manufacturer data +:+ "</manufacturer>";
    "    <modelName>" +:+ DeviceDescData.modelName data +:+ "</modelName>";
    "    <UDN>uuid:" +:+ DeviceDescData.uuid data +:+ "</UDN>";
    "    <iconList>";
    "      <icon>";
    "        <mimetype>image/png</mimetype>";
    "        <width>144</width>";
    "        <height>144</height>";
    "        <depth>32</depth>";
    "        <url>/img/icon.png</url>";
    "      </icon>";
    "    </iconList>";
    "    <serviceList>";
    "      <service>";
    "        <serviceType>urn:dial-multiscreen-org:service:dial:1</serviceType>";
    "        <serviceId>urn:dial-multiscreen-org:serviceId:dial</serviceId>";
    "        <controlURL>/ssdp/notfound</controlURL>";
    "        <eventSubURL>/ssdp/notfound</eventSubURL>";
    "        <SCPDURL>/ssdp/notfound</SCPDURL>";
    "      </service>";
    "    </serviceList>";
    "  </device>";
    "</root>"
  ].

(** [GET /apps] *)
Definition get_apps : list Effect := [SendStatus 204].

(** [GET /ssdp/device-desc.xml] *)
Definition get_device_desc {Store} (srv : Server.t Store) (names : ServerNames.t)
  (req : Request.t) : list Effect :=
  let baseURL := base_url srv req in
  let xml := DEVICE_DESC_RENDERER
    {| DeviceDescData.URLBase := baseURL;
       DeviceDescData.friendlyName := ServerNames.friendlyName names;
       DeviceDescData.manufacturer := ServerNames.manufacturer names;
       DeviceDescData.modelName := ServerNames.modelName names;
       DeviceDescData.uuid := Server.uuid srv |} in
  [SetHeader "Content-Type" "application/xml";
   SetHeader "Application-URL" (baseURL +:+ "/apps");
   Send xml].

(** [GET /ssdp/notfound] *)
Definition get_notfound : list Effect := [SendStatus 404].

(** *** DialDevice: the constructor, [getAppInfo] and [Client.getDialDevice] *)

Module IconInfo.
Record t := {
  mimetype : option string;
  width : option string;
  height : option string;
  depth : option string;
  url : option string;
}.
End IconInfo.

(** [iconList]: one [{icon?}] object, or an array of them (an item may be
    null). *)
Inductive IconList :=
| IconSingle (icon : option IconInfo.t)
| IconArray (items : list (option (option IconInfo.t))).

Module DeviceInfo.
Record t := {
  descriptionUrl : option string;
  applicationUrl : option string;
  deviceType : option string;
  friendlyName : option string;
  manufacturer : option string;
  modelName : option string;
  UDN : option string;
  iconList : option IconList;
}.
End DeviceInfo.

(** The constructor: the seven copied fields ... *)
Definition DialDevice_new (deviceInfo : DeviceInfo.t) : DialDevice :=
  {| descriptionUrl := DeviceInfo.descriptionUrl deviceInfo;
     applicationUrl := DeviceInfo.applicationUrl deviceInfo;
     deviceType := DeviceInfo.deviceType deviceInfo;
     friendlyName := DeviceInfo.friendlyName deviceInfo;
     manufacturer := DeviceInfo.manufacturer deviceInfo;
     modelName := DeviceInfo.modelName deviceInfo;
     UDN := DeviceInfo.UDN deviceInfo |}.

(** ... and the [icons] it collects. *)
Definition DialDevice_icons (deviceInfo : DeviceInfo.t) : list IconInfo.t :=
  match DeviceInfo.iconList deviceInfo with
  | Some (IconArray items) =>
      fold_left (λ icons item,
                   match item with
                   | Some (Some icon) => icons ++ [icon]
                   | _ => icons
                   end) items []
  | Some (IconSingle (Some icon)) => [icon]
  | _ => []
  end.

(** The characters [:] and [/]. *)
Definition colon : Ascii.ascii := Ascii.ascii_of_nat 58.
Definition slash : Ascii.ascii := Ascii.ascii_of_nat 47.

(** [s.indexOf(":")] and [s.substring(start)]. *)
Fixpoint indexOf_colon (s : string) : Z :=
  match s with
  | EmptyString => -1
  | String c rest =>
      if Ascii.eqb c colon then 0
      else let i := indexOf_colon rest in if Z.ltb i 0 then -1 else i + 1
  end.

Fixpoint drop_chars (n : nat) (s : string) : string :=
  match n, s with
  | O, _ => s
  | S n', String _ rest => drop_chars n' rest
  | S _, EmptyString => EmptyString
  end.

Definition substring_from (start : Z) (s : string) : string :=
  drop_chars (Z.to_nat (Z.max 0 start)) s.

(** The tag and attribute name processor of [getAppInfo]:
    [name.substring(name.indexOf(":") + 1)]. *)
Definition strip_namespace (name : string) : string :=
  substring_from (indexOf_colon name + 1) name.

(** What the XML parser hands to its callback. *)
Inductive XmlParse (A : Type) :=
| XmlError (err : Error)
| XmlParsed (doc : A).
Arguments XmlError {A} _.
Arguments XmlParsed {A} _.

(** [s.endsWith("/")] and [s.slice(0, -1)]. *)
Fixpoint ends_with_slash (s : string) : bool :=
  match s with
  | EmptyString => false
  | String c EmptyString => Ascii.eqb c slash
  | String _ rest => ends_with_slash rest
  end.

Fixpoint drop_last (s : string) : string :=
  match s with
  | EmptyString => EmptyString
  | String _ EmptyString => EmptyString
  | String c rest => String c (drop_last rest)
  end.

Definition strip_trailing_slash (s : string) : string :=
  if ends_with_slash s then drop_last s else s.

(** What the HTTP peer does with the description request: the answer also
    carries the [application-url] header. *)
Inductive DescOutcome :=
| DescResponded (statusCode : Z) (application_url : option string) (chunks : list string)
| DescFailed (err : Error).

(** What the parser makes of a description: [null] (a blank document), a
    document without [root], a root without [device], a [device] element
    that holds only text (the parser hands out the string), or a device. *)
Inductive Description :=
| NoDocument
| NoRoot
| NoDevice
| TextDevice (text : string)
| Device (info : DeviceInfo.t).

(** The [TypeError]s of reading [root] of [null], of reading [device] of a
    missing root, of assigning to a missing device and of assigning to a
    string (the module is strict code), with the engine's messages. *)
Definition TEXT_DEVICE_ERROR (text : string) : Error :=
  mkError ("Cannot create property 'descriptionUrl' on string '" +:+ text +:+ "'").
Definition NO_DOCUMENT_ERROR : Error :=
  mkError "Cannot read properties of null (reading 'root')".
Definition NO_ROOT_ERROR : Error :=
  mkError "Cannot read properties of undefined (reading 'device')".
Definition NO_DEVICE_ERROR : Error :=
  mkError "Cannot set properties of undefined (setting 'descriptionUrl')".

Section MoreDeviceMethods.
Context (parseURL : string → option URL.t).

(** [getAppInfo]; [parseString] is the XML parser under the options the
    method passes. *)
Definition getAppInfo {P : Type} (parseString : string → XmlParse P)
  (dev : DialDevice) (appName : string) (answer : HttpOutcome) : Outcome P :=
  match getAppInfoXml parseURL dev appName answer with
  | Threw => Threw
  | Ran tr =>
      Ran (flat_map (λ e,
        match e with
        | HttpGet url => [HttpGet url]
        | HttpRequest options written => [HttpRequest options written]
        | Callback appInfoXml err =>
            if negb (truthy_ostr appInfoXml) || bool_decide (is_Some err)
            then [Callback None err]
            else
              match parseString (show_ostr appInfoXml) with
              | XmlError e => [Callback None (Some e)]
              | XmlParsed appInfo => [Callback (Some appInfo) None]
              end
        end) tr)
  end.

(** [Client.getDialDevice]; the device comes with the icons its
    constructor collected.  The callback is handed the device inside the
    [try] block: [callback_throws] tells what the caller's callback throws
    when it is handed a device ([None] when it returns), and the [catch]
    clause then calls it a second time, with that error. *)
Definition getDialDevice
  (parseString : string → XmlParse Description)
  (callback_throws : DialDevice * list IconInfo.t → option Error)
  (deviceDescriptionUrl : string) (answer : DescOutcome)
  : Outcome (DialDevice * list IconInfo.t) :=
  if http_get_accepts parseURL deviceDescriptionUrl then
    Ran (HttpGet deviceDescriptionUrl ::
      match answer with
      | DescResponded statusCode application_url chunks =>
          if Z.eqb statusCode 200 && truthy_ostr application_url then
            let applicationUrl := strip_trailing_slash (show_ostr application_url) in
            match parseString (String.concat "" chunks) with
            | XmlError err => [Callback None (Some err)]
            | XmlParsed NoDocument => [Callback None (Some NO_DOCUMENT_ERROR)]
            | XmlParsed NoRoot => [Callback None (Some NO_ROOT_ERROR)]
            | XmlParsed NoDevice => [Callback None (Some NO_DEVICE_ERROR)]
            | XmlParsed (TextDevice text) => [Callback None (Some (TEXT_DEVICE_ERROR text))]
            | XmlParsed (Device info) =>
                let deviceInfo :=
                  {| DeviceInfo.descriptionUrl := Some deviceDescriptionUrl;
                     DeviceInfo.applicationUrl := Some applicationUrl;
                     DeviceInfo.deviceType := DeviceInfo.deviceType info;
                     DeviceInfo.friendlyName := DeviceInfo.friendlyName info;
                     DeviceInfo.manufacturer := DeviceInfo.manufacturer info;
                     DeviceInfo.modelName := DeviceInfo.modelName info;
                     DeviceInfo.UDN := DeviceInfo.UDN info;
                     DeviceInfo.iconList := DeviceInfo.iconList info |} in
                let dialDevice := (DialDevice_new deviceInfo, DialDevice_icons deviceInfo) in
                Callback (Some dialDevice) None ::
                  match callback_throws dialDevice with
                  | Some e => [Callback None (Some e)]
                  | None => []
                  end
            end
          else
            [Callback None (Some (mkError
               ("Cannot get device description from " +:+ deviceDescriptionUrl +:+
                " or Application-URL header is not set")))]
      | DescFailed err => [Callback None (Some err)]
      end)
  else Threw.

End MoreDeviceMethods.

(** ** The vocabulary of the properties *)

(** What the provider's get hook reports for the request's application
    ([None]: unknown; an unset hook reports nothing). *)
Definition reported {Store} (srv : Server.t Store) (req : Request.t) (σ : Store)
  : option AppInfo.t :=
  (lookup_app srv req (Request.appName req) σ).1.1.

(** The provider's store once the get hook has run. *)
Definition store_after_get {Store} (srv : Server.t Store) (req : Request.t) (σ : Store)
  : Store :=
  (lookup_app srv req (Request.appName req) σ).1.2.

(** The body is within the size limit. *)
Definition within_limit {Store} (srv : Server.t Store) (req : Request.t) : Prop :=
  ∀ n, Request.length req = Some n → n ≤ Server.maxContentLength srv.

(** The number of times the peer has been closed once the acknowledgments
    [acks] have arrived after [stop()]. *)
Definition closes_after {Store} (srv : Server.t Store) (os : Os) (acks : list nat) : nat :=
  count_close (stop_then_acks srv os acks).2.

(** The event recorded the location [loc] with the headers [h] and emitted
    "found" for it. *)
Definition records (e : Client.Event) (c : Client.t) (loc : string) (h : SsdpHeaders)
  : Prop :=
  Client.step e c =
    ([Client.EmitFound loc h], {| Client.services := <[loc := h]> (Client.services c) |}).

(** The event changed nothing and emitted nothing. *)
Definition ignored (e : Client.Event) (c : Client.t) : Prop :=
  Client.step e c = ([], c).

(** The headers carry a non-empty location that is not recorded yet. *)
Definition fresh_location (c : Client.t) (h : SsdpHeaders) (loc : string) : Prop :=
  h !! "LOCATION" = Some loc ∧ loc ≠ "" ∧ Client.services c !! loc = None.

(** The handlers' own test: the headers carry a non-empty location under
    which [this.services] reads nothing. *)
Definition unseen_location (c : Client.t) (h : SsdpHeaders) (loc : string) : Prop :=
  h !! "LOCATION" = Some loc ∧ loc ≠ "" ∧ Client.read_service c loc = None.

(** The location the headers carry, if any, is not the name of a member
    of [Object.prototype]. *)
Definition plain_location (h : SsdpHeaders) : bool :=
  match h !! "LOCATION" with
  | Some loc => negb (inherited loc)
  | None => true
  end.

Definition plain_event (e : Client.Event) : bool :=
  match e with
  | Client.PeerFound h | Client.PeerNotify h => plain_location h
  | _ => true
  end.

(** The monitor of the emitted events: [known] maps each location for
    which "found" was emitted and no "disappear" since to the headers of
    that "found". *)
Definition observe (known : gmap string SsdpHeaders) (a : Client.Action)
  : option (gmap string SsdpHeaders) :=
  match a with
  | Client.EmitFound loc h =>
      match known !! loc with
      | None => Some (<[loc := h]> known)
      | Some _ => None
      end
  | Client.EmitDisappear loc (Client.Stored h) =>
      if bool_decide (known !! loc = Some h) then Some (delete loc known) else None
  | Client.EmitDisappear loc (Client.Member _) => None
  | _ => Some known
  end.

Fixpoint observe_all (known : gmap string SsdpHeaders) (acts : list Client.Action)
  : option (gmap string SsdpHeaders) :=
  match acts with
  | [] => Some known
  | a :: rest =>
      match observe known a with
      | Some known' => observe_all known' rest
      | None => None
      end
  end.

Definition is_refresh (e : Client.Event) : bool :=
  match e with Client.Refresh => true | _ => false end.

(** The log respects the monitor: every "found" is for a location not
    known, every "disappear" for a known location with its stored headers.
    With [refresh_clears], a call of [refresh()] empties [known]. *)
Fixpoint monitor (refresh_clears : bool) (known : gmap string SsdpHeaders)
  (log : list (Client.Event * list Client.Action)) : bool :=
  match log with
  | [] => true
  | (e, acts) :: rest =>
      match observe_all known acts with
      | Some known' =>
          monitor refresh_clears
            (if refresh_clears && is_refresh e then ∅ else known') rest
      | None => false
      end
  end.

(** ** Further sample data *)

(** The application "X" of the spec's scenario: no explicit state, and the
    given pid. *)
Definition scenario_app (pid : option string) : AppInfo.t :=
  {| AppInfo.name := "X"; AppInfo.state := None; AppInfo.pid := pid;
     AppInfo.allowStop := None; AppInfo.additionalData := None;
     AppInfo.namespaces := None |}.

Definition demo_device : DialDevice :=
  {| descriptionUrl := Some "http://192.168.1.20:3000/dial/ssdp/device-desc.xml";
     applicationUrl := Some "http://192.168.1.20:3000/dial/apps";
     deviceType := Some DIAL_DEVICE;
     friendlyName := Some "living room";
     manufacturer := Some "Fraunhofer FOKUS";
     modelName := Some "DIAL Demo Server";
     UDN := Some "uuid:6e1f0b2c-7c1d-4c57-9d53-0c8a1f4e2b90" |}.

(** A stand-in for [new URL] that accepts the demo device's address. *)
Definition demo_parseURL (s : string) : option URL.t :=
  if decide (s = "http://192.168.1.20:3000/dial/apps/YouTube")
  then Some {| URL.href := s; URL.protocol := "http:"; URL.hostname := "192.168.1.20";
               URL.port := "3000"; URL.pathname := "/dial/apps/YouTube";
               URL.search := "" |}
  else None.

(** ** Further vocabulary *)

Definition is_stop_call (e : Effect) : bool :=
  match e with CallStopApp _ _ => true | _ => false end.

Definition stop_invoked (tr : list Effect) : bool := existsb is_stop_call tr.

Definition is_response (e : Effect) : bool :=
  match e with Send _ | SendStatus _ => true | _ => false end.

(** The keys the server itself puts in an alive or byebye message, and in
    a search reply. *)
Definition ADVERT_KEYS : list string := ["NT"; "USN"; "SERVER"; "LOCATION"].
Definition REPLY_KEYS : list string :=
  ["LOCATION"; "ST"; "CONFIGID.UPNP.ORG"; "BOOTID.UPNP.ORG"; "SERVER"; "USN"].

Definition peer_headers (c : PeerCall) : option headers :=
  match c with
  | PeerAlive h | PeerByebye h _ | PeerReply h => Some h
  | PeerClose => None
  end.

(** The monitor again, now handing out what it knows at the end of the
    log ([refresh()] empties it). *)
Fixpoint replay (known : gmap string SsdpHeaders)
  (log : list (Client.Event * list Client.Action)) : option (gmap string SsdpHeaders) :=
  match log with
  | [] => Some known
  | (e, acts) :: rest =>
      match observe_all known acts with
      | Some known' => replay (if is_refresh e then ∅ else known') rest
      | None => None
      end
  end.

(** Every record is kept under the location its own headers announce. *)
Definition keyed_by_location (c : Client.t) : Prop :=
  ∀ loc h, Client.services c !! loc = Some h → loc ≠ "" ∧ h !! "LOCATION" = Some loc.

(** A server without provider hooks, and one whose provider only answers
    [getApp]. *)
Definition bare_options : ServerOptions.t demo_store :=
  {| ServerOptions.prefix := None; ServerOptions.port := Some 3000;
     ServerOptions.host := None; ServerOptions.uuid := None;
     ServerOptions.maxContentLength := Some 100; ServerOptions.extraHeaders := None;
     ServerOptions.delegate := None |}.

Definition lookup_only_options : ServerOptions.t demo_store :=
  {| ServerOptions.prefix := Some "/dial"; ServerOptions.port := Some 3000;
     ServerOptions.host := None; ServerOptions.uuid := None;
     ServerOptions.maxContentLength := None; ServerOptions.extraHeaders := None;
     ServerOptions.delegate :=
       Some {| ServerDelegate.getApp := Some demo_getApp;
               ServerDelegate.launchApp := None;
               ServerDelegate.stopApp := None |} |}.

(** A server configured with extra headers, one of them colliding with
    NT and one null. *)
Definition extra_demo_options : ServerOptions.t demo_store :=
  {| ServerOptions.prefix := Some "/dial"; ServerOptions.port := Some 3000;
     ServerOptions.host := None; ServerOptions.uuid := Some "abc";
     ServerOptions.maxContentLength := Some 100;
     ServerOptions.extraHeaders :=
       Some {[ "WAKEUP" := VStr "MAC=10:dd:b1:c9:00:e4;Timeout=10"; "NT" := VStr "mine";
               "X-NULL" := VNull ]};
     ServerOptions.delegate := None |}.

Fixpoint lower_string (s : string) : string :=
  match s with
  | EmptyString => EmptyString
  | String c rest => String (ascii_lower c) (lower_string rest)
  end.

(** No character of the string is a colon. *)
Fixpoint colon_free (s : string) : bool :=
  match s with
  | EmptyString => true
  | String c rest => negb (Ascii.eqb c colon) && colon_free rest
  end.

(** A stand-in for the XML parser that reads every description as the
    demo server's. *)
Definition demo_parseString (_ : string) : XmlParse Description :=
  XmlParsed (Device
    {| DeviceInfo.descriptionUrl := None; DeviceInfo.applicationUrl := None;
       DeviceInfo.deviceType := Some DIAL_DEVICE;
       DeviceInfo.friendlyName := Some "living room";
       DeviceInfo.manufacturer := Some "Fraunhofer FOKUS";
       DeviceInfo.modelName := Some "DIAL Demo Server";
       DeviceInfo.UDN := Some "uuid:6e1f0b2c-7c1d-4c57-9d53-0c8a1f4e2b90";
       DeviceInfo.iconList := None |}).

(** A caller's callback that returns, whatever device it is handed. *)
Definition callback_returns (_ : DialDevice * list IconInfo.t) : option Error := None.

(** A stand-in for [new URL] that accepts every address. *)
Definition any_parseURL (s : string) : option URL.t :=
  Some {| URL.href := s; URL.protocol := "http:"; URL.hostname := "192.168.1.20";
          URL.port := "3000"; URL.pathname := "/"; URL.search := "" |}.

Definition demo_names : ServerNames.t :=
  ServerNames_new None (Some "Fraunhofer FOKUS") (Some "DIAL Demo Server") "tv".

(** The method called back exactly once, with a result or else with an
    error. *)
Definition calls_back_once {A} (o : Outcome A) : Prop :=
  ∃ r e, callbacks o = [(r, e)] ∧ (r = None ↔ is_Some e).

(** The requests of an outcome. *)
Definition http_count {A} (o : Outcome A) : nat :=
  match o with Ran tr => List.length (List.filter is_http tr) | Threw => 0%nat end.

(** A stand-in for the application-info parser: it rejects the text
    "<broken" and reads any other text as itself. *)
Definition demo_parseAppInfo (xml : string) : XmlParse string :=
  if decide (xml = "<broken") then XmlError (mkError "Unclosed root tag")
  else XmlParsed xml.




(** What a client that fetches the description gets from the server's
    response: the status, the [Application-URL] header and the body. *)
Definition description_answer (tr : list Effect) : DescOutcome :=
  DescResponded (default 0 (response_status tr)) (response_header "Application-URL" tr)
                (option_list (response_body tr)).

(** The responses a trace sends. *)
Definition response_count (tr : list Effect) : nat :=
  List.length (List.filter is_response tr).

(** The completions that threw because the response was sent already. *)
Definition is_throw (e : Effect) : bool :=
  match e with ThrowHeadersSent => true | _ => false end.

Definition throw_count (tr : list Effect) : nat :=
  List.length (List.filter is_throw tr).

(** A launch hook that completes twice: first with the pid, then with an
    error. *)
Definition twice_launchApp (_ : Request.t) (_ : string) (_ : option string)
  (apps : demo_store) : list (option string * option Error) * demo_store :=
  ([(Some "run", None); (None, Some (mkError "crashed"))], apps).

Definition twice_server : Server.t demo_store :=
  Server_new
    {| ServerOptions.prefix := Some "/dial"; ServerOptions.port := Some 3000;
       ServerOptions.host := None; ServerOptions.uuid := None;
       ServerOptions.maxContentLength := None; ServerOptions.extraHeaders := None;
       ServerOptions.delegate :=
         Some {| ServerDelegate.getApp := Some demo_getApp;
                 ServerDelegate.launchApp := Some twice_launchApp;
                 ServerDelegate.stopApp := None |} |} "6e1f0b2c".

(** A description whose icon list has a null item, an item without icon
    and two icons. *)
Definition png_icon (url : string) : IconInfo.t :=
  {| IconInfo.mimetype := Some "image/png"; IconInfo.width := Some "144";
     IconInfo.height := Some "144"; IconInfo.depth := Some "32";
     IconInfo.url := Some url |}.

Definition icons_demo_info : DeviceInfo.t :=
  {| DeviceInfo.descriptionUrl := None; DeviceInfo.applicationUrl := None;
     DeviceInfo.deviceType := None; DeviceInfo.friendlyName := None;
     DeviceInfo.manufacturer := None; DeviceInfo.modelName := None;
     DeviceInfo.UDN := None;
     DeviceInfo.iconList :=
       Some (IconArray [Some (Some (png_icon "/a.png")); None; Some None;
                        Some (Some (png_icon "/b.png"))]) |}.

(** * Properties *)

(** ** Truthiness *)

Lemma truthy_str_true (s : string) : truthy_str s = true ↔ s ≠ "".
Proof.
  unfold truthy_str. destruct (String.eqb_spec s ""); simpl; split; congruence.
Qed.

Lemma truthy_str_false (s : string) : truthy_str s = false ↔ s = "".
Proof.
  unfold truthy_str. destruct (String.eqb_spec s ""); simpl; split; congruence.
Qed.

Lemma append_eq_empty (a b : string) : a +:+ b = "" → a = "" ∧ b = "".
Proof. destruct a; simpl; [done | discriminate]. Qed.

(** ** [merge] *)

Lemma lookup_set_prop (key : string) (v : value) (obj : headers) (k : string) :
  set_prop key v obj !! k =
    if decide (key = k) then (if hits_setter obj key then None else Some v)
    else obj !! k.
Proof.
  unfold set_prop, hits_setter. case_decide as Hk.
  - subst k. destruct (bool_decide (key = "__proto__")); cbn [andb].
    + case_bool_decide as Hnone; [done | apply lookup_insert_eq].
    + apply lookup_insert_eq.
  - destruct (_ && _); [done | by apply lookup_insert_ne].
Qed.

(** What [merge] leaves under a key. *)
Lemma merge_lookup (obj1 obj2 : headers) (k : string) :
  merge obj1 obj2 !! k =
  match obj2 !! k with
  | Some v2 => if hits_setter obj1 k then None else Some (or_read (get_prop obj1 k) v2)
  | None => obj1 !! k
  end.
Proof.
  unfold merge. revert k.
  apply (map_fold_weak_ind
    (λ acc m, ∀ k, acc !! k =
       match m !! k with
       | Some v2 =>
           if hits_setter obj1 k then None else Some (or_read (get_prop obj1 k) v2)
       | None => obj1 !! k
       end)).
  - intros k. by rewrite lookup_empty.
  - intros i x m acc Hi IH k. unfold merge_step. rewrite lookup_set_prop.
    destruct (decide (i = k)) as [->|Hne].
    + rewrite lookup_insert_eq. specialize (IH k). rewrite Hi in IH.
      unfold hits_setter, get_prop. by rewrite IH.
    + rewrite lookup_insert_ne by done. apply IH.
Qed.

(** A truthy value of the first object survives the merge. *)
Lemma merge_keeps_truthy (obj1 obj2 : headers) (k : string) (v : value) :
  obj1 !! k = Some v → truthy v = true → merge obj1 obj2 !! k = Some v.
Proof.
  intros Hk Hv. rewrite merge_lookup. unfold hits_setter, get_prop. rewrite Hk.
  rewrite (bool_decide_eq_false_2 (Some v = None)) by done. rewrite andb_false_r.
  simpl. rewrite Hv. by destruct (obj2 !! k).
Qed.

(** Outside the three call sites a falsy value of the first object is
    overwritten: [merge] keeps what is truthy. *)
Example merge_overwrites_falsy :
  merge {["BOOTID.UPNP.ORG" := VNum 0]} {["BOOTID.UPNP.ORG" := VNum 7]} !! "BOOTID.UPNP.ORG"
  = Some (VNum 7).
Proof. rewrite merge_lookup, !lookup_singleton_eq. reflexivity. Qed.

(** Merging into an object whose values are all truthy keeps every entry
    of it, creates under a key it lacks, unless the key is the name of a
    member of [Object.prototype], the entry of the merged object, and
    changes nothing else. *)
Lemma merge_truthy_base (base extra : headers) :
  (∀ k v, base !! k = Some v → truthy v = true) →
  (∀ k v, base !! k = Some v → merge base extra !! k = Some v) ∧
  (∀ k, base !! k = None → inherited k = false → merge base extra !! k = extra !! k) ∧
  (∀ k, merge base extra !! k ≠ base !! k → base !! k = None ∧ is_Some (extra !! k)).
Proof.
  intros Htruthy. split; [|split].
  - intros k v Hk. apply merge_keeps_truthy; [done|]. by eapply Htruthy.
  - intros k Hk Hin. rewrite merge_lookup. destruct (extra !! k) as [v2|]; [|done].
    unfold hits_setter, get_prop. rewrite Hk, Hin.
    rewrite bool_decide_eq_false_2; [done|]. by intros ->.
  - intros k Hdiff. destruct (base !! k) as [v|] eqn:Hk.
    + exfalso. apply Hdiff. apply merge_keeps_truthy; [done|]. by eapply Htruthy.
    + split; [done|]. rewrite merge_lookup in Hdiff.
      destruct (extra !! k); [eauto | by rewrite Hk in Hdiff].
Qed.

(** The three call sites: every value of the base object is a non-empty
    string or the number 7337, so there the existing value always wins. *)
Lemma advert_base_truthy {Store} (srv : Server.t Store) (os : Os) (st : string)
  (k : string) (v : value) :
  st ≠ "" → advert_base srv os st !! k = Some v → truthy v = true.
Proof.
  intros Hst. unfold advert_base, ssdp_location, SERVER_STR.
  rewrite !lookup_insert. repeat case_decide; intros [= <-]; simpl;
    try apply truthy_str_true; try done.
  intros [_ [=]]%append_eq_empty.
Qed.

Lemma reply_base_truthy {Store} (srv : Server.t Store) (os : Os) (st : string)
  (k : string) (v : value) :
  st ≠ "" → reply_base srv os st !! k = Some v → truthy v = true.
Proof.
  intros Hst. unfold reply_base, ssdp_location, SERVER_STR.
  rewrite !lookup_insert. repeat case_decide; intros [= <-]; simpl;
    try apply truthy_str_true; try done.
  intros [_ [=]]%append_eq_empty.
Qed.

Lemma advert_headers_keep_base {Store} (srv : Server.t Store) (os : Os) (st : string)
  (k : string) (v : value) :
  st ≠ "" → advert_base srv os st !! k = Some v → advert_headers srv os st !! k = Some v.
Proof.
  intros Hst Hk. apply merge_keeps_truthy; [done|].
  by eapply advert_base_truthy.
Qed.

(** ** [Server.stop] *)

Lemma serviceTypes_nonempty (uuid st : string) : st ∈ serviceTypes uuid → st ≠ "".
Proof.
  unfold serviceTypes. rewrite !elem_of_cons, elem_of_nil.
  intros [->|[->|[->|[->|[->|[]]]]]]; done.
Qed.

(** At the three call sites of [merge] (alive, byebye and search reply),
    every entry of the base object is kept. *)
Lemma call_sites_keep_base {Store} (srv : Server.t Store) (os : Os) (st k : string)
  (v : value) :
  st ∈ serviceTypes (Server.uuid srv) →
  (advert_base srv os st !! k = Some v → advert_headers srv os st !! k = Some v) ∧
  (reply_base srv os st !! k = Some v → reply_headers srv os st !! k = Some v).
Proof.
  intros Hst%serviceTypes_nonempty. split.
  - by apply advert_headers_keep_base.
  - intros Hk. apply merge_keeps_truthy; [done|]. by eapply reply_base_truthy.
Qed.

(** C6: in the alive, byebye and search-reply messages, whatever the
    extra headers are, merging them into the base headers keeps every key
    of the base with its value ("existing value wins"); the merged headers
    differ from the base only under keys that the base does not have and
    the extra headers do; and under such a key, unless it is the name of a
    member of [Object.prototype], they hold the extra header's value. *)
Theorem merge_existing_wins {Store} (srv : Server.t Store) (os : Os) (st : string)
  (base extra : headers) :
  st ∈ serviceTypes (Server.uuid srv) →
  base = advert_base srv os st ∨ base = reply_base srv os st →
  (∀ k v, base !! k = Some v → merge base extra !! k = Some v) ∧
  (∀ k, base !! k = None → inherited k = false → merge base extra !! k = extra !! k) ∧
  (∀ k, merge base extra !! k ≠ base !! k → base !! k = None ∧ is_Some (extra !! k)).
Proof.
  intros Hst%serviceTypes_nonempty Hbase. apply merge_truthy_base.
  intros k v. destruct Hbase as [-> | ->];
    [by apply advert_base_truthy | by apply reply_base_truthy].
Qed.

(** C6 at the alive message of the demo server for [upnp:rootdevice],
    with extra headers that name NT and WAKEUP: NT keeps the service
    type, WAKEUP is added. *)
Lemma merge_existing_wins_witness :
  let os := {| os_type := "Linux"; os_release := "6.8.0" |} in
  let base := advert_base demo_server os "upnp:rootdevice" in
  let extra : headers :=
    {[ "NT" := VStr "mine"; "WAKEUP" := VStr "MAC=10:dd:b1:c9:00:e4;Timeout=10" ]} in
  merge base extra !! "NT" = Some (VStr "upnp:rootdevice") ∧
  merge base extra !! "WAKEUP" = Some (VStr "MAC=10:dd:b1:c9:00:e4;Timeout=10").
Proof.
  intros os base extra.
  destruct (merge_existing_wins demo_server os "upnp:rootdevice" base extra
              ltac:(apply (bool_decide_unpack _); vm_compute; exact I)
              (or_introl eq_refl)) as (Hkeep & Hadd & _).
  split.
  - apply Hkeep. reflexivity.
  - rewrite (Hadd "WAKEUP"); reflexivity.
Defined.

Lemma serviceTypes_NoDup (uuid : string) : NoDup (serviceTypes uuid).
Proof.
  unfold serviceTypes, DIAL_SERVICE, DIAL_DEVICE.
  repeat (apply NoDup_cons; split;
    [rewrite ?elem_of_cons, elem_of_nil; simpl; intros H;
       repeat (destruct H as [H|H]; [discriminate H|]); done |]).
  apply NoDup_nil_2.
Qed.

Lemma advert_headers_NT {Store} (srv : Server.t Store) (os : Os) (st : string) :
  st ≠ "" → header_str (advert_headers srv os st) "NT" = Some st.
Proof.
  intros Hst. unfold header_str.
  rewrite (advert_headers_keep_base srv os st "NT" (VStr st)); [done..|].
  unfold advert_base. by rewrite lookup_insert_eq.
Qed.

Lemma advert_headers_USN {Store} (srv : Server.t Store) (os : Os) (st : string) :
  st ≠ "" →
  header_str (advert_headers srv os st) "USN" =
    Some ("uuid:" +:+ Server.uuid srv +:+ "::" +:+ st).
Proof.
  intros Hst. unfold header_str.
  rewrite (advert_headers_keep_base srv os st "USN"
             (VStr ("uuid:" +:+ Server.uuid srv +:+ "::" +:+ st))); [done..|].
  unfold advert_base. rewrite lookup_insert_ne by done. by rewrite lookup_insert_eq.
Qed.

(** Acknowledging messages that were sent as byebyes runs [done] once per
    acknowledgment: with a positive counter that is at least the number of
    acknowledgments, the peer is closed exactly when their number reaches
    the counter. *)
Lemma acknowledge_all_closes (sent : list PeerCall) (acks : list nat) (r : Z) :
  Forall (λ i, ∃ h cb, sent !! i = Some (PeerByebye h cb)) acks →
  0 < r → Z.of_nat (List.length acks) ≤ r →
  count_close (acknowledge_all sent acks {| remaining := r |}).1 =
    (if Z.eqb (Z.of_nat (List.length acks)) r then 1 else 0)%nat ∧
  remaining (acknowledge_all sent acks {| remaining := r |}).2 =
    r - Z.of_nat (List.length acks).
Proof.
  revert r. induction acks as [|i acks IH]; intros r Hall Hr Hlen.
  - cbn [acknowledge_all fst snd remaining List.length]. change (Z.of_nat 0) with 0.
    destruct (Z.eqb_spec 0 r); [lia|]. split; [done | lia].
  - apply Forall_cons in Hall as [(h & cb & Hi) Hall].
    cbn [acknowledge_all]. unfold acknowledge. rewrite Hi.
    destruct cb. cbn [run_callback done remaining].
    cbn [List.length] in *.
    destruct (Z.leb_spec (r - 1) 0) as [Hle|Hgt].
    + assert (acks = []) as -> by (destruct acks; [done | cbn [List.length] in *; lia]).
      assert (r = 1) as -> by lia. split; [done | cbn; lia].
    + destruct (IH (r - 1) Hall) as [IH1 IH2]; [lia..|].
      destruct (acknowledge_all sent acks {| remaining := r - 1 |}) as [calls s2].
      cbn [fst snd app] in *. rewrite IH1, IH2. split; [|lia].
      destruct (Z.eqb_spec (Z.of_nat (List.length acks)) (r - 1)),
               (Z.eqb_spec (Z.of_nat (S (List.length acks))) r); (done || lia).
Qed.

(** C2: [stop()] sends exactly five byebyes, one per service type (the
    types are pairwise distinct), the one for type [st] with NT [st] and USN
    [uuid:{uuid}::{st}]; and whatever the order in which the five
    acknowledgments arrive, the peer has not been closed after fewer than
    five of them and has been closed exactly once after all five. *)
Theorem stop_withdraws_each_type_and_closes_once {Store} (srv : Server.t Store) (os : Os)
  (order : list nat) :
  order ≡ₚ seq 0 5 →
  let sent := (Server_stop srv os).1 in
  let types := serviceTypes (Server.uuid srv) in
  List.length types = 5%nat ∧ NoDup types ∧
  Forall2 (λ call st, ∃ h, call = PeerByebye h DoneCallback ∧
             header_str h "NT" = Some st ∧
             header_str h "USN" = Some ("uuid:" +:+ Server.uuid srv +:+ "::" +:+ st))
          sent types ∧
  count_close sent = 0%nat ∧
  ∀ k : nat, closes_after srv os (take k order) = if decide (k < 5)%nat then 0%nat else 1%nat.
Proof.
  intros Hperm sent types.
  assert (Hsent : Forall2 (λ call st, ∃ h, call = PeerByebye h DoneCallback ∧
             header_str h "NT" = Some st ∧
             header_str h "USN" = Some ("uuid:" +:+ Server.uuid srv +:+ "::" +:+ st))
          sent types).
  { subst sent types. unfold Server_stop. cbn [fst].
    apply Forall2_fmap_l, Forall_Forall2_diag, Forall_forall.
    intros st Hst%serviceTypes_nonempty. eexists. split; [done|].
    split; [by apply advert_headers_NT | by apply advert_headers_USN]. }
  split; [done|]. split; [apply serviceTypes_NoDup|]. split; [done|].
  split; [done|].
  intros k. unfold closes_after, stop_then_acks.
  change (Server_stop srv os) with (sent, {| remaining := 5 |}). cbn [snd fst].
  assert (Hlen : List.length order = 5%nat) by (by rewrite Hperm).
  assert (Hvalid : Forall (λ i, ∃ h cb, sent !! i = Some (PeerByebye h cb)) (take k order)).
  { apply Forall_take, Forall_forall. intros i Hi.
    rewrite Hperm in Hi. apply elem_of_seq in Hi as [_ Hi].
    destruct (Forall2_lookup_r _ _ _ i (types !!! i) Hsent) as (call & Hcall & h & -> & _).
    - apply list_lookup_lookup_total_lt. subst types. simpl. lia.
    - eauto. }
  destruct (acknowledge_all_closes sent (take k order) 5 Hvalid) as [Hc _]; [lia| |].
  { rewrite length_take. lia. }
  rewrite Hc, length_take, Hlen.
  case_decide; destruct (Z.eqb_spec (Z.of_nat (k `min` 5)) 5); (done || lia).
Qed.

(** C2 at the demo server, the acknowledgments arriving in the order
    4th, 1st, 5th, 2nd, 3rd. *)
Lemma stop_withdraws_each_type_and_closes_once_witness :
  let srv := demo_server in
  let os := {| os_type := "Linux"; os_release := "6.8.0" |} in
  let sent := (Server_stop srv os).1 in
  let types := serviceTypes (Server.uuid srv) in
  List.length types = 5%nat ∧ NoDup types ∧
  Forall2 (λ call st, ∃ h, call = PeerByebye h DoneCallback ∧
             header_str h "NT" = Some st ∧
             header_str h "USN" = Some ("uuid:" +:+ Server.uuid srv +:+ "::" +:+ st))
          sent types ∧
  count_close sent = 0%nat ∧
  ∀ k : nat, closes_after srv os (take k [3; 0; 4; 1; 2]%nat) =
             if decide (k < 5)%nat then 0%nat else 1%nat.
Proof.
  apply (stop_withdraws_each_type_and_closes_once demo_server
           {| os_type := "Linux"; os_release := "6.8.0" |} [3; 0; 4; 1; 2]%nat).
  apply (bool_decide_unpack _). vm_compute. exact I.
Defined.

(** ** The HTTP application routes *)

(** The inference rule, case by case; a state or pid that is the empty
    string counts as absent, as [||] and [&&] have it. *)
Lemma infer_state_cases (info : AppInfo.t) :
  (∀ s, AppInfo.state info = Some s → s ≠ "" → infer_state info = s) ∧
  (truthy_ostr (AppInfo.state info) = false →
   ∀ p, AppInfo.pid info = Some p → p ≠ "" → infer_state info = "running") ∧
  (truthy_ostr (AppInfo.state info) = false →
   truthy_ostr (AppInfo.pid info) = false → infer_state info = "stopped").
Proof.
  unfold infer_state. repeat split.
  - intros s -> Hs%truthy_str_true. simpl. by rewrite Hs.
  - intros -> p -> Hp%truthy_str_true. simpl. by rewrite Hp.
  - by intros -> ->.
Qed.


Lemma within_limit_not_too_large {Store} (srv : Server.t Store) (req : Request.t) :
  within_limit srv req → too_large srv req = false.
Proof.
  unfold within_limit, too_large. intros H.
  destruct (Request.length req) as [n|]; [|done].
  specialize (H n eq_refl). apply andb_false_iff. right. lia.
Qed.

Lemma append_assoc (a b c : string) : (a +:+ b) +:+ c = a +:+ (b +:+ c).
Proof. induction a as [|x a IH]; [done|]. exact (f_equal (String x) IH). Qed.

Lemma truthy_ostr_false (o : option string) :
  truthy_ostr o = false ↔ o = None ∨ o = Some "".
Proof.
  destruct o as [s|]; simpl.
  - rewrite truthy_str_false. split; [intros ->; by right | by intros [|[= ->]]].
  - split; [by left | done].
Qed.

Lemma truthy_ostr_true (o : option string) :
  truthy_ostr o = true ↔ ∃ s, o = Some s ∧ s ≠ "".
Proof.
  destruct o as [s|]; simpl.
  - rewrite truthy_str_true. split; [eauto | by intros (? & [= <-] & ?)].
  - split; [done | by intros (? & [=] & _)].
Qed.

(** Once a trace has sent the response, what follows does not change
    its status or its headers. *)
Lemma response_status_app (a b : list Effect) (c : Z) :
  response_status a = Some c → response_status (a ++ b) = Some c.
Proof. induction a as [|[] a IH]; cbn; (done || exact IH). Qed.

Lemma response_header_app (key : string) (a b : list Effect) :
  is_Some (response_status a) →
  response_header key (a ++ b) = response_header key a.
Proof.
  induction a as [|e a IH]; cbn; [by intros [? [=]]|].
  destruct e; try done; try exact IH.
  intros Hsent. case_decide; [done | by apply IH].
Qed.

(** Splits on the get hook and names what it returns. *)
Ltac split_lookup srv req σ :=
  unfold reported, store_after_get, lookup_app in *;
  destruct (ServerDelegate.getApp (Server.delegate srv)) as [?get|];
  [ destruct (get req (Request.appName req) σ) as [?r ?σ1] |];
  cbn [fst snd app] in *.

(** C4: the status of [GET /apps/{name}] is 404 exactly when the get hook
    reports the application unknown (or there is no get hook); otherwise
    the status is 200 and the body is the application description with
    the element [<state>st</state>], where [st] is the explicit state when
    there is one, else "running" when there is a pid, else "stopped" (an
    empty string counting as absent). *)
Theorem get_app_status_and_state {Store} (srv : Server.t Store) (req : Request.t)
  (σ : Store) :
  let tr := (get_app srv req σ).1 in
  let name := Request.appName req in
  (ServerDelegate.getApp (Server.delegate srv) = None → response_status tr = Some 404) ∧
  (∀ get, ServerDelegate.getApp (Server.delegate srv) = Some get →
     (response_status tr = Some 404 ↔ (get req name σ).1 = None) ∧
     (∀ info, (get req name σ).1 = Some info →
        ∃ st,
          response_status tr = Some 200 ∧
          (let data :=
             {| AppDescData.name := name;
                AppDescData.state := st;
                AppDescData.allowStop :=
                  match AppInfo.allowStop info with Some true => true | _ => false end;
                AppDescData.rel := "run";
                AppDescData.href := AppInfo.pid info;
                AppDescData.additionalData := AppInfo.additionalData info;
                AppDescData.namespaces := default [] (AppInfo.namespaces info) |} in
           response_body tr =
             Some (app_desc_head data +:+ "<state>" +:+ st +:+ "</state>" +:+
                   app_desc_tail data)) ∧
          (∀ s, AppInfo.state info = Some s → s ≠ "" → st = s) ∧
          (AppInfo.state info = None ∨ AppInfo.state info = Some "" →
             ∀ p, AppInfo.pid info = Some p → p ≠ "" → st = "running") ∧
          (AppInfo.state info = None ∨ AppInfo.state info = Some "" →
             AppInfo.pid info = None ∨ AppInfo.pid info = Some "" → st = "stopped"))).
Proof.
  intros tr name. subst tr name. unfold get_app, lookup_app. split.
  - by intros ->.
  - intros get ->. destruct (get req (Request.appName req) σ) as [[info|] σ1]; cbn [fst snd].
    + split; [split; discriminate|]. intros ? [= <-].
      exists (infer_state info). split; [done|]. split.
      { cbn [fst app response_body]. unfold APP_DESC_RENDERER, state_element.
        cbn [AppDescData.state]. f_equal. f_equal.
        by rewrite !append_assoc. }
      destruct (infer_state_cases info) as (H1 & H2 & H3).
      split; [done|]. split.
      * intros Hs%truthy_ostr_false. by apply H2.
      * intros Hs%truthy_ostr_false Hp%truthy_ostr_false. by apply H3.
    + split; [done|]. discriminate.
Qed.

(** C1: a POST whose application the get hook reports, whose body is
    within the size limit and whose launch hook completes (the first
    completion decides; see [complete_all]).  With an error the status is
    503.  Without one the status is decided by the application info read
    before the launch hook ran: an explicit state gives 201 when it is
    "stopped" and 200 otherwise; without an explicit state a pid gives 200
    (the state reads "running"), and neither state nor pid gives 201 (it
    reads "stopped"); an empty string counts as absent.  The LOCATION
    header is set exactly when the hook returned a non-empty pid, to the
    base URL followed by [/apps/{name}/{pid}]. *)
Theorem post_app_launch_status {Store} (srv : Server.t Store) (req : Request.t)
  (σ σ1 : Store) (info : AppInfo.t)
  (get : Request.t → string → Store → option AppInfo.t * Store)
  (launch : Request.t → string → option string → Store →
            list (option string * option Error) * Store)
  (pid : option string) (err : option Error)
  (later : list (option string * option Error)) :
  ServerDelegate.getApp (Server.delegate srv) = Some get →
  get req (Request.appName req) σ = (Some info, σ1) →
  within_limit srv req →
  ServerDelegate.launchApp (Server.delegate srv) = Some launch →
  (launch req (Request.appName req) (or_ostr (Request.text req) None) σ1).1
    = (pid, err) :: later →
  let tr := (post_app srv req σ).1 in
  match err with
  | Some _ => response_status tr = Some 503
  | None =>
      (∀ s, AppInfo.state info = Some s → s ≠ "" →
         response_status tr = Some (if decide (s = "stopped") then 201 else 200)) ∧
      (AppInfo.state info = None ∨ AppInfo.state info = Some "" →
         ∀ p, AppInfo.pid info = Some p → p ≠ "" → response_status tr = Some 200) ∧
      (AppInfo.state info = None ∨ AppInfo.state info = Some "" →
         AppInfo.pid info = None ∨ AppInfo.pid info = Some "" →
         response_status tr = Some 201) ∧
      (∀ p, pid = Some p → p ≠ "" →
         response_header "LOCATION" tr =
           Some (base_url srv req +:+ "/apps/" +:+ Request.appName req +:+ "/" +:+ p)) ∧
      (pid = None ∨ pid = Some "" → response_header "LOCATION" tr = None)
  end.
Proof.
  intros Hget Hinfo Hlim%within_limit_not_too_large Hlaunch Hreply.
  unfold post_app, lookup_app. rewrite Hget, Hinfo, Hlim, Hlaunch.
  destruct (launch req (Request.appName req) (or_ostr (Request.text req) None) σ1)
    as [replies σ2]. cbn [fst] in Hreply. subst replies.
  cbn [fst app complete_all].
  set (throws := map (λ _, ThrowHeadersSent) later).
  set (first := launch_callback (base_url srv req) (Request.appName req)
                  (infer_state info) (pid, err)).
  change (CallGetApp (Request.appName req)
          :: CallLaunchApp (Request.appName req) (or_ostr (Request.text req) None)
             :: first ++ throws)
    with ((CallGetApp (Request.appName req)
           :: CallLaunchApp (Request.appName req) (or_ostr (Request.text req) None)
              :: first) ++ throws).
  assert (Hstatus : response_status
            (CallGetApp (Request.appName req)
             :: CallLaunchApp (Request.appName req) (or_ostr (Request.text req) None)
                :: first) =
          Some (match err with
                | Some _ => 503
                | None => if decide (infer_state info = "stopped") then 201 else 200
                end)).
  { subst first. unfold launch_callback. cbn [fst snd].
    destruct err; [done|]. by destruct (truthy_ostr pid). }
  rewrite (response_status_app _ throws _ Hstatus).
  rewrite (response_header_app "LOCATION" _ throws (mk_is_Some _ _ Hstatus)).
  destruct err as [e|]; [done|].
  destruct (infer_state_cases info) as (H1 & H2 & H3).
  split; [|split; [|split; [|split]]].
  - intros s Hs Hne. by rewrite (H1 s Hs Hne).
  - intros Hs%truthy_ostr_false p Hp Hne. by rewrite (H2 Hs p Hp Hne).
  - intros Hs%truthy_ostr_false Hp%truthy_ostr_false. by rewrite (H3 Hs Hp).
  - intros p -> Hp%truthy_str_true. subst first. unfold launch_callback.
    cbn [fst snd truthy_ostr show_ostr]. rewrite Hp. cbn. by rewrite decide_True.
  - intros Hp%truthy_ostr_false. subst first. unfold launch_callback.
    cbn [fst snd]. by rewrite Hp.
Qed.


(** C5: [DELETE /apps/{name}/{pid}], by what the get hook returns: 404
    for an unknown application; else 405 when stopping is not allowed,
    whatever the pid; else 400 when the pid is absent; else the stop hook
    is called with the name and the pid, and the status is 200 when it
    reports success and 400 when it reports failure (its first completion
    decides; see [complete_all]). *)
Theorem delete_app_status {Store} (srv : Server.t Store) (req : Request.t) (σ σ1 : Store)
  (get : Request.t → string → Store → option AppInfo.t * Store)
  (r : option AppInfo.t) :
  ServerDelegate.getApp (Server.delegate srv) = Some get →
  get req (Request.appName req) σ = (r, σ1) →
  let tr := (delete_app srv req σ).1 in
  (r = None → response_status tr = Some 404) ∧
  (∀ info, r = Some info → AppInfo.allowStop info ≠ Some true →
     response_status tr = Some 405) ∧
  (∀ info, r = Some info → AppInfo.allowStop info = Some true →
     Request.pid req = None ∨ Request.pid req = Some "" →
     response_status tr = Some 400) ∧
  (∀ info stop pid stopped later,
     r = Some info → AppInfo.allowStop info = Some true →
     Request.pid req = Some pid → pid ≠ "" →
     ServerDelegate.stopApp (Server.delegate srv) = Some stop →
     (stop req (Request.appName req) pid σ1).1 = stopped :: later →
     CallStopApp (Request.appName req) pid ∈ tr ∧
     response_status tr = Some (if stopped then 200 else 400)).
Proof.
  intros Hget Hr. unfold delete_app, lookup_app. rewrite Hget, Hr.
  split; [by intros ->|]. split; [|split].
  - intros info -> Hno. by destruct (AppInfo.allowStop info) as [[]|].
  - intros info -> -> Hpid%truthy_ostr_false. by rewrite Hpid.
  - intros info stop pid stopped later -> -> -> Hpid%truthy_str_true -> Hreply.
    cbn [truthy_ostr show_ostr]. rewrite Hpid.
    destruct (stop req (Request.appName req) pid σ1) as [replies σ2].
    cbn [fst] in *. subst replies. split; [set_solver | done].
Qed.

(** C1 at the demo server: first launch of the stopped "YouTube"
    application, the hook completing with the pid "run": the answer is
    201 with the LOCATION of the running instance. *)
Lemma post_app_launch_status_witness :
  let req := demo_request "YouTube" None (Some "v=YE7VzlLtp-4") (Some 13) in
  let tr := (post_app demo_server req demo_apps).1 in
  response_status tr = Some 201 ∧
  response_header "LOCATION" tr = Some "http://192.168.1.20:3000/dial/apps/YouTube/run".
Proof.
  pose proof (post_app_launch_status demo_server
    (demo_request "YouTube" None (Some "v=YE7VzlLtp-4") (Some 13)) demo_apps demo_apps
    {| AppInfo.name := "YouTube"; AppInfo.state := Some "stopped";
       AppInfo.pid := None; AppInfo.allowStop := Some true;
       AppInfo.additionalData := None; AppInfo.namespaces := None |}
    demo_getApp demo_launchApp (Some "run") None [] eq_refl eq_refl
    ltac:(intros n [= <-]; vm_compute; discriminate) eq_refl eq_refl)
    as (Hstate & _ & _ & Hloc & _).
  split.
  - exact (Hstate "stopped" eq_refl ltac:(discriminate)).
  - exact (Hloc "run" eq_refl ltac:(discriminate)).
Defined.

(** C1 once more: a relaunch of the application while it runs under the
    pid "run" is answered 200. *)
Example post_app_relaunch :
  let req := demo_request "X" None None None in
  response_status (post_app demo_server req {[ "X" := scenario_app (Some "42") ]}).1 =
    Some 200.
Proof. vm_compute. reflexivity. Qed.

(** C5 at the demo server: stopping the running "YouTube" under its pid
    is answered 200 after the stop hook was called. *)
Lemma delete_app_status_witness :
  let running : demo_store := (demo_launchApp (demo_request "YouTube" None None None)
                                 "YouTube" None demo_apps).2 in
  let tr := (delete_app demo_server (demo_request "YouTube" (Some "run") None None)
               running).1 in
  CallStopApp "YouTube" "run" ∈ tr ∧ response_status tr = Some 200.
Proof.
  pose proof (delete_app_status demo_server
    (demo_request "YouTube" (Some "run") None None)
    (demo_launchApp (demo_request "YouTube" None None None) "YouTube" None demo_apps).2
    (demo_launchApp (demo_request "YouTube" None None None) "YouTube" None demo_apps).2
    demo_getApp
    (Some {| AppInfo.name := "YouTube"; AppInfo.state := Some "running";
             AppInfo.pid := Some "run"; AppInfo.allowStop := Some true;
             AppInfo.additionalData := None; AppInfo.namespaces := None |})
    eq_refl eq_refl) as (_ & _ & _ & Hstop).
  exact (Hstop _ demo_stopApp "run" true [] eq_refl eq_refl eq_refl ltac:(discriminate)
           eq_refl eq_refl).
Defined.

(** The decision is made from the state read before the launch: after the
    same request the provider reports the application running, and the
    status was 201 all the same; a second launch is answered 200. *)
Example post_app_decides_from_earlier_state :
  let req := demo_request "YouTube" None (Some "v=YE7VzlLtp-4") (Some 13) in
  let '(tr, apps') := post_app demo_server req demo_apps in
  response_status tr = Some 201 ∧
  infer_state <$> (demo_getApp req "YouTube" apps').1 = Some "running" ∧
  response_status (post_app demo_server req apps').1 = Some 200.
Proof. vm_compute. done. Qed.


Example post_app_oversized_unknown :
  (post_app demo_server (demo_request "Netflix" None (Some "x") (Some 5000)) demo_apps).1
  = [CallGetApp "Netflix"; SendStatus 404].
Proof. vm_compute. reflexivity. Qed.

(** The scenario of the spec: no state and no pid reads "stopped"; with the
    pid "42" the state reads "running" and the link is rendered. *)
Example get_app_scenario :
  response_body (get_app demo_server (demo_request "X" None None None)
                   {[ "X" := scenario_app None ]}).1 =
    Some ("<?xml version=" +:+ dq +:+ "1.0" +:+ dq +:+ " encoding=" +:+ dq +:+ "UTF-8" +:+ dq +:+
          "?>" +:+ nl +:+ "<service xmlns=" +:+ dq +:+
          "urn:dial-multiscreen-org:schemas:dial" +:+ dq +:+ " dialVer=" +:+ dq +:+ "1.7" +:+
          dq +:+ ">" +:+ nl +:+ "  <name>X</name>" +:+ nl +:+
          "  <options allowStop=" +:+ dq +:+ "false" +:+ dq +:+ "/>" +:+ nl +:+
          "  <state>stopped</state>" +:+ nl +:+ "</service>" +:+ nl) ∧
  response_body (get_app demo_server (demo_request "X" None None None)
                   {[ "X" := scenario_app (Some "42") ]}).1 =
    Some ("<?xml version=" +:+ dq +:+ "1.0" +:+ dq +:+ " encoding=" +:+ dq +:+ "UTF-8" +:+ dq +:+
          "?>" +:+ nl +:+ "<service xmlns=" +:+ dq +:+
          "urn:dial-multiscreen-org:schemas:dial" +:+ dq +:+ " dialVer=" +:+ dq +:+ "1.7" +:+
          dq +:+ ">" +:+ nl +:+ "  <name>X</name>" +:+ nl +:+
          "  <options allowStop=" +:+ dq +:+ "false" +:+ dq +:+ "/>" +:+ nl +:+
          "  <state>running</state>" +:+ nl +:+
          "  <link rel=" +:+ dq +:+ "run" +:+ dq +:+ " href=" +:+ dq +:+ "42" +:+ dq +:+ " />" +:+
          nl +:+ "</service>" +:+ nl).
Proof. vm_compute. done. Qed.

(** The branches of the DELETE handler at the demo server. *)
Example delete_app_scenario :
  let running : demo_store := (demo_launchApp (demo_request "YouTube" None None None)
                                 "YouTube" None demo_apps).2 in
  (delete_app demo_server (demo_request "YouTube" (Some "run") None None) running).1 =
    [CallGetApp "YouTube"; CallStopApp "YouTube" "run"; SendStatus 200] ∧
  (delete_app demo_server (demo_request "YouTube" (Some "other") None None) running).1 =
    [CallGetApp "YouTube"; CallStopApp "YouTube" "other"; SendStatus 400] ∧
  (delete_app demo_server (demo_request "YouTube" None None None) running).1 =
    [CallGetApp "YouTube"; SendStatus 400] ∧
  (delete_app demo_server (demo_request "X" (Some "42") None None)
     {[ "X" := scenario_app (Some "42") ]}).1 = [CallGetApp "X"; SendStatus 405] ∧
  (delete_app demo_server (demo_request "Netflix" (Some "run") None None) running).1 =
    [CallGetApp "Netflix"; SendStatus 404].
Proof. vm_compute. done. Qed.

(** ** [DialDevice] *)

Lemma encode_code_point_length (cp : N) :
  (1 ≤ List.length (Utf8.encode_code_point cp) ≤ 4)%nat.
Proof.
  unfold Utf8.encode_code_point.
  repeat (match goal with |- context [N.ltb ?a ?b] => destruct (N.ltb a b) end);
    cbn; lia.
Qed.

Lemma encode_ascii_length (cp : N) :
  (cp < 0x80)%N → List.length (Utf8.encode_code_point cp) = 1%nat.
Proof.
  intros Hcp. unfold Utf8.encode_code_point.
  by destruct (N.ltb_spec cp 0x80); [|lia].
Qed.

(** The UTF-8 encoding has at least as many bytes as the string has code
    units: a surrogate pair (two units) takes four bytes, every other unit
    at least one. *)
Lemma encode_length_ge (s : jsstring) :
  (List.length s ≤ List.length (Utf8.encode s))%nat.
Proof.
  unfold Utf8.encode.
  induction s as [s IH] using (well_founded_induction
    (well_founded_ltof _ (@List.length N))). unfold ltof in IH.
  destruct s as [|c rest]; [cbn; lia|].
  cbn [Utf8.code_points].
  destruct (Utf8.is_high_surrogate c) eqn:Hh.
  - destruct rest as [|d rest']; [cbn; lia|].
    destruct (Utf8.is_low_surrogate d) eqn:Hl; cbn [flat_map]; rewrite length_app.
    + specialize (IH rest'). cbn [List.length] in *.
      assert (List.length (Utf8.encode_code_point
                (65536 + (c - 55296) * 1024 + (d - 56320))) = 4%nat) as ->; [|lia].
      unfold Utf8.encode_code_point.
      repeat (match goal with |- context [N.ltb ?a ?b] =>
                destruct (N.ltb_spec a b); [lia|] end). done.
    + specialize (IH (d :: rest')). cbn [List.length] in *.
      change (List.length (Utf8.encode_code_point 65533)) with 3%nat. lia.
  - specialize (IH rest). cbn [List.length] in *.
    destruct (Utf8.is_low_surrogate c) eqn:Hl; cbn [flat_map]; rewrite length_app.
    + change (List.length (Utf8.encode_code_point 65533)) with 3%nat. lia.
    + pose proof (encode_code_point_length c). lia.
Qed.

Lemma Buffer_byteLength_ge_length (s : jsstring) : js_length s ≤ Buffer_byteLength s.
Proof. unfold js_length, Buffer_byteLength. pose proof (encode_length_ge s). lia. Qed.

(** On ASCII text the two lengths agree. *)
Lemma Buffer_byteLength_ascii (s : jsstring) :
  Forall (λ c, (c < 0x80)%N) s → Buffer_byteLength s = js_length s.
Proof.
  unfold js_length, Buffer_byteLength, Utf8.encode. intros Hs. f_equal.
  induction Hs as [|c rest Hc Hrest IH]; [done|].
  cbn [Utf8.code_points].
  assert (Utf8.is_high_surrogate c = false) as ->.
  { unfold Utf8.is_high_surrogate. apply andb_false_iff. left. apply N.leb_gt. lia. }
  assert (Utf8.is_low_surrogate c = false) as ->.
  { unfold Utf8.is_low_surrogate. apply andb_false_iff. left. apply N.leb_gt. lia. }
  cbn [flat_map]. rewrite length_app, encode_ascii_length by done.
  cbn [List.length]. lia.
Qed.

(** A string with a code unit outside ASCII has more bytes than code
    units. *)
Lemma encode_length_gt (s : jsstring) :
  Exists (λ c, (0x80 ≤ c)%N) s → (List.length s < List.length (Utf8.encode s))%nat.
Proof.
  induction s as [|c rest IH]; intros Hex; [by apply Exists_nil in Hex|].
  pose proof (encode_length_ge rest) as Hrest.
  unfold Utf8.encode in *. cbn [Utf8.code_points].
  destruct (Utf8.is_high_surrogate c) eqn:Hh.
  - destruct rest as [|d rest']; [cbn; lia|].
    destruct (Utf8.is_low_surrogate d) eqn:Hl; cbn [flat_map]; rewrite length_app.
    + pose proof (encode_length_ge rest') as Hrest'. unfold Utf8.encode in Hrest'.
      pose proof (encode_code_point_length (65536 + (c - 55296) * 1024 + (d - 56320))).
      assert (List.length (Utf8.encode_code_point
                (65536 + (c - 55296) * 1024 + (d - 56320))) = 4%nat) as ->.
      { unfold Utf8.encode_code_point.
        repeat (match goal with |- context [N.ltb ?a ?b] =>
                  destruct (N.ltb_spec a b); [lia|] end). done. }
      cbn [List.length] in *. lia.
    + change (List.length (Utf8.encode_code_point 65533)) with 3%nat.
      cbn [List.length] in *. lia.
  - destruct (Utf8.is_low_surrogate c) eqn:Hl; cbn [flat_map]; rewrite length_app.
    + change (List.length (Utf8.encode_code_point 65533)) with 3%nat.
      cbn [List.length] in *. lia.
    + cbn [List.length]. apply Exists_cons in Hex as [Hc | Hex].
      * assert (2 ≤ List.length (Utf8.encode_code_point c))%nat; [|lia].
        unfold Utf8.encode_code_point. destruct (N.ltb_spec c 128); [lia|].
        repeat (match goal with |- context [N.ltb ?a ?b] => destruct (N.ltb a b) end);
          cbn; lia.
      * pose proof (encode_code_point_length c). specialize (IH Hex). lia.
Qed.

(** The payload "é€" followed by an emoji (a surrogate pair): four code
    units, nine bytes. *)
Example Buffer_byteLength_multibyte :
  js_length [0xE9; 0x20AC; 0xD83D; 0xDE00]%N = 4 ∧
  Buffer_byteLength [0xE9; 0x20AC; 0xD83D; 0xDE00]%N = 9 ∧
  Utf8.encode [0xE9; 0x20AC; 0xD83D; 0xDE00]%N =
    [0xC3; 0xA9; 0xE2; 0x82; 0xAC; 0xF0; 0x9F; 0x98; 0x80]%N.
Proof. vm_compute. done. Qed.

Lemma app_url_some (dev : DialDevice) (appName url : string) :
  applicationUrl dev = Some url → url ≠ "" → appName ≠ "" →
  app_url dev appName = Some (url +:+ "/" +:+ appName) ∧
  truthy_str (url +:+ "/" +:+ appName) = true.
Proof.
  intros Hurl Hne%truthy_str_true Hname%truthy_str_true.
  unfold app_url. rewrite Hurl. cbn [truthy_ostr show_ostr]. rewrite Hne, Hname.
  split; [done|]. apply truthy_str_true. intros [_ [=]]%append_eq_empty.
Qed.

Lemma app_url_none (dev : DialDevice) (appName : string) :
  truthy_ostr (applicationUrl dev) = false ∨ appName = "" → app_url dev appName = None.
Proof.
  unfold app_url. intros [-> | ->]; [done|]. by rewrite andb_false_r.
Qed.

Lemma stop_url_none (dev : DialDevice) (appName pid : string) :
  truthy_ostr (applicationUrl dev) = false ∨ appName = "" ∨ pid = "" →
  stop_url dev appName pid = None.
Proof.
  unfold stop_url. intros [-> | [-> | ->]]; [done| |].
  - by rewrite andb_false_r.
  - by rewrite andb_false_r.
Qed.

(** C9: [launchApp] with a non-empty application URL and name, the URL
    being one [new URL] accepts, issues one request.  Its CONTENT-TYPE is
    the supplied type, or [text/plain; charset="utf-8"] when none is
    supplied.  Its CONTENT-LENGTH is the number of bytes of the UTF-8
    encoding of the payload (0 for a null or empty payload): the number of
    code units for an ASCII payload, and strictly more than the number of
    code units as soon as the payload has a character outside ASCII.  The
    callback gets the concatenated body when the status is below 400, and
    an error whose code is that status when it is 400 or more. *)
Theorem launchApp_request_and_result (parseURL : string → option URL.t)
  (dev : DialDevice) (appName url : string) (u : URL.t)
  (launchData : option jsstring) (contentType : option string) (answer : HttpOutcome) :
  applicationUrl dev = Some url → url ≠ "" → appName ≠ "" →
  parseURL (url +:+ "/" +:+ appName) = Some u →
  let result := launchApp parseURL dev appName launchData contentType answer in
  ∃ options written,
    request_of result = Some (options, written) ∧
    RequestOptions.method options = "POST" ∧
    (contentType = None ∨ contentType = Some "" →
       RequestOptions.headers options !! "CONTENT-TYPE" =
         Some (VStr ("text/plain; charset=" +:+
                     String (Ascii.ascii_of_nat 34) ("utf-8" +:+
                     String (Ascii.ascii_of_nat 34) "")))) ∧
    (∀ ct, contentType = Some ct → ct ≠ "" →
       RequestOptions.headers options !! "CONTENT-TYPE" = Some (VStr ct)) ∧
    (∀ payload, launchData = Some payload →
       RequestOptions.headers options !! "CONTENT-LENGTH" =
         Some (VNum (Z.of_nat (List.length (Utf8.encode payload)))) ∧
       (Forall (λ c, (c < 0x80)%N) payload →
          Z.of_nat (List.length (Utf8.encode payload)) = js_length payload) ∧
       (Exists (λ c, (0x80 ≤ c)%N) payload →
          js_length payload < Z.of_nat (List.length (Utf8.encode payload)))) ∧
    (launchData = None ∨ launchData = Some [] →
       RequestOptions.headers options !! "CONTENT-LENGTH" = Some (VNum 0)) ∧
    (∀ statusCode chunks, answer = Responded statusCode chunks →
       (statusCode < 400 →
          callbacks result = [(Some (String.concat "" chunks), None)]) ∧
       (400 ≤ statusCode →
          ∃ err, callbacks result = [(None, Some err)] ∧
                 code err = Some (pretty statusCode))).
Proof.
  intros Hurl Hne Hname Hparse result. subst result.
  destruct (app_url_some dev appName url Hurl Hne Hname) as [Happ Htruthy].
  unfold launchApp. rewrite Happ, Htruthy, Hparse. cbn [negb request_of].
  eexists _, _. split; [reflexivity|]. cbn [RequestOptions.method RequestOptions.headers].
  split; [done|]. split; [by intros [-> | ->]|]. split.
  { intros ct -> Hct%truthy_str_true. rewrite lookup_insert_eq.
    cbn [truthy_ostr show_ostr]. by rewrite Hct. }
  split.
  { intros payload ->. split; [|split].
    - rewrite lookup_insert_ne by done. rewrite lookup_insert_eq.
      destruct payload; [|done]. done.
    - apply Buffer_byteLength_ascii.
    - intros Hex%encode_length_gt. unfold js_length. lia. }
  split.
  { intros [-> | ->]; rewrite lookup_insert_ne by done; by rewrite lookup_insert_eq. }
  intros statusCode chunks ->. cbn [callbacks flat_map app]. split.
  - intros Hlt. destruct (Z.leb_spec 400 statusCode); [lia|]. done.
  - intros Hge. destruct (Z.leb_spec 400 statusCode); [|lia]. eexists. split; done.
Qed.

(** C9 at the demo device: the payload "é€" and an emoji (four code
    units), no content type, the receiver answering 201 with an empty
    body: the request declares nine bytes. *)
Lemma launchApp_request_and_result_witness :
  let payload := [0xE9; 0x20AC; 0xD83D; 0xDE00]%N in
  let result := launchApp demo_parseURL demo_device "YouTube" (Some payload) None
                  (Responded 201 []) in
  js_length payload = 4 ∧
  ∃ options written,
    request_of result = Some (options, written) ∧
    RequestOptions.headers options !! "CONTENT-TYPE" =
      Some (VStr ("text/plain; charset=" +:+
                  String (Ascii.ascii_of_nat 34) ("utf-8" +:+
                  String (Ascii.ascii_of_nat 34) ""))) ∧
    RequestOptions.headers options !! "CONTENT-LENGTH" = Some (VNum 9) ∧
    callbacks result = [(Some "", None)].
Proof.
  split; [reflexivity|].
  destruct (launchApp_request_and_result demo_parseURL demo_device "YouTube"
           "http://192.168.1.20:3000/dial/apps"
           {| URL.href := "http://192.168.1.20:3000/dial/apps/YouTube";
              URL.protocol := "http:";
              URL.hostname := "192.168.1.20"; URL.port := "3000";
              URL.pathname := "/dial/apps/YouTube"; URL.search := "" |}
           (Some [0xE9; 0x20AC; 0xD83D; 0xDE00]%N) None (Responded 201 [])
           eq_refl ltac:(discriminate) ltac:(discriminate) eq_refl)
    as (options & written & Hreq & _ & Htype & _ & Hlen & _ & Hres).
  exists options, written. split; [exact Hreq|].
  split; [exact (Htype (or_introl eq_refl))|].
  split; [exact (proj1 (Hlen _ eq_refl))|].
  exact (proj1 (Hres 201 [] eq_refl) ltac:(lia)).
Defined.

Example launchApp_multibyte_request :
  request_of (launchApp demo_parseURL demo_device "YouTube"
                (Some [0xE9; 0x20AC; 0xD83D; 0xDE00]%N) None (Responded 404 ["Not "; "Found"]))
  = Some ({| RequestOptions.host := "192.168.1.20"; RequestOptions.port := "3000";
             RequestOptions.path := "/dial/apps/YouTube"; RequestOptions.method := "POST";
             RequestOptions.headers :=
               <["CONTENT-TYPE" := VStr DEFAULT_CONTENT_TYPE]>
               (<["CONTENT-LENGTH" := VNum 9]> ∅) |},
          Some [0xE9; 0x20AC; 0xD83D; 0xDE00]%N) ∧
  callbacks (launchApp demo_parseURL demo_device "YouTube"
               (Some [0xE9; 0x20AC; 0xD83D; 0xDE00]%N) None (Responded 404 ["Not "; "Found"]))
  = [(None, Some {| message :=
                      "Cannot get app info from http://192.168.1.20:3000/dial/apps/YouTube";
                    code := Some "404" |})].
Proof. vm_compute. done. Qed.

(** C10: when the application URL is absent (or empty) or the name is
    empty, [getAppInfoXml] and [launchApp] call back once, with a null
    result and an error, and issue no request; [stopApp] does the same,
    also when the pid is empty. *)
Theorem device_calls_reject_missing_arguments (parseURL : string → option URL.t)
  (dev : DialDevice) (appName pid : string) (launchData : option jsstring)
  (contentType : option string) (answer : HttpOutcome) :
  (truthy_ostr (applicationUrl dev) = false ∨ appName = "" →
     (∃ err, getAppInfoXml parseURL dev appName answer = Ran [Callback None (Some err)]) ∧
     callbacks (getAppInfoXml parseURL dev appName answer)
       = [(None, Some (mkError
            "DIAL appName and DIAL Application-URL cannot be empty for getAppInfo"))] ∧
     http_issued (getAppInfoXml parseURL dev appName answer) = false ∧
     (∃ err, launchApp parseURL dev appName launchData contentType answer
               = Ran [Callback None (Some err)]) ∧
     callbacks (launchApp parseURL dev appName launchData contentType answer)
       = [(None, Some (mkError
            "DIAL appName and DIAL Application-URL cannot be empty for launchApp"))] ∧
     http_issued (launchApp parseURL dev appName launchData contentType answer) = false) ∧
  (truthy_ostr (applicationUrl dev) = false ∨ appName = "" ∨ pid = "" →
     (∃ err, stopApp parseURL dev appName pid answer = Ran [Callback None (Some err)]) ∧
     callbacks (stopApp parseURL dev appName pid answer)
       = [(None, Some (mkError
            "DIAL appName, pid and DIAL Application-URL cannot be empty for stopApp"))] ∧
     http_issued (stopApp parseURL dev appName pid answer) = false).
Proof.
  split.
  - intros H%app_url_none. unfold getAppInfoXml, launchApp. rewrite H.
    repeat split; eauto.
  - intros H%stop_url_none. unfold stopApp. rewrite H. repeat split; eauto.
Qed.

Example device_calls_reject_missing_arguments_example :
  let nourl := {| descriptionUrl := None; applicationUrl := None; deviceType := None;
                  friendlyName := None; manufacturer := None; modelName := None;
                  UDN := None |} in
  launchApp demo_parseURL nourl "YouTube" None None (Responded 201 [])
    = Ran [Callback None (Some (mkError
        "DIAL appName and DIAL Application-URL cannot be empty for launchApp"))] ∧
  getAppInfoXml demo_parseURL demo_device "" (Responded 200 [])
    = Ran [Callback None (Some (mkError
        "DIAL appName and DIAL Application-URL cannot be empty for getAppInfo"))] ∧
  stopApp demo_parseURL demo_device "YouTube" "" (Responded 200 [])
    = Ran [Callback None (Some (mkError
        "DIAL appName, pid and DIAL Application-URL cannot be empty for stopApp"))].
Proof. vm_compute. done. Qed.

(** ** [Client] *)

Lemma tracked_spec (nt : option string) :
  Client.tracked nt = true ↔ nt = Some DIAL_SERVICE ∨ nt = Some DIAL_DEVICE.
Proof.
  unfold Client.tracked, Client.serviceTypes. destruct nt as [s|].
  - rewrite andb_true_iff, bool_decide_eq_true, truthy_str_true.
    rewrite !elem_of_cons, elem_of_nil. split.
    + intros [_ [->|[->|[]]]]; eauto.
    + intros [[= ->]|[= ->]]; (split; [done|]); eauto.
  - split; [done | intros [|]; done].
Qed.

Lemma read_service_none (c : Client.t) (loc : string) :
  Client.read_service c loc = None ↔ Client.services c !! loc = None ∧ inherited loc = false.
Proof.
  unfold Client.read_service. destruct (Client.services c !! loc); [by split; [|intros []]|].
  destruct (inherited loc); by split; [|intros []].
Qed.

Lemma read_service_plain (c : Client.t) (loc : string) :
  inherited loc = false →
  Client.read_service c loc = Client.Stored <$> Client.services c !! loc.
Proof. unfold Client.read_service. intros ->. by destruct (Client.services c !! loc). Qed.

(** For a location that is not the name of a prototype member, the
    handlers' test is the test of the own entries. *)
Lemma plain_unseen (c : Client.t) (h : SsdpHeaders) :
  plain_location h = true → ∀ loc, unseen_location c h loc ↔ fresh_location c h loc.
Proof.
  unfold plain_location, unseen_location, fresh_location. intros Hplain loc.
  rewrite read_service_none. split; [by intros (Hloc & Hne & Hnone & _)|].
  intros (Hloc & Hne & Hnone). rewrite Hloc in Hplain.
  apply negb_true_iff in Hplain. done.
Qed.

(** Closes "no location is unseen" from the facts in the context. *)
Ltac not_unseen :=
  try right; intros ? (Hfresh & ? & ?); simplify_eq; congruence.

Lemma on_found_cases (h : SsdpHeaders) (c : Client.t) :
  (∃ loc, unseen_location c h loc ∧ records (Client.PeerFound h) c loc h) ∨
  ((∀ loc, ¬ unseen_location c h loc) ∧ ignored (Client.PeerFound h) c).
Proof.
  unfold unseen_location, records, ignored. cbn [Client.step]. unfold Client.on_found.
  destruct (h !! "LOCATION") as [loc|] eqn:Hloc; [|right; split; [not_unseen | done]].
  destruct (truthy_str loc) eqn:Ht; cbn [andb].
  - apply truthy_str_true in Ht.
    destruct (Client.read_service c loc) as [old|] eqn:Hold.
    + rewrite bool_decide_eq_true_2 by eauto. cbn. right. split; [not_unseen | done].
    + rewrite bool_decide_eq_false_2 by (intros [? [=]]). cbn. left. eauto.
  - apply truthy_str_false in Ht. right. split; [not_unseen | done].
Qed.

Lemma on_notify_untracked (h : SsdpHeaders) (c : Client.t) :
  Client.tracked (h !! "NT") = false → ignored (Client.PeerNotify h) c.
Proof. unfold ignored. cbn [Client.step]. unfold Client.on_notify. by intros ->. Qed.

Lemma on_notify_alive_cases (h : SsdpHeaders) (c : Client.t) :
  h !! "NTS" = Some "ssdp:alive" →
  (∃ loc, Client.tracked (h !! "NT") = true ∧ unseen_location c h loc ∧
          records (Client.PeerNotify h) c loc h) ∨
  ((Client.tracked (h !! "NT") = false ∨ ∀ loc, ¬ unseen_location c h loc) ∧
   ignored (Client.PeerNotify h) c).
Proof.
  intros Hnts.
  destruct (Client.tracked (h !! "NT")) eqn:Hnt;
    [|right; split; [by left | by apply on_notify_untracked]].
  unfold unseen_location, records, ignored. cbn [Client.step]. unfold Client.on_notify.
  rewrite Hnt, Hnts.
  destruct (h !! "LOCATION") as [loc|] eqn:Hloc; [|right; split; [not_unseen | done]].
  rewrite (bool_decide_eq_true_2 _ eq_refl), andb_true_r.
  rewrite (bool_decide_eq_false_2 (Some "ssdp:alive" = Some "ssdp:byebye")) by done.
  rewrite andb_false_r.
  destruct (truthy_str loc) eqn:Ht; cbn [andb].
  - apply truthy_str_true in Ht.
    destruct (Client.read_service c loc) as [old|] eqn:Hold.
    + rewrite bool_decide_eq_true_2 by eauto. cbn. right. split; [not_unseen | done].
    + rewrite bool_decide_eq_false_2 by (intros [? [=]]). cbn. left.
      exists loc. repeat split; done.
  - apply truthy_str_false in Ht. right.
    split; [not_unseen | by destruct (Client.read_service c loc)].
Qed.

Lemma step_result_inj (e : Client.Event) (c : Client.t) (loc loc' : string)
  (h h' : SsdpHeaders) :
  records e c loc h → records e c loc' h' → loc = loc' ∧ h = h'.
Proof. unfold records. intros -> [= -> ->]. done. Qed.

(** C7, as stated, fails for "found" events: the handler does not look at
    the announced type.  A search reply announcing [upnp:rootdevice] is
    recorded and emitted. *)
Lemma found_event_records_untracked_type :
  let h : SsdpHeaders :=
    {[ "LOCATION" := "http://192.168.1.7:49152/description.xml";
       "ST" := "upnp:rootdevice" ]} in
  Client.tracked (h !! "ST") = false ∧ Client.tracked (h !! "NT") = false ∧
  Client.services Client.new !! "http://192.168.1.7:49152/description.xml" = None ∧
  Client.step (Client.PeerFound h) Client.new =
    ([Client.EmitFound "http://192.168.1.7:49152/description.xml" h],
     {| Client.services := {[ "http://192.168.1.7:49152/description.xml" := h ]} |}).
Proof. vm_compute. done. Qed.

(** The two recording handlers, by their own test. *)
Lemma client_records_unseen (c : Client.t) (h : SsdpHeaders) :
  (∀ loc, records (Client.PeerFound h) c loc h ↔ unseen_location c h loc) ∧
  ((∀ loc, ¬ unseen_location c h loc) → ignored (Client.PeerFound h) c) ∧
  (h !! "NTS" = Some "ssdp:alive" →
     (∀ loc, records (Client.PeerNotify h) c loc h ↔
             (h !! "NT" = Some DIAL_SERVICE ∨ h !! "NT" = Some DIAL_DEVICE) ∧
             unseen_location c h loc) ∧
     (¬ (h !! "NT" = Some DIAL_SERVICE ∨ h !! "NT" = Some DIAL_DEVICE) ∨
      (∀ loc, ¬ unseen_location c h loc) → ignored (Client.PeerNotify h) c)).
Proof.
  split; [|split].
  - intros loc. destruct (on_found_cases h c) as [(l & Hf & Hr) | [Hno Hi]].
    + split.
      * intros Hr'. by destruct (step_result_inj _ _ _ _ _ _ Hr Hr') as [<- _].
      * intros Hf'. destruct Hf as (Hl & _), Hf' as (Hl' & _). congruence.
    + split; [|by intros ?%Hno].
      unfold records, ignored in *. rewrite Hi. discriminate.
  - intros Hno. destruct (on_found_cases h c) as [(l & Hf & _) | [_ Hi]]; [|done].
    by apply Hno in Hf.
  - intros Hnts. pose proof (tracked_spec (h !! "NT")) as Hspec.
    destruct (on_notify_alive_cases h c Hnts) as [(l & Ht & Hf & Hr) | [Hno Hi]].
    + split.
      * intros loc. split.
        -- intros Hr'. destruct (step_result_inj _ _ _ _ _ _ Hr Hr') as [<- _].
           split; [by apply Hspec | done].
        -- intros [_ Hf']. destruct Hf as (Hl & _), Hf' as (Hl' & _). congruence.
      * intros [Hn | Hn]; [by apply Hspec in Ht | by apply Hn in Hf].
    + split; [|done]. intros loc. split.
      * unfold records, ignored in *. rewrite Hi. discriminate.
      * intros [Ht%Hspec Hf]. destruct Hno as [Hn | Hn]; [congruence | by apply Hn in Hf].
Qed.

(** C7 (amended), for headers whose location is not the name of a member
    of [Object.prototype]: a "found" event records its location and emits
    "found" with the location and the headers exactly when the location is
    non-empty and not recorded yet, whatever type it announces; a notify
    with NTS [ssdp:alive] does so exactly when, in addition, its NT is one
    of the two tracked types.  In every other case the event changes
    nothing and emits nothing. *)
Theorem client_records_fresh_locations (c : Client.t) (h : SsdpHeaders) :
  plain_location h = true →
  (∀ loc, records (Client.PeerFound h) c loc h ↔ fresh_location c h loc) ∧
  ((∀ loc, ¬ fresh_location c h loc) → ignored (Client.PeerFound h) c) ∧
  (h !! "NTS" = Some "ssdp:alive" →
     (∀ loc, records (Client.PeerNotify h) c loc h ↔
             (h !! "NT" = Some DIAL_SERVICE ∨ h !! "NT" = Some DIAL_DEVICE) ∧
             fresh_location c h loc) ∧
     (¬ (h !! "NT" = Some DIAL_SERVICE ∨ h !! "NT" = Some DIAL_DEVICE) ∨
      (∀ loc, ¬ fresh_location c h loc) → ignored (Client.PeerNotify h) c)).
Proof.
  intros Hplain. pose proof (plain_unseen c h Hplain) as Hiff.
  destruct (client_records_unseen c h) as (Hfound & Hnofound & Hnotify).
  split; [|split].
  - intros loc. by rewrite <- Hiff.
  - intros Hno. apply Hnofound. intros loc. by rewrite Hiff.
  - intros Hnts. destruct (Hnotify Hnts) as [Hrec Hign]. split.
    + intros loc. by rewrite <- Hiff.
    + intros [Hnt | Hno]; apply Hign; [by left | right].
      intros loc. by rewrite Hiff.
Qed.

(** C7 (amended) at an empty client: an alive notification of the DIAL
    service is recorded and announced. *)
Lemma client_records_fresh_locations_witness :
  let loc := "http://192.168.1.20:3000/dial/ssdp/device-desc.xml" in
  let h : SsdpHeaders := {[ "LOCATION" := loc; "NT" := DIAL_SERVICE; "NTS" := "ssdp:alive" ]} in
  Client.step (Client.PeerNotify h) Client.new =
    ([Client.EmitFound loc h], {| Client.services := <[loc := h]> ∅ |}).
Proof.
  pose proof (client_records_fresh_locations Client.new
    {[ "LOCATION" := "http://192.168.1.20:3000/dial/ssdp/device-desc.xml";
       "NT" := DIAL_SERVICE; "NTS" := "ssdp:alive" ]} eq_refl) as (_ & _ & Hnotify).
  destruct (Hnotify eq_refl) as [Hrec _].
  apply Hrec. split; [by left|]. split; [reflexivity|]. split; [discriminate | reflexivity].
Defined.

(** What a notify can do: nothing, record a location under which nothing
    was read, or drop a location, handing out what was read under it. *)
Lemma on_notify_cases (h : SsdpHeaders) (c : Client.t) :
  Client.on_notify h c = ([], c) ∨
  (∃ loc, h !! "LOCATION" = Some loc ∧ Client.read_service c loc = None ∧
     Client.on_notify h c =
       ([Client.EmitFound loc h], {| Client.services := <[loc := h]> (Client.services c) |})) ∨
  (∃ loc service, h !! "LOCATION" = Some loc ∧ Client.read_service c loc = Some service ∧
     Client.on_notify h c =
       ([Client.EmitDisappear loc service],
        {| Client.services := delete loc (Client.services c) |})).
Proof.
  unfold Client.on_notify.
  destruct (Client.tracked (h !! "NT")); [|by left].
  destruct (h !! "LOCATION") as [loc|]; [|by left].
  destruct (Client.read_service c loc) as [service|] eqn:Hloc.
  - rewrite (bool_decide_eq_true_2 (is_Some (Some service))) by eauto.
    cbn [negb]. rewrite andb_false_r.
    destruct (truthy_str loc && bool_decide (h !! "NTS" = Some "ssdp:byebye"));
      [right; right; eauto | by left].
  - rewrite (bool_decide_eq_false_2 (is_Some (@None Client.Service))) by (intros [? [=]]).
    cbn [negb]. rewrite andb_true_r.
    destruct (truthy_str loc && bool_decide (h !! "NTS" = Some "ssdp:alive"));
      [right; left; eauto | by left].
Qed.

(** The same for a location that is not the name of a prototype member:
    what is dropped is a recorded location, and what is handed out are the
    headers stored for it. *)
Lemma on_notify_plain_cases (h : SsdpHeaders) (c : Client.t) :
  plain_location h = true →
  Client.on_notify h c = ([], c) ∨
  (∃ loc, h !! "LOCATION" = Some loc ∧ Client.services c !! loc = None ∧
     Client.on_notify h c =
       ([Client.EmitFound loc h], {| Client.services := <[loc := h]> (Client.services c) |})) ∨
  (∃ loc stored, h !! "LOCATION" = Some loc ∧ Client.services c !! loc = Some stored ∧
     Client.on_notify h c =
       ([Client.EmitDisappear loc (Client.Stored stored)],
        {| Client.services := delete loc (Client.services c) |})).
Proof.
  unfold plain_location. intros Hplain.
  destruct (on_notify_cases h c)
    as [Hn | [(loc & Hloc & Hread & Hn) | (loc & service & Hloc & Hread & Hn)]].
  - by left.
  - right; left. apply read_service_none in Hread as [Hnone _]. eauto.
  - right; right. rewrite Hloc in Hplain. apply negb_true_iff in Hplain.
    rewrite read_service_plain in Hread by done.
    destruct (Client.services c !! loc) as [stored|] eqn:Hs; [|done].
    injection Hread as <-. eauto 6.
Qed.

(** One step, seen by the monitor: apart from [refresh()], the locations
    known to the monitor stay those the client has recorded. *)
Lemma step_observed (e : Client.Event) (c : Client.t) :
  plain_event e = true →
  is_refresh e = false →
  observe_all (Client.services c) (Client.step e c).1 =
    Some (Client.services (Client.step e c).2).
Proof.
  destruct e as [|h|h| | | |]; try done; intros Hplain _; cbn [Client.step plain_event] in *.
  - destruct (on_found_cases h c) as [(loc & (_ & _ & Hnone) & Hr) | [_ Hi]].
    + apply read_service_none in Hnone as [Hnone _].
      unfold records in Hr. cbn [Client.step] in Hr. rewrite Hr. cbn. by rewrite Hnone.
    + unfold ignored in Hi. cbn [Client.step] in Hi. by rewrite Hi.
  - destruct (on_notify_plain_cases h c Hplain)
      as [-> | [(loc & _ & Hnone & ->) | (loc & stored & _ & Hs & ->)]].
    + done.
    + cbn. by rewrite Hnone.
    + cbn. by rewrite bool_decide_eq_true_2.
Qed.

Lemma run_monitored (refresh_clears : bool) (es : list Client.Event) (c : Client.t) :
  Forall (λ e, plain_event e = true) es →
  refresh_clears = true ∨ Forall (λ e, is_refresh e = false) es →
  monitor refresh_clears (Client.services c) (Client.run es c).1 = true.
Proof.
  revert c. induction es as [|e es IH]; intros c Hplain Hok; [done|].
  apply Forall_cons in Hplain as [He_plain Hplain].
  cbn [Client.run].
  destruct (Client.step e c) as [acts c1] eqn:Hstep.
  specialize (IH c1 Hplain).
  destruct (Client.run es c1) as [log c2]. cbn [fst monitor] in *.
  destruct (is_refresh e) eqn:He.
  - destruct e; try discriminate. cbn in Hstep. injection Hstep as <- <-. cbn.
    destruct Hok as [-> | Hall]; [|by apply Forall_cons in Hall as [[=] _]].
    apply IH. by left.
  - pose proof (step_observed e c He_plain He) as Hobs. rewrite Hstep in Hobs. cbn in Hobs.
    rewrite Hobs, andb_false_r. apply IH.
    destruct Hok as [-> | Hall]; [by left | right]. by apply Forall_cons in Hall as [_ ?].
Qed.

(** C8, as stated, fails: [refresh()] forgets the recorded locations
    without emitting "disappear", so the same advertisement is announced
    again.  Between the two "found" for the location there is no
    "disappear". *)
Lemma refresh_lets_found_repeat :
  let loc := "http://192.168.1.20:3000/dial/ssdp/device-desc.xml" in
  let h : SsdpHeaders := {[ "LOCATION" := loc; "ST" := DIAL_SERVICE ]} in
  let log := (Client.run [Client.PeerFound h; Client.Refresh; Client.PeerFound h]
                Client.new).1 in
  Client.actions log =
    [Client.EmitFound loc h; Client.Search DIAL_DEVICE; Client.Search DIAL_SERVICE;
     Client.EmitFound loc h] ∧
  monitor false ∅ log = false.
Proof. vm_compute. done. Qed.

(** C8 (amended), for events whose location is not the name of a member
    of [Object.prototype]: in every run of the client, "found" is emitted
    for a location only when none was emitted for it since the last
    "disappear" for that location or the last [refresh()], whichever came
    later; without [refresh()] calls, at most once until a "disappear" for
    that location.  "disappear" is emitted only for a recorded location,
    carries the headers stored when it was recorded, and removes the
    entry.  A byebye whose type is not tracked or whose location is not
    recorded emits nothing and changes nothing. *)
Theorem client_found_until_disappear (es : list Client.Event) (c : Client.t) :
  Forall (λ e, plain_event e = true) es →
  monitor true (Client.services c) (Client.run es c).1 = true ∧
  (Forall (λ e, is_refresh e = false) es →
     monitor false (Client.services c) (Client.run es c).1 = true) ∧
  (∀ h loc service acts c',
     plain_location h = true →
     Client.step (Client.PeerNotify h) c = (acts, c') →
     Client.EmitDisappear loc service ∈ acts →
     ∃ stored, service = Client.Stored stored ∧
       Client.services c !! loc = Some stored ∧
       acts = [Client.EmitDisappear loc (Client.Stored stored)] ∧
       Client.services c' = delete loc (Client.services c)) ∧
  (∀ h, h !! "NTS" = Some "ssdp:byebye" →
     Client.tracked (h !! "NT") = false ∨
     (plain_location h = true ∧
      ∀ loc, h !! "LOCATION" = Some loc → Client.services c !! loc = None) →
     ignored (Client.PeerNotify h) c).
Proof.
  intros Hplain.
  split; [apply run_monitored; [done | by left]|].
  split; [intros Hall; apply run_monitored; [done | by right]|].
  split.
  - intros h loc service acts c' Hh. cbn [Client.step].
    destruct (on_notify_plain_cases h c Hh)
      as [-> | [(l & _ & Hnone & ->) | (l & s & _ & Hs & ->)]].
    + intros [= <- <-]. by intros ?%elem_of_nil.
    + intros [= <- <-]. intros Hin%list_elem_of_singleton. discriminate.
    + intros [= <- <-]. intros [= -> ->]%list_elem_of_singleton. eauto.
  - intros h Hnts [Hnt | [Hh Hloc]]; [by apply on_notify_untracked|].
    unfold ignored. cbn [Client.step].
    destruct (on_notify_plain_cases h c Hh)
      as [-> | [(l & Hl & Hnone & Hn) | (l & s & Hl & Hs & Hn)]]; [done| |].
    + exfalso. revert Hn. unfold Client.on_notify. rewrite Hnts, Hl.
      rewrite (bool_decide_eq_false_2 (Some "ssdp:byebye" = Some "ssdp:alive")) by done.
      rewrite andb_false_r. cbn [andb].
      destruct (Client.tracked (h !! "NT")); [|discriminate].
      destruct (Client.read_service c l); [|discriminate].
      destruct (truthy_str l && bool_decide (Some "ssdp:byebye" = Some "ssdp:byebye"));
        discriminate.
    + rewrite (Hloc l Hl) in Hs. discriminate.
Qed.

(** C8 (amended) on a device that comes, is announced again, goes, is
    withdrawn again and comes back. *)
Lemma client_found_until_disappear_witness :
  let loc := "http://192.168.1.20:3000/dial/ssdp/device-desc.xml" in
  let alive : SsdpHeaders :=
    {[ "LOCATION" := loc; "NT" := DIAL_DEVICE; "NTS" := "ssdp:alive" ]} in
  let byebye : SsdpHeaders :=
    {[ "LOCATION" := loc; "NT" := DIAL_DEVICE; "NTS" := "ssdp:byebye" ]} in
  let es := [Client.PeerNotify alive; Client.PeerNotify alive; Client.PeerNotify byebye;
             Client.PeerNotify byebye; Client.PeerNotify alive] in
  monitor true ∅ (Client.run es Client.new).1 = true ∧
  monitor false ∅ (Client.run es Client.new).1 = true.
Proof.
  intros loc alive byebye es.
  assert (Hplain : Forall (λ e, plain_event e = true) es)
    by (repeat (apply List.Forall_cons; [reflexivity|]); apply List.Forall_nil).
  assert (Hrefresh : Forall (λ e, is_refresh e = false) es)
    by (repeat (apply List.Forall_cons; [reflexivity|]); apply List.Forall_nil).
  destruct (client_found_until_disappear es Client.new Hplain) as (H1 & H2 & _).
  exact (conj H1 (H2 Hrefresh)).
Defined.

(** A device that comes, goes and comes back: each "found" is matched by
    the "disappear" that carries the headers of the announcement. *)
Example client_found_disappear_found :
  let loc := "http://192.168.1.20:3000/dial/ssdp/device-desc.xml" in
  let alive : SsdpHeaders :=
    {[ "LOCATION" := loc; "NT" := DIAL_DEVICE; "NTS" := "ssdp:alive" ]} in
  let byebye : SsdpHeaders :=
    {[ "LOCATION" := loc; "NT" := DIAL_DEVICE; "NTS" := "ssdp:byebye" ]} in
  Client.actions
    (Client.run [Client.PeerNotify alive; Client.PeerNotify alive; Client.PeerNotify byebye;
                 Client.PeerNotify byebye; Client.PeerNotify alive] Client.new).1 =
    [Client.EmitFound loc alive; Client.EmitDisappear loc (Client.Stored alive);
     Client.EmitFound loc alive].
Proof. vm_compute. done. Qed.

(** * Further properties *)

(** ** [merge] and [getExtraHeaders] *)

(** X1: the keys of the merged object are the keys of the first object
    together with the keys of the second, [__proto__] apart: a
    [__proto__] key of the second object creates no property in a first
    object that has none of that name (the assignment runs the inherited
    setter).  No other key is dropped and none is invented. *)
Theorem merge_dom (obj1 obj2 : headers) :
  dom (merge obj1 obj2) = dom obj1 ∪ (dom obj2 ∖ {["__proto__"]}).
Proof.
  apply set_eq. intros k.
  rewrite elem_of_union, elem_of_difference, not_elem_of_singleton, !elem_of_dom,
    merge_lookup.
  unfold hits_setter. destruct (obj2 !! k) as [v2|].
  - case_bool_decide as Hk; cbn [andb].
    + case_bool_decide as Hnone.
      * rewrite Hnone. split; [by intros [? [=]] | ].
        intros [[? [=]] | [_ ?]]. done.
      * split; [intros _; left | eauto]. by destruct (obj1 !! k); [eauto|].
    + split; [intros _; right; eauto | eauto].
  - split; [by left | by intros [? | [[? [=]] _]]].
Qed.

Lemma or_read_twice (a : option value) (v2 : value) :
  or_read (Some (or_read a v2)) v2 = or_read a v2.
Proof.
  destruct a as [v|]; simpl.
  - destruct (truthy v) eqn:Hv; [by rewrite Hv | by destruct (truthy v2)].
  - by destruct (truthy v2).
Qed.

(** X2: merging the same object a second time changes nothing; merging
    an empty object changes nothing; merging into an empty object copies
    every entry whose key is not the name of a member of
    [Object.prototype], and puts that member under every other key but
    [__proto__], which it leaves out. *)
Theorem merge_idempotent (obj1 obj2 : headers) :
  merge (merge obj1 obj2) obj2 = merge obj1 obj2 ∧
  merge obj1 ∅ = obj1 ∧
  (∀ k, inherited k = false → merge ∅ obj2 !! k = obj2 !! k) ∧
  (∀ k, inherited k = true → k ≠ "__proto__" → is_Some (obj2 !! k) →
     merge ∅ obj2 !! k = Some (VInherited k)) ∧
  merge ∅ obj2 !! "__proto__" = None.
Proof.
  split; [|split; [|split; [|split]]].
  - apply map_eq; intros k. rewrite merge_lookup.
    destruct (obj2 !! k) as [v2|] eqn:Hk2; [|done].
    pose proof (merge_lookup obj1 obj2 k) as Hm. rewrite Hk2 in Hm.
    unfold hits_setter at 1. unfold get_prop at 1. rewrite Hm.
    destruct (hits_setter obj1 k) eqn:Hs.
    + apply andb_true_iff in Hs as [Hk _]. rewrite Hk.
      by rewrite (bool_decide_eq_true_2 (@None value = None)).
    + rewrite (bool_decide_eq_false_2 (Some _ = None)) by done.
      rewrite andb_false_r. f_equal. apply or_read_twice.
  - apply map_eq; intros k; rewrite merge_lookup. by rewrite lookup_empty.
  - intros k Hk. rewrite merge_lookup. destruct (obj2 !! k) as [v2|]; [|done].
    unfold hits_setter, get_prop. rewrite lookup_empty, Hk.
    rewrite bool_decide_eq_false_2; [done|]. by intros ->.
  - intros k Hk Hne [v2 H2]. rewrite merge_lookup, H2.
    unfold hits_setter, get_prop. rewrite lookup_empty, Hk.
    by rewrite bool_decide_eq_false_2.
  - rewrite merge_lookup. destruct (obj2 !! "__proto__"); [done | by rewrite lookup_empty].
Qed.

Lemma getExtraHeaders_lookup (dict : headers) (k : string) (v : value) :
  getExtraHeaders (Some dict) !! k = Some v ↔
  dict !! k = Some v ∧ is_header_value v = true ∧ k ≠ "__proto__".
Proof.
  unfold getExtraHeaders. revert k v.
  apply (map_fold_weak_ind
    (λ acc m, ∀ k v, acc !! k = Some v ↔
                     m !! k = Some v ∧ is_header_value v = true ∧ k ≠ "__proto__")).
  - intros k v. rewrite !lookup_empty. by split; [|intros []].
  - intros i x m acc Hi IH k v.
    assert (Hacc : acc !! i = None).
    { destruct (acc !! i) as [w|] eqn:Hw; [|done].
      apply IH in Hw as [Hw _]. congruence. }
    unfold extra_step. destruct (is_header_value x) eqn:Hx.
    + rewrite lookup_set_prop. unfold hits_setter. rewrite Hacc.
      rewrite (bool_decide_eq_true_2 (@None value = None)) by done. rewrite andb_true_r.
      destruct (decide (i = k)) as [->|Hne].
      * rewrite lookup_insert_eq. case_bool_decide as Hk.
        -- split; [done | by intros (_ & _ & ?)].
        -- split; [by intros [= <-] | by intros ([= <-] & _)].
      * rewrite lookup_insert_ne by done. apply IH.
    + destruct (decide (i = k)) as [->|Hne].
      * rewrite lookup_insert_eq, Hacc. split; [done|]. intros ([= <-] & Hv & _). congruence.
      * rewrite lookup_insert_ne by done. apply IH.
Qed.

Lemma advert_base_dom {Store} (srv : Server.t Store) (os : Os) (st k : string) :
  is_Some (advert_base srv os st !! k) ↔ k ∈ ADVERT_KEYS.
Proof.
  unfold advert_base, ADVERT_KEYS. rewrite !lookup_insert_is_Some, lookup_empty.
  rewrite !elem_of_cons, elem_of_nil. split.
  - intros [->|[_ [->|[_ [->|[_ [->|[_ [? [=]]]]]]]]]]; eauto 6.
  - intros [->|[->|[->|[->|[]]]]].
    + by left.
    + right. split; [done|]. by left.
    + right. split; [done|]. right. split; [done|]. by left.
    + right. split; [done|]. right. split; [done|]. right. split; [done|]. by left.
Qed.

Lemma reply_base_dom {Store} (srv : Server.t Store) (os : Os) (st k : string) :
  k ∉ REPLY_KEYS → reply_base srv os st !! k = None.
Proof.
  unfold reply_base, REPLY_KEYS. rewrite !not_elem_of_cons.
  intros (? & ? & ? & ? & ? & ? & _).
  by rewrite !lookup_insert_ne, lookup_empty by done.
Qed.

(** X3: every header of every alive, byebye and reply message of a
    server built by the constructor holds a string, a number or a boolean,
    except under an extra-header key that is the name of a member of
    [Object.prototype], where it holds that member; null and undefined
    values of the [extraHeaders] option never reach the peer. *)
Theorem announced_values_are_primitive {Store} (options : ServerOptions.t Store)
  (randomUUID : string) (os : Os) (st k : string) (v : value) :
  let srv := Server_new options randomUUID in
  let sound :=
    v ≠ VNull ∧ v ≠ VUndefined ∧
    (is_header_value v = true ∨
     inherited k = true ∧ v = VInherited k ∧ is_Some (Server.extraHeaders srv !! k)) in
  (advert_headers srv os st !! k = Some v → sound) ∧
  (reply_headers srv os st !! k = Some v → sound).
Proof.
  intros srv sound.
  assert (Hextra : ∀ k v, Server.extraHeaders srv !! k = Some v → is_header_value v = true).
  { intros k' v'. subst srv. cbn [Server_new Server.extraHeaders].
    destruct (ServerOptions.extraHeaders options) as [d|].
    - by intros (_ & ? & _)%getExtraHeaders_lookup.
    - cbn. by rewrite lookup_empty. }
  assert (Hprim : ∀ w, is_header_value w = true → w ≠ VNull ∧ w ≠ VUndefined).
  { intros w Hw. by destruct w. }
  assert (Hbase : ∀ b : headers,
            (∀ k v, b !! k = Some v → is_header_value v = true) →
            merge b (Server.extraHeaders srv) !! k = Some v → sound).
  { intros b Hb. subst sound. rewrite merge_lookup.
    destruct (Server.extraHeaders srv !! k) as [v2|] eqn:H2.
    - destruct (hits_setter b k); [done|]. intros [= <-]. unfold get_prop.
      destruct (b !! k) as [vb|] eqn:Hk; simpl.
      + assert (is_header_value (if truthy vb then vb else v2) = true) as Hv
          by (destruct (truthy vb); [by eapply Hb | by eapply Hextra]).
        destruct (Hprim _ Hv). eauto.
      + destruct (inherited k) eqn:Hin; simpl.
        * repeat split; (done || eauto).
        * destruct (Hprim v2); eauto.
    - intros Hv%Hb. destruct (Hprim _ Hv). eauto. }
  split; apply Hbase; intros k' v'.
  - unfold advert_base. rewrite !lookup_insert.
    repeat case_decide; by intros [= <-].
  - unfold reply_base. rewrite !lookup_insert.
    repeat case_decide; by intros [= <-].
Qed.

(** X4: a configured extra header whose key is none of NT, USN, SERVER,
    LOCATION and [__proto__] is carried by every alive message sent on
    "ready" and by every byebye sent by [stop()], and there are five of
    each: with its value when the key is not the name of a member of
    [Object.prototype], and with that member in place of the value when it
    is. *)
Theorem adverts_carry_extra_headers {Store} (srv : Server.t Store) (os : Os)
  (k : string) (v : value) :
  Server.extraHeaders srv !! k = Some v → k ∉ ADVERT_KEYS → k ≠ "__proto__" →
  List.length (Server_on_ready srv os) = 5%nat ∧
  List.length (Server_stop srv os).1 = 5%nat ∧
  Forall (λ call, ∃ h, peer_headers call = Some h ∧
                       h !! k = Some (if inherited k then VInherited k else v))
         (Server_on_ready srv os ++ (Server_stop srv os).1).
Proof.
  intros Hk Hnot Hproto. split; [done|]. split; [done|].
  assert (Hadv : ∀ st, advert_headers srv os st !! k =
                       Some (if inherited k then VInherited k else v)).
  { intros st. unfold advert_headers. rewrite merge_lookup, Hk.
    unfold hits_setter, get_prop. rewrite bool_decide_eq_false_2 by done. cbn [andb].
    destruct (advert_base srv os st !! k) eqn:Hb; [|by destruct (inherited k)].
    exfalso. apply Hnot. apply (advert_base_dom srv os st). eauto. }
  apply Forall_app. split; apply Forall_fmap, Forall_forall; intros st _; cbn; eauto.
Qed.

Lemma adverts_carry_extra_headers_witness :
  let srv := Server_new extra_demo_options "r" in
  let os := {| os_type := "Linux"; os_release := "6.8.0" |} in
  List.length (Server_on_ready srv os) = 5%nat ∧
  List.length (Server_stop srv os).1 = 5%nat ∧
  Forall (λ call, ∃ h, peer_headers call = Some h ∧
                       h !! "WAKEUP" = Some (VStr "MAC=10:dd:b1:c9:00:e4;Timeout=10"))
         (Server_on_ready srv os ++ (Server_stop srv os).1).
Proof.
  apply (adverts_carry_extra_headers (Server_new extra_demo_options "r")
           {| os_type := "Linux"; os_release := "6.8.0" |} "WAKEUP"
           (VStr "MAC=10:dd:b1:c9:00:e4;Timeout=10")).
  - vm_compute. reflexivity.
  - apply (bool_decide_unpack _). vm_compute. exact I.
  - discriminate.
Defined.

(** ** The search handler and the constructor *)

(** X5: a search is answered exactly when the type it asks for is one of
    the five service types (a search without ST is not answered); the one
    reply echoes the requested type in ST, names it in USN after the
    device's uuid, and points LOCATION at the description document. *)
Theorem search_replied_iff_known_type {Store} (srv : Server.t Store) (os : Os)
  (ST : option string) :
  (Server_on_search srv os ST = [] ↔
     ¬ ∃ st, ST = Some st ∧ st ∈ serviceTypes (Server.uuid srv)) ∧
  (∀ st, ST = Some st → st ∈ serviceTypes (Server.uuid srv) →
     ∃ h, Server_on_search srv os ST = [PeerReply h] ∧
          header_str h "ST" = Some st ∧
          header_str h "USN" = Some ("uuid:" +:+ Server.uuid srv +:+ "::" +:+ st) ∧
          header_str h "LOCATION" = Some (ssdp_location srv) ∧
          h !! "CONFIGID.UPNP.ORG" = Some (VNum 7337) ∧
          h !! "BOOTID.UPNP.ORG" = Some (VNum 7337)).
Proof.
  unfold Server_on_search. split.
  - destruct ST as [st|]; [|split; [intros _ (? & [=] & _) | done]].
    case_bool_decide as Hst; split; try done.
    + intros H. exfalso. apply H. eauto.
    + intros _ (? & [= <-] & ?). done.
  - intros st -> Hst. rewrite bool_decide_eq_true_2 by done.
    eexists. split; [done|].
    assert (Hkeep : ∀ k v, reply_base srv os st !! k = Some v →
                           reply_headers srv os st !! k = Some v).
    { intros k v. by apply call_sites_keep_base. }
    unfold header_str.
    rewrite (Hkeep "ST" (VStr st)), (Hkeep "LOCATION" (VStr (ssdp_location srv))),
      (Hkeep "USN" (VStr ("uuid:" +:+ Server.uuid srv +:+ "::" +:+ st))),
      (Hkeep "CONFIGID.UPNP.ORG" (VNum 7337)), (Hkeep "BOOTID.UPNP.ORG" (VNum 7337));
      done.
Qed.

(** X6: the maximum content length of a constructed server is never
    below 4096.  With [n] the integer that [parseInt] reads from the
    option (5000 from 5000.7, 1 from 1e21, whose string form is "1e+21"),
    it is the larger of [n] and 4096, so zero, negative and small [n] all
    give 4096; and it is 4096 when [parseInt] reads no integer (option
    absent or not numeric). *)
Theorem constructed_max_content_length {Store} (options : ServerOptions.t Store)
  (randomUUID : string) :
  let m := Server.maxContentLength (Server_new options randomUUID) in
  4096 ≤ m ∧
  (∀ n, ServerOptions.maxContentLength options = Some n → m = Z.max n 4096) ∧
  (ServerOptions.maxContentLength options = None → m = 4096).
Proof.
  cbn [Server_new Server.maxContentLength]. unfold max_content_length.
  split; [lia|]. split.
  - intros n ->. destruct (Z.eqb_spec n 0); lia.
  - by intros ->.
Qed.

(** X7: the identity of a constructed server is never blank: the
    friendly name, the manufacturer and the model name are non-empty
    whatever the options and the host name are, and so is the uuid as long
    as the generated one is. *)
Theorem constructed_identity_not_blank {Store} (options : ServerOptions.t Store)
  (randomUUID hostname : string) (friendlyName manufacturer modelName : option string) :
  let names := ServerNames_new friendlyName manufacturer modelName hostname in
  ServerNames.friendlyName names ≠ "" ∧
  ServerNames.manufacturer names ≠ "" ∧
  ServerNames.modelName names ≠ "" ∧
  (randomUUID ≠ "" → Server.uuid (Server_new options randomUUID) ≠ "") ∧
  (∀ s, friendlyName = Some s → s ≠ "" → ServerNames.friendlyName names = s).
Proof.
  assert (Hor : ∀ a d, d ≠ "" → show_ostr (or_ostr a (Some d)) ≠ "").
  { intros a d Hd. unfold or_ostr. destruct (truthy_ostr a) eqn:Ha; [|done].
    destruct a as [s|]; [|done]. by apply truthy_str_true. }
  cbn. repeat split.
  - unfold or_ostr at 1.
    destruct (truthy_ostr (or_ostr friendlyName (Some hostname))) eqn:Ht; [|done].
    destruct (or_ostr friendlyName (Some hostname)) as [s|]; [|done].
    by apply truthy_str_true.
  - by apply Hor.
  - by apply Hor.
  - intros Hr. destruct (ServerOptions.uuid options) as [u|]; [|done].
    destruct (truthy_str u) eqn:Hu; [by apply truthy_str_true | done].
  - intros s -> Hs%truthy_str_true. unfold or_ostr. cbn. rewrite Hs. cbn. by rewrite Hs.
Qed.

(** ** The routes *)

(** X8: a server whose provider has no get hook (in particular one
    constructed without a delegate) answers 404 on every application route
    and nothing else happens: no hook is called and the provider's store is
    left alone. *)
Theorem routes_without_get_hook {Store} (srv : Server.t Store) (req : Request.t)
  (σ : Store) :
  ServerDelegate.getApp (Server.delegate srv) = None →
  get_app srv req σ = ([SendStatus 404], σ) ∧
  post_app srv req σ = ([SendStatus 404], σ) ∧
  post_dial_data srv req σ = ([SendStatus 404], σ) ∧
  delete_app srv req σ = ([SendStatus 404], σ).
Proof.
  intros Hget. unfold get_app, post_app, post_dial_data, delete_app, lookup_app.
  by rewrite Hget.
Qed.

Lemma routes_without_get_hook_witness :
  let srv := Server_new bare_options "6e1f0b2c" in
  let req := demo_request "YouTube" (Some "run") (Some "v=1") (Some 3) in
  get_app srv req demo_apps = ([SendStatus 404], demo_apps) ∧
  post_app srv req demo_apps = ([SendStatus 404], demo_apps) ∧
  post_dial_data srv req demo_apps = ([SendStatus 404], demo_apps) ∧
  delete_app srv req demo_apps = ([SendStatus 404], demo_apps).
Proof.
  apply (routes_without_get_hook (Server_new bare_options "6e1f0b2c")
           (demo_request "YouTube" (Some "run") (Some "v=1") (Some 3)) demo_apps).
  reflexivity.
Defined.

(** X9: when the application is known but the provider has no launch
    hook, a POST within the size limit is never answered: the handler ends
    without touching the response.  The same holds for a DELETE of a
    stoppable application with a pid when there is no stop hook. *)
Theorem no_hook_no_response {Store} (srv : Server.t Store) (req : Request.t)
  (σ : Store) (info : AppInfo.t) :
  reported srv req σ = Some info →
  (within_limit srv req →
   ServerDelegate.launchApp (Server.delegate srv) = None →
   existsb is_response (post_app srv req σ).1 = false ∧
   response_status (post_app srv req σ).1 = None) ∧
  (AppInfo.allowStop info = Some true → truthy_ostr (Request.pid req) = true →
   ServerDelegate.stopApp (Server.delegate srv) = None →
   existsb is_response (delete_app srv req σ).1 = false ∧
   response_status (delete_app srv req σ).1 = None).
Proof.
  intros Hrep. split.
  - intros Hlim%within_limit_not_too_large Hno.
    unfold post_app. rewrite Hlim, Hno.
    split_lookup srv req σ; [|discriminate]. subst r. done.
  - intros Hallow Hpid Hno. unfold delete_app. rewrite Hno.
    split_lookup srv req σ; [|discriminate]. subst r. by rewrite Hallow, Hpid.
Qed.

Lemma no_hook_no_response_witness :
  let srv := Server_new lookup_only_options "6e1f0b2c" in
  let req := demo_request "YouTube" (Some "run") (Some "v=1") (Some 3) in
  (within_limit srv req →
   ServerDelegate.launchApp (Server.delegate srv) = None →
   existsb is_response (post_app srv req demo_apps).1 = false ∧
   response_status (post_app srv req demo_apps).1 = None) ∧
  (Some true = Some true → truthy_ostr (Request.pid req) = true →
   ServerDelegate.stopApp (Server.delegate srv) = None →
   existsb is_response (delete_app srv req demo_apps).1 = false ∧
   response_status (delete_app srv req demo_apps).1 = None).
Proof.
  apply (no_hook_no_response (Server_new lookup_only_options "6e1f0b2c")
           (demo_request "YouTube" (Some "run") (Some "v=1") (Some 3)) demo_apps
           {| AppInfo.name := "YouTube"; AppInfo.state := Some "stopped";
              AppInfo.pid := None; AppInfo.allowStop := Some true;
              AppInfo.additionalData := None; AppInfo.namespaces := None |}).
  reflexivity.
Defined.

Lemma complete_all_no_call {A} (f : A → list Effect) (p : Effect → bool) (l : list A) :
  p ThrowHeadersSent = false →
  (∀ a, existsb p (f a) = false) → existsb p (complete_all f l) = false.
Proof.
  intros Hp Hf. destruct l as [|a l]; [done|].
  cbn [complete_all]. rewrite existsb_app, Hf. cbn [orb].
  induction l as [|b l IH]; [done|]. cbn [map existsb]. by rewrite Hp, IH.
Qed.

(** X10: every route keeps to its own hook.  Reading an application
    ([GET]) and the reserved [dial_data] route call neither the launch nor
    the stop hook, and the latter answers 404, 413 or 501; launching never
    calls the stop hook and stopping never calls the launch hook, whatever
    the hooks answer. *)
Theorem routes_keep_to_their_hook {Store} (srv : Server.t Store) (req : Request.t)
  (σ : Store) :
  launch_invoked (get_app srv req σ).1 = false ∧
  stop_invoked (get_app srv req σ).1 = false ∧
  launch_invoked (post_dial_data srv req σ).1 = false ∧
  stop_invoked (post_dial_data srv req σ).1 = false ∧
  (∃ status, response_status (post_dial_data srv req σ).1 = Some status ∧
             status ∈ [404; 413; 501]) ∧
  stop_invoked (post_app srv req σ).1 = false ∧
  launch_invoked (delete_app srv req σ).1 = false.
Proof.
  unfold get_app, post_dial_data, post_app, delete_app, launch_invoked, stop_invoked.
  split_lookup srv req σ.
  - destruct r as [info|]; cbn [fst].
    + destruct (too_large srv req); cbn [fst].
      * repeat split; try done; [eexists; split; [done | set_solver] | ..].
        destruct (AppInfo.allowStop info) as [[]|]; try done.
        destruct (truthy_ostr (Request.pid req)); try done.
        destruct (ServerDelegate.stopApp (Server.delegate srv)) as [hook|]; [|done].
        destruct (hook _ _ _ _) as [replies σ2]. cbn.
        apply complete_all_no_call; [done|]. by intros [].
      * repeat split; try done; [eexists; split; [done | set_solver] | ..].
        -- destruct (ServerDelegate.launchApp (Server.delegate srv)) as [hook|]; [|done].
           destruct (hook _ _ _ _) as [replies σ2]. cbn.
           apply complete_all_no_call; [done|]. intros [p [e|]]; [done|].
           unfold launch_callback. cbn. by destruct (truthy_ostr p).
        -- destruct (AppInfo.allowStop info) as [[]|]; try done.
           destruct (truthy_ostr (Request.pid req)); try done.
           destruct (ServerDelegate.stopApp (Server.delegate srv)) as [hook|]; [|done].
           destruct (hook _ _ _ _) as [replies σ2]. cbn.
           apply complete_all_no_call; [done|]. by intros [].
    + repeat split; try done. eexists; split; [done | set_solver].
  - repeat split; try done. eexists; split; [done | set_solver].
Qed.

(** ** The body reader and CORS *)

Lemma fold_read_chunk (chunks : list jsstring) (text : jsstring) (n : Z) :
  fold_left read_chunk chunks (text, n) =
    (text ++ concat chunks, n + js_length (concat chunks)).
Proof.
  revert text n. induction chunks as [|c chunks IH]; intros text n.
  - cbn. rewrite app_nil_r. f_equal. unfold js_length. cbn. lia.
  - cbn [fold_left concat]. unfold read_chunk at 2. cbn [fst snd]. rewrite IH.
    rewrite <- app_assoc. f_equal. unfold js_length. rewrite length_app. lia.
Qed.

(** X11: the body reader records the whole body and its length in UTF-16
    code units, however the body was split into chunks; the recorded length
    is therefore never more than the UTF-8 byte length of the text.  A body
    of another content type is not recorded at all. *)
Theorem read_body_records_code_units (chunks : list jsstring) :
  read_body true chunks = Some (concat chunks, js_length (concat chunks)) ∧
  js_length (concat chunks) ≤ Buffer_byteLength (concat chunks) ∧
  (∀ chunks', concat chunks' = concat chunks →
     read_body true chunks' = read_body true chunks) ∧
  read_body false chunks = None.
Proof.
  assert (H : ∀ cs, read_body true cs = Some (concat cs, js_length (concat cs))).
  { intros cs. unfold read_body. by rewrite fold_read_chunk. }
  split; [apply H|]. split; [apply Buffer_byteLength_ge_length|].
  split; [|done]. intros chunks' Heq. by rewrite !H, Heq.
Qed.


Lemma lower_string_app (a b : string) :
  lower_string (a +:+ b) = lower_string a +:+ lower_string b.
Proof.
  induction a as [|x a IH]; [done|]. exact (f_equal (String (ascii_lower x)) IH).
Qed.

Lemma prefix_ci_lower (p s rest : string) :
  lower_string s = lower_string p → prefix_ci p (s +:+ rest) = true.
Proof.
  revert s. induction p as [|a p IH]; intros s Hs; [done|].
  destruct s as [|b s]; [discriminate|].
  cbn in Hs. injection Hs as Hb Hs.
  change (String b s +:+ rest) with (String b (s +:+ rest)). cbn [prefix_ci].
  rewrite Hb, Ascii.eqb_refl. by apply IH.
Qed.

Lemma prefix_ci_split (p o : string) :
  prefix_ci p o = true → ∃ s rest, o = s +:+ rest ∧ lower_string s = lower_string p.
Proof.
  revert o. induction p as [|a p IH]; intros o Hp.
  - by exists "", o.
  - destruct o as [|b o]; [discriminate|]. cbn [prefix_ci] in Hp.
    apply andb_true_iff in Hp as [Hab Hp]. apply Ascii.eqb_eq in Hab.
    destruct (IH o Hp) as (s & rest & -> & Hs).
    exists (String b s), rest. split; [done|]. cbn [lower_string]. by rewrite Hab, Hs.
Qed.

Lemma ascii_lower_colon (c : Ascii.ascii) : ascii_lower c = colon → c = colon.
Proof.
  destruct c as [[] [] [] [] [] [] [] []]; vm_compute; congruence.
Qed.

(** What the pattern accepts: a scheme that reads http, https or file in
    lower case, followed by a colon. *)
Lemma web_scheme_split (o : string) :
  web_scheme o = true →
  ∃ scheme rest, o = scheme +:+ ":" +:+ rest ∧
                 lower_string scheme ∈ ["http"; "https"; "file"].
Proof.
  unfold web_scheme. intros H.
  apply orb_true_iff in H as [H|H]; [apply orb_true_iff in H as [H|H]|];
    apply prefix_ci_split in H as (s & rest & -> & Hs).
  - destruct s as [|a [|b [|c [|d [|e [|]]]]]]; try discriminate.
    cbn [lower_string] in Hs. injection Hs as Ha Hb Hc Hd He.
    apply ascii_lower_colon in He as ->.
    exists (String a (String b (String c (String d "")))), rest.
    split; [reflexivity|]. cbn [lower_string]. rewrite Ha, Hb, Hc, Hd. set_solver.
  - destruct s as [|a [|b [|c [|d [|e [|f [|]]]]]]]; try discriminate.
    cbn [lower_string] in Hs. injection Hs as Ha Hb Hc Hd He Hf.
    apply ascii_lower_colon in Hf as ->.
    exists (String a (String b (String c (String d (String e ""))))), rest.
    split; [reflexivity|]. cbn [lower_string]. rewrite Ha, Hb, Hc, Hd, He. set_solver.
  - destruct s as [|a [|b [|c [|d [|e [|]]]]]]; try discriminate.
    cbn [lower_string] in Hs. injection Hs as Ha Hb Hc Hd He.
    apply ascii_lower_colon in He as ->.
    exists (String a (String b (String c (String d "")))), rest.
    split; [reflexivity|]. cbn [lower_string]. rewrite Ha, Hb, Hc, Hd. set_solver.
Qed.

(** X12: for the application routes, a request whose [Origin] names the
    scheme http, https or file, in any letter case, is handled under the
    configured origin policy, with the four methods; a request without an
    [Origin] (or with an empty one) gets CORS switched off; a request
    with any other [Origin] is allowed unconditionally ([origin: true]),
    whatever the configuration.  So [origin: true] is returned for a
    non-empty [Origin] only, and for one that names one of the three
    schemes only when the server is configured with
    [corsAllowOrigins: true]. *)
Theorem cors_apps_by_scheme {A} (configured : option (CorsOrigin A)) :
  let web o := ∃ scheme rest, o = scheme +:+ ":" +:+ rest ∧
                              lower_string scheme ∈ ["http"; "https"; "file"] in
  (∀ o, web o →
     corsOptionsAppsDelegate configured (Some o) =
       {| CorsOptions.origin := corsAllowOrigins configured;
          CorsOptions.methods := Some ["GET"; "POST"; "DELETE"; "OPTIONS"];
          CorsOptions.exposedHeaders := None |}) ∧
  (∀ origin, origin = None ∨ origin = Some "" →
     CorsOptions.origin (corsOptionsAppsDelegate configured origin) = OriginFlag false) ∧
  (∀ o, o ≠ "" → ¬ web o →
     corsOptionsAppsDelegate configured (Some o) =
       {| CorsOptions.origin := OriginFlag true; CorsOptions.methods := None;
          CorsOptions.exposedHeaders := None |}) ∧
  (∀ o, CorsOptions.origin (corsOptionsAppsDelegate configured (Some o)) = OriginFlag true →
     o ≠ "" ∧ (web o → configured = Some (OriginFlag true))) ∧
  (configured = Some (OriginFlag true) → ∀ o, o ≠ "" →
     CorsOptions.origin (corsOptionsAppsDelegate configured (Some o)) = OriginFlag true).
Proof.
  intros web.
  assert (Hweb : ∀ o, web o → web_scheme o = true ∧ o ≠ "").
  { intros o (scheme & rest & -> & Hin). split.
    - unfold web_scheme. rewrite <- append_assoc.
      rewrite !elem_of_cons, elem_of_nil in Hin.
      destruct Hin as [H|[H|[H|[]]]].
      + rewrite (prefix_ci_lower "http:"); [done|]. by rewrite lower_string_app, H.
      + rewrite (prefix_ci_lower "https:"), orb_true_r; [done|].
        by rewrite lower_string_app, H.
      + rewrite (prefix_ci_lower "file:"), !orb_true_r; [done|].
        by rewrite lower_string_app, H.
    - destruct scheme; [|done]. cbn in Hin. set_solver. }
  split; [|split; [|split; [|split]]].
  - intros o Ho. destruct (Hweb o Ho) as [Hw Hne].
    unfold corsOptionsAppsDelegate. cbn [truthy_ostr show_ostr].
    apply truthy_str_true in Hne. by rewrite Hne, Hw.
  - by intros origin [-> | ->].
  - intros o Hne%truthy_str_true Hno. unfold corsOptionsAppsDelegate.
    cbn [truthy_ostr show_ostr]. rewrite Hne. cbn [negb].
    destruct (web_scheme o) eqn:Hw; [|done].
    exfalso. by apply Hno, web_scheme_split.
  - intros o. unfold corsOptionsAppsDelegate. cbn [truthy_ostr show_ostr].
    destruct (truthy_str o) eqn:Ho; cbn [negb]; [|discriminate].
    intros Horigin. split; [by apply truthy_str_true|].
    intros [Hw _]%Hweb. rewrite Hw in Horigin.
    cbn [negb CorsOptions.origin corsOptionsApps corsAllowOrigins] in Horigin.
    destruct configured as [[[]|s|a]|]; try discriminate; [done|].
    unfold corsAllowOrigins in Horigin. destruct (truthy_str s); discriminate.
  - intros -> o Hne%truthy_str_true. unfold corsOptionsAppsDelegate.
    cbn [truthy_ostr show_ostr]. rewrite Hne. cbn [negb].
    by destruct (web_scheme o).
Qed.

(** ** The [DialDevice] methods *)


Lemma stop_url_truthy (dev : DialDevice) (appName pid u : string) :
  stop_url dev appName pid = Some u → truthy_str u = true.
Proof.
  unfold stop_url. destruct (_ && _); [|done]. intros [= <-].
  apply truthy_str_true. intros [_ [=]]%append_eq_empty.
Qed.

Lemma stop_url_some (dev : DialDevice) (appName pid url : string) :
  applicationUrl dev = Some url → url ≠ "" → appName ≠ "" → pid ≠ "" →
  stop_url dev appName pid = Some (url +:+ "/" +:+ appName +:+ "/" +:+ pid).
Proof.
  intros Hurl Hne%truthy_str_true Hname%truthy_str_true Hpid%truthy_str_true.
  unfold stop_url. rewrite Hurl. cbn [truthy_ostr show_ostr].
  by rewrite Hne, Hname, Hpid.
Qed.

Lemma result_xor_error_l {A B : Type} (x : A) : (@None B = None ↔ is_Some (Some x)).
Proof. split; eauto. Qed.

Lemma result_xor_error_r {A B : Type} (x : A) : (Some x = None ↔ is_Some (@None B)).
Proof. split; [done | intros [? [=]]]. Qed.


Lemma http_get_accepts_true (parseURL : string → option URL.t) (u : string) (p : URL.t) :
  parseURL u = Some p → URL.protocol p = "http:" → http_get_accepts parseURL u = true.
Proof. unfold http_get_accepts. intros -> ->. done. Qed.






(** A device whose application URL is an https address: fetching the
    application description throws, while launching issues its request. *)
Example device_methods_https :
  let parse (s : string) :=
    Some {| URL.href := s; URL.protocol := "https:"; URL.hostname := "tv.local";
            URL.port := ""; URL.pathname := "/apps/YouTube"; URL.search := "" |} in
  let dev := {| descriptionUrl := None; applicationUrl := Some "https://tv.local/apps";
                deviceType := None; friendlyName := None; manufacturer := None;
                modelName := None; UDN := None |} in
  getAppInfoXml parse dev "YouTube" (Responded 200 []) = Threw ∧
  http_issued (launchApp parse dev "YouTube" None None (Responded 201 [])) = true.
Proof. vm_compute. done. Qed.

(** X14: how the three methods read the status of the answer, on a
    device whose application URL is a valid [http:] address.
    [getAppInfoXml] hands out the body only for status 200 and reports any
    other status, 201 and 204 included, as an error whose code is that
    status; [launchApp] hands out the body exactly for a status below 400;
    [stopApp] hands out every status as the result and never as an error;
    a failed request is reported with its own error by all three. *)
Theorem device_methods_read_status (parseURL : string → option URL.t)
  (dev : DialDevice) (appName pid url : string) (u su : URL.t)
  (launchData : option jsstring) (contentType : option string)
  (statusCode : Z) (chunks : list string) (failure : Error) :
  applicationUrl dev = Some url → url ≠ "" → appName ≠ "" → pid ≠ "" →
  parseURL (url +:+ "/" +:+ appName) = Some u → URL.protocol u = "http:" →
  parseURL (url +:+ "/" +:+ appName +:+ "/" +:+ pid) = Some su →
  let answer := Responded statusCode chunks in
  let body := String.concat "" chunks in
  (callbacks (getAppInfoXml parseURL dev appName answer) = [(Some body, None)]
     ↔ statusCode = 200) ∧
  (statusCode ≠ 200 →
     ∃ err, callbacks (getAppInfoXml parseURL dev appName answer) = [(None, Some err)] ∧
            code err = Some (pretty statusCode)) ∧
  (callbacks (launchApp parseURL dev appName launchData contentType answer)
     = [(Some body, None)] ↔ statusCode < 400) ∧
  callbacks (stopApp parseURL dev appName pid answer) = [(Some statusCode, None)] ∧
  callbacks (getAppInfoXml parseURL dev appName (Failed failure)) = [(None, Some failure)] ∧
  callbacks (launchApp parseURL dev appName launchData contentType (Failed failure))
     = [(None, Some failure)] ∧
  callbacks (stopApp parseURL dev appName pid (Failed failure)) = [(None, Some failure)].
Proof.
  intros Hurl Hne Hname Hpid Hp Hhttp Hps answer body. subst answer body.
  destruct (app_url_some dev appName url Hurl Hne Hname) as [Happ Htruthy].
  pose proof (stop_url_some dev appName pid url Hurl Hne Hname Hpid) as Hstop.
  pose proof (stop_url_truthy _ _ _ _ Hstop) as Hst.
  unfold getAppInfoXml, launchApp, stopApp.
  rewrite Happ, Htruthy, (http_get_accepts_true _ _ _ Hp Hhttp), Hp, Hstop, Hst, Hps.
  cbn [negb callbacks flat_map app].
  repeat split; try done.
  - destruct (Z.eqb_spec statusCode 200); [done|]. cbn. intros [=].
  - intros ->. done.
  - intros Hs. destruct (Z.eqb_spec statusCode 200); [done|]. eexists. split; done.
  - destruct (Z.leb_spec 400 statusCode); [|done]. cbn. intros [=].
  - intros Hs. destruct (Z.leb_spec 400 statusCode); [lia | done].
Qed.

Lemma device_methods_read_status_witness :
  let answer := Responded 201 ["<service/>"] in
  let body := String.concat "" ["<service/>"] in
  (callbacks (getAppInfoXml any_parseURL demo_device "YouTube" answer) = [(Some body, None)]
     ↔ 201 = 200) ∧
  (201 ≠ 200 →
     ∃ err, callbacks (getAppInfoXml any_parseURL demo_device "YouTube" answer)
              = [(None, Some err)] ∧
            code err = Some (pretty 201)) ∧
  (callbacks (launchApp any_parseURL demo_device "YouTube" None None answer)
     = [(Some body, None)] ↔ 201 < 400) ∧
  callbacks (stopApp any_parseURL demo_device "YouTube" "run" answer) = [(Some 201, None)] ∧
  callbacks (getAppInfoXml any_parseURL demo_device "YouTube" (Failed (mkError "ECONNREFUSED")))
     = [(None, Some (mkError "ECONNREFUSED"))] ∧
  callbacks (launchApp any_parseURL demo_device "YouTube" None None
               (Failed (mkError "ECONNREFUSED")))
     = [(None, Some (mkError "ECONNREFUSED"))] ∧
  callbacks (stopApp any_parseURL demo_device "YouTube" "run" (Failed (mkError "ECONNREFUSED")))
     = [(None, Some (mkError "ECONNREFUSED"))].
Proof.
  apply (device_methods_read_status any_parseURL demo_device "YouTube" "run"
           "http://192.168.1.20:3000/dial/apps"
           {| URL.href := "http://192.168.1.20:3000/dial/apps/YouTube";
              URL.protocol := "http:";
              URL.hostname := "192.168.1.20"; URL.port := "3000";
              URL.pathname := "/"; URL.search := "" |}
           {| URL.href := "http://192.168.1.20:3000/dial/apps/YouTube/run";
              URL.protocol := "http:";
              URL.hostname := "192.168.1.20"; URL.port := "3000";
              URL.pathname := "/"; URL.search := "" |}
           None None 201 ["<service/>"] (mkError "ECONNREFUSED"));
    (reflexivity || discriminate).
Defined.

(** X15: [getAppInfo] on a device and name that give a valid [http:]
    URL.  A 200
    answer with a non-empty body is handed to the parser, whose document or
    error is passed on; a 200 answer with an empty body ends in a callback
    with neither a result nor an error; any other status and a failed
    request are reported with the error of [getAppInfoXml]. *)
Theorem getAppInfo_results {P : Type} (parseURL : string → option URL.t)
  (parseString : string → XmlParse P) (dev : DialDevice) (appName url : string)
  (u : URL.t) :
  applicationUrl dev = Some url → url ≠ "" → appName ≠ "" →
  parseURL (url +:+ "/" +:+ appName) = Some u → URL.protocol u = "http:" →
  (∀ chunks, String.concat "" chunks = "" →
     callbacks (getAppInfo parseURL parseString dev appName (Responded 200 chunks))
       = [(None, None)]) ∧
  (∀ chunks doc, String.concat "" chunks ≠ "" →
     parseString (String.concat "" chunks) = XmlParsed doc →
     callbacks (getAppInfo parseURL parseString dev appName (Responded 200 chunks))
       = [(Some doc, None)]) ∧
  (∀ chunks err, String.concat "" chunks ≠ "" →
     parseString (String.concat "" chunks) = XmlError err →
     callbacks (getAppInfo parseURL parseString dev appName (Responded 200 chunks))
       = [(None, Some err)]) ∧
  (∀ statusCode chunks, statusCode ≠ 200 →
     ∃ err, callbacks (getAppInfo parseURL parseString dev appName
                         (Responded statusCode chunks)) = [(None, Some err)] ∧
            code err = Some (pretty statusCode)) ∧
  (∀ failure, callbacks (getAppInfo parseURL parseString dev appName (Failed failure))
                = [(None, Some failure)]) ∧
  (∀ answer, http_count (getAppInfo parseURL parseString dev appName answer) = 1%nat).
Proof.
  intros Hurl Hne Hname Hp Hhttp.
  destruct (app_url_some dev appName url Hurl Hne Hname) as [Happ Htruthy].
  unfold getAppInfo, getAppInfoXml.
  rewrite Happ, Htruthy, (http_get_accepts_true _ _ _ Hp Hhttp). cbn [negb].
  repeat split.
  - intros chunks Hempty. cbn. by rewrite Hempty.
  - intros chunks doc Hbody%truthy_str_true Hparse. cbn. by rewrite Hbody, Hparse.
  - intros chunks err Hbody%truthy_str_true Hparse. cbn. by rewrite Hbody, Hparse.
  - intros statusCode chunks Hs. destruct (Z.eqb_spec statusCode 200); [done|].
    cbn. eexists. split; done.
  - intros [statusCode chunks|err]; [|done].
    destruct (Z.eqb statusCode 200); cbn; [|done].
    destruct (truthy_str (String.concat "" chunks)); cbn; [|done].
    by destruct (parseString (String.concat "" chunks)).
Qed.

Lemma getAppInfo_results_witness :
  (∀ chunks, String.concat "" chunks = "" →
     callbacks (getAppInfo any_parseURL demo_parseAppInfo demo_device "YouTube"
                  (Responded 200 chunks)) = [(None, None)]) ∧
  (∀ chunks doc, String.concat "" chunks ≠ "" →
     demo_parseAppInfo (String.concat "" chunks) = XmlParsed doc →
     callbacks (getAppInfo any_parseURL demo_parseAppInfo demo_device "YouTube"
                  (Responded 200 chunks)) = [(Some doc, None)]) ∧
  (∀ chunks err, String.concat "" chunks ≠ "" →
     demo_parseAppInfo (String.concat "" chunks) = XmlError err →
     callbacks (getAppInfo any_parseURL demo_parseAppInfo demo_device "YouTube"
                  (Responded 200 chunks)) = [(None, Some err)]) ∧
  (∀ statusCode chunks, statusCode ≠ 200 →
     ∃ err, callbacks (getAppInfo any_parseURL demo_parseAppInfo demo_device "YouTube"
                         (Responded statusCode chunks)) = [(None, Some err)] ∧
            code err = Some (pretty statusCode)) ∧
  (∀ failure, callbacks (getAppInfo any_parseURL demo_parseAppInfo demo_device "YouTube"
                           (Failed failure)) = [(None, Some failure)]) ∧
  (∀ answer, http_count (getAppInfo any_parseURL demo_parseAppInfo demo_device "YouTube"
                           answer) = 1%nat).
Proof.
  apply (getAppInfo_results any_parseURL demo_parseAppInfo demo_device "YouTube"
           "http://192.168.1.20:3000/dial/apps"
           {| URL.href := "http://192.168.1.20:3000/dial/apps/YouTube";
              URL.protocol := "http:";
              URL.hostname := "192.168.1.20"; URL.port := "3000";
              URL.pathname := "/"; URL.search := "" |});
    (reflexivity || discriminate).
Defined.

Example getAppInfo_empty_body :
  getAppInfo any_parseURL demo_parseAppInfo demo_device "YouTube" (Responded 200 [""; ""])
  = Ran [HttpGet "http://192.168.1.20:3000/dial/apps/YouTube"; Callback None None].
Proof. vm_compute. reflexivity. Qed.

Lemma indexOf_colon_none (s : string) : colon_free s = true → indexOf_colon s = -1.
Proof.
  induction s as [|c s IH]; [done|]. cbn [colon_free indexOf_colon].
  intros [Hc Hs]%andb_true_iff. apply negb_true_iff in Hc. rewrite Hc, (IH Hs). done.
Qed.

Lemma indexOf_colon_first (p l : string) :
  colon_free p = true → indexOf_colon (p +:+ String colon l) = Z.of_nat (String.length p).
Proof.
  induction p as [|c p IH].
  - intros _. change (EmptyString +:+ String colon l) with (String colon l).
    cbn [indexOf_colon]. by rewrite Ascii.eqb_refl.
  - cbn [colon_free]. intros [Hc Hp]%andb_true_iff. apply negb_true_iff in Hc.
    change (String c p +:+ String colon l) with (String c (p +:+ String colon l)).
    cbn [indexOf_colon String.length]. rewrite Hc, (IH Hp).
    destruct (Z.ltb_spec (Z.of_nat (String.length p)) 0); lia.
Qed.

Lemma drop_chars_app (p rest : string) : drop_chars (String.length p) (p +:+ rest) = rest.
Proof. induction p as [|c p IH]; [done|]. exact IH. Qed.

(** X16: the name processor of [getAppInfo] removes a namespace prefix:
    a name [prefix:local] whose prefix has no colon becomes [local], and a
    name without any colon is left as it is. *)
Theorem strip_namespace_prefix (prefix local : string) :
  colon_free prefix = true →
  strip_namespace (prefix +:+ ":" +:+ local) = local ∧
  strip_namespace prefix = prefix.
Proof.
  intros Hp. unfold strip_namespace, substring_from. split.
  - change (":" +:+ local) with (String colon local).
    rewrite (indexOf_colon_first _ _ Hp).
    replace (Z.to_nat (Z.max 0 (Z.of_nat (String.length prefix) + 1)))
      with (S (String.length prefix)) by lia.
    change (String colon local) with (String colon EmptyString +:+ local).
    rewrite <- append_assoc.
    replace (S (String.length prefix))
      with (String.length (prefix +:+ String colon EmptyString)).
    + apply drop_chars_app.
    + clear Hp. induction prefix as [|c p IH]; [done|].
      change (String c p +:+ String colon EmptyString)
        with (String c (p +:+ String colon EmptyString)).
      cbn [String.length]. by rewrite IH.
  - by rewrite (indexOf_colon_none _ Hp).
Qed.

Lemma strip_namespace_prefix_witness :
  strip_namespace ("dial" +:+ ":" +:+ "state") = "state" ∧ strip_namespace "dial" = "dial".
Proof. apply (strip_namespace_prefix "dial" "state"). reflexivity. Defined.

(** Only the first colon counts: what follows it is kept whole. *)
Example strip_namespace_second_colon :
  strip_namespace "a:b:c" = "b:c" ∧ strip_namespace ":x" = "x" ∧ strip_namespace "x:" = "".
Proof. vm_compute. done. Qed.

Lemma encode_length_le (s : jsstring) :
  Forall (λ c, (c < 0x10000)%N) s →
  (List.length (Utf8.encode s) ≤ 3 * List.length s)%nat.
Proof.
  unfold Utf8.encode.
  induction s as [s IH] using (well_founded_induction
    (well_founded_ltof _ (@List.length N))). unfold ltof in IH.
  intros Hs. destruct s as [|c rest]; [cbn; lia|].
  apply Forall_cons in Hs as [Hc Hrest].
  cbn [Utf8.code_points].
  destruct (Utf8.is_high_surrogate c) eqn:Hh.
  - destruct rest as [|d rest']; [cbn; lia|].
    apply Forall_cons in Hrest as [Hd Hrest'].
    destruct (Utf8.is_low_surrogate d) eqn:Hl; cbn [flat_map]; rewrite length_app.
    + specialize (IH rest'). cbn [List.length] in *.
      pose proof (encode_code_point_length (65536 + (c - 55296) * 1024 + (d - 56320))).
      specialize (IH ltac:(lia) Hrest'). lia.
    + specialize (IH (d :: rest')). cbn [List.length] in *.
      change (List.length (Utf8.encode_code_point 65533)) with 3%nat.
      specialize (IH ltac:(lia) ltac:(by constructor)). lia.
  - specialize (IH rest). cbn [List.length] in *. specialize (IH ltac:(lia) Hrest).
    destruct (Utf8.is_low_surrogate c) eqn:Hl; cbn [flat_map]; rewrite length_app.
    + change (List.length (Utf8.encode_code_point 65533)) with 3%nat. lia.
    + assert (List.length (Utf8.encode_code_point c) ≤ 3)%nat; [|lia].
      unfold Utf8.encode_code_point.
      destruct (N.ltb_spec c 128); [cbn; lia|].
      destruct (N.ltb_spec c 2048); [cbn; lia|].
      destruct (N.ltb_spec c 65536); [cbn; lia | lia].
Qed.

(** X17: the request of [launchApp] declares the length of what it
    writes.  The body is written exactly when the payload is neither null
    nor empty, and it is the payload; CONTENT-LENGTH is the UTF-8 length of
    the written body, or 0 when nothing is written; for a written body of
    UTF-16 code units it lies between 1 and three times the number of code
    units. *)
Theorem launchApp_declares_written_length (parseURL : string → option URL.t)
  (dev : DialDevice) (appName url : string) (u : URL.t)
  (launchData : option jsstring) (contentType : option string) (answer : HttpOutcome) :
  applicationUrl dev = Some url → url ≠ "" → appName ≠ "" →
  parseURL (url +:+ "/" +:+ appName) = Some u →
  ∃ options written,
    request_of (launchApp parseURL dev appName launchData contentType answer)
      = Some (options, written) ∧
    RequestOptions.headers options !! "CONTENT-LENGTH" =
      Some (VNum (match written with Some s => Buffer_byteLength s | None => 0 end)) ∧
    (written = None ↔ launchData = None ∨ launchData = Some []) ∧
    (∀ s, written = Some s →
       launchData = Some s ∧ 1 ≤ Buffer_byteLength s ∧
       (Forall (λ c, (c < 0x10000)%N) s → Buffer_byteLength s ≤ 3 * js_length s)) ∧
    RequestOptions.host options = URL.hostname u ∧
    RequestOptions.port options = URL.port u ∧
    RequestOptions.path options = URL.pathname u +:+ URL.search u.
Proof.
  intros Hurl Hne Hname Hparse.
  destruct (app_url_some dev appName url Hurl Hne Hname) as [Happ Htruthy].
  unfold launchApp. rewrite Happ, Htruthy, Hparse. cbn [negb request_of].
  eexists _, _. split; [reflexivity|].
  cbn [RequestOptions.headers RequestOptions.host RequestOptions.port RequestOptions.path].
  rewrite lookup_insert_ne by done. rewrite lookup_insert_eq.
  destruct launchData as [[|c s]|]; cbn [truthy_js content_length].
  - split; [done|]. split; [split; eauto|]. split; [discriminate | done].
  - split; [done|]. split; [split; [done | intros [[=] | [=]]]|]. split; [|done].
    intros ? [= <-]. split; [done|]. split.
    + pose proof (Buffer_byteLength_ge_length (c :: s)).
      unfold js_length in *. cbn [List.length] in *. lia.
    + intros Hvalid. pose proof (encode_length_le (c :: s) Hvalid).
      unfold Buffer_byteLength, js_length. lia.
  - split; [done|]. split; [split; eauto|]. split; [discriminate | done].
Qed.

Lemma launchApp_declares_written_length_witness :
  ∃ options written,
    request_of (launchApp any_parseURL demo_device "YouTube"
                  (Some [0x76; 0x3D; 0x20AC]%N) None (Responded 201 []))
      = Some (options, written) ∧
    RequestOptions.headers options !! "CONTENT-LENGTH" =
      Some (VNum (match written with Some s => Buffer_byteLength s | None => 0 end)) ∧
    (written = None ↔ Some [0x76; 0x3D; 0x20AC]%N = None ∨
                      Some [0x76; 0x3D; 0x20AC]%N = Some []) ∧
    (∀ s, written = Some s →
       Some [0x76; 0x3D; 0x20AC]%N = Some s ∧ 1 ≤ Buffer_byteLength s ∧
       (Forall (λ c, (c < 0x10000)%N) s → Buffer_byteLength s ≤ 3 * js_length s)) ∧
    RequestOptions.host options = "192.168.1.20" ∧
    RequestOptions.port options = "3000" ∧
    RequestOptions.path options = "/" +:+ "".
Proof.
  apply (launchApp_declares_written_length any_parseURL demo_device "YouTube"
           "http://192.168.1.20:3000/dial/apps"
           {| URL.href := "http://192.168.1.20:3000/dial/apps/YouTube";
              URL.protocol := "http:";
              URL.hostname := "192.168.1.20"; URL.port := "3000";
              URL.pathname := "/"; URL.search := "" |});
    (reflexivity || discriminate).
Defined.

(** ** Discovering a device and addressing it *)

Lemma ends_with_slash_app (a b : string) :
  b ≠ "" → ends_with_slash (a +:+ b) = ends_with_slash b.
Proof.
  intros Hb. induction a as [|c a IH]; [done|].
  change (String c a +:+ b) with (String c (a +:+ b)).
  cbn [ends_with_slash]. destruct (a +:+ b) eqn:Hab; [|done].
  by apply append_eq_empty in Hab as [_ ?].
Qed.

Lemma drop_last_snoc (a : string) (c : Ascii.ascii) :
  drop_last (a +:+ String c EmptyString) = a.
Proof.
  induction a as [|x a IH]; [done|].
  change (String x a +:+ String c EmptyString) with (String x (a +:+ String c EmptyString)).
  cbn [drop_last]. destruct (a +:+ String c EmptyString) eqn:Hab.
  - by apply append_eq_empty in Hab as [_ ?].
  - by rewrite IH.
Qed.

Lemma strip_trailing_slash_snoc (a : string) : strip_trailing_slash (a +:+ "/") = a.
Proof.
  unfold strip_trailing_slash. rewrite ends_with_slash_app by done.
  cbn. apply drop_last_snoc.
Qed.

Lemma strip_trailing_slash_apps (a : string) :
  strip_trailing_slash (a +:+ "/apps") = a +:+ "/apps".
Proof. unfold strip_trailing_slash. by rewrite ends_with_slash_app. Qed.

(** X18: [getDialDevice] on a description URL that is a valid [http:]
    address issues one request and calls back once, with a device or else
    an error, unless the caller's callback throws when it is handed the
    device: then it is called a second time, with the error it threw.  A
    device is handed out only for a 200 answer with a non-empty
    [Application-URL] header; its description URL is the one fetched and
    its application URL is the header without one trailing slash, so the
    headers [base/] and [base] give the same application URL.  Any other
    status, a missing header and a description without a device give an
    error. *)
Theorem getDialDevice_result (parseURL : string → option URL.t)
  (parseString : string → XmlParse Description)
  (callback_throws : DialDevice * list IconInfo.t → option Error)
  (deviceDescriptionUrl : string) (u : URL.t) (answer : DescOutcome) :
  parseURL deviceDescriptionUrl = Some u → URL.protocol u = "http:" →
  let result :=
    getDialDevice parseURL parseString callback_throws deviceDescriptionUrl answer in
  http_count result = 1%nat ∧
  ((∀ d, callback_throws d = None) → calls_back_once result) ∧
  (∃ r e rest, callbacks result = (r, e) :: rest ∧ (r = None ↔ is_Some e) ∧
     rest = match r with
            | Some d => match callback_throws d with
                        | Some thrown => [(None, Some thrown)]
                        | None => []
                        end
            | None => []
            end) ∧
  (∀ dev icons rest, callbacks result = (Some (dev, icons), None) :: rest →
     descriptionUrl dev = Some deviceDescriptionUrl ∧
     ∃ header chunks, answer = DescResponded 200 (Some header) chunks ∧ header ≠ "" ∧
                      applicationUrl dev = Some (strip_trailing_slash header)) ∧
  (∀ base chunks info, answer = DescResponded 200 (Some (base +:+ "/")) chunks →
     parseString (String.concat "" chunks) = XmlParsed (Device info) →
     ∃ dev icons rest, callbacks result = (Some (dev, icons), None) :: rest ∧
                       applicationUrl dev = Some base ∧
                       friendlyName dev = DeviceInfo.friendlyName info ∧
                       UDN dev = DeviceInfo.UDN info) ∧
  (∀ statusCode header chunks, answer = DescResponded statusCode header chunks →
     statusCode ≠ 200 ∨ header = None ∨ header = Some "" →
     ∃ err, callbacks result = [(None, Some err)]) ∧
  (∀ statusCode header chunks doc, answer = DescResponded statusCode header chunks →
     parseString (String.concat "" chunks) = XmlParsed doc →
     (∀ info, doc ≠ Device info) →
     ∃ err, callbacks result = [(None, Some err)]).
Proof.
  intros Hp Hhttp result. subst result. unfold getDialDevice, calls_back_once.
  rewrite (http_get_accepts_true _ _ _ Hp Hhttp).
  cbn [callbacks flat_map app http_count List.filter is_http].
  split; [|split; [|split; [|split; [|split; [|split]]]]].
  - destruct answer as [statusCode header chunks|err]; cbn; [|done].
    destruct (Z.eqb statusCode 200 && truthy_ostr header); cbn; [|done].
    destruct (parseString (String.concat "" chunks)) as [e|[| | |text|info]]; try done.
    cbn. by destruct (callback_throws _).
  - intros Hreturns. destruct answer as [statusCode header chunks|err]; cbn.
    + destruct (Z.eqb statusCode 200 && truthy_ostr header); cbn.
      * destruct (parseString (String.concat "" chunks)) as [e|[| | |text|info]]; cbn;
          rewrite ?Hreturns; cbn;
          eexists _, _; (split; [done|]);
          (apply result_xor_error_r || apply result_xor_error_l).
      * eexists _, _. split; [done|]. apply result_xor_error_l.
    + eexists _, _. split; [done|]. apply result_xor_error_l.
  - destruct answer as [statusCode header chunks|err]; cbn.
    + destruct (Z.eqb statusCode 200 && truthy_ostr header); cbn.
      * destruct (parseString (String.concat "" chunks)) as [e|[| | |text|info]]; cbn.
        1-5: eexists _, _, _; (split; [done|]); split;
               [apply result_xor_error_l | done].
        eexists _, _, _. split; [done|]. split; [apply result_xor_error_r|].
        by destruct (callback_throws _).
      * eexists _, _, _. split; [done|]. split; [apply result_xor_error_l | done].
    + eexists _, _, _. split; [done|]. split; [apply result_xor_error_l | done].
  - intros dev icons rest. destruct answer as [statusCode header chunks|err]; cbn; [|done].
    destruct (Z.eqb_spec statusCode 200) as [->|]; cbn [andb]; [|done].
    destruct header as [h|]; cbn [truthy_ostr]; [|done].
    destruct (truthy_str h) eqn:Hh; [|done]. apply truthy_str_true in Hh.
    destruct (parseString (String.concat "" chunks)) as [e|[| | |text|info]]; cbn; try done.
    intros [= <- <- _]. split; [done|]. eauto.
  - intros base chunks info -> Hparse. cbn.
    assert (truthy_str (base +:+ "/") = true) as ->.
    { apply truthy_str_true. intros [_ [=]]%append_eq_empty. }
    rewrite Hparse. cbn. eexists _, _, _. split; [done|].
    by rewrite strip_trailing_slash_snoc.
  - intros statusCode header chunks -> Hbad. cbn.
    assert (Z.eqb statusCode 200 && truthy_ostr header = false) as ->.
    { destruct Hbad as [Hs | [-> | ->]].
      - destruct (Z.eqb_spec statusCode 200); done.
      - by rewrite andb_false_r.
      - by rewrite andb_false_r. }
    cbn. eauto.
  - intros statusCode header chunks doc -> Hparse Hdoc. cbn.
    destruct (Z.eqb statusCode 200 && truthy_ostr header); cbn; [|eauto].
    rewrite Hparse. destruct doc as [| | |text|info]; cbn; eauto.
    by destruct (Hdoc info).
Qed.

(** X18 at the demo server's description, the callback returning. *)
Lemma getDialDevice_result_witness :
  let url := "http://192.168.1.20:3000/dial/ssdp/device-desc.xml" in
  let answer := DescResponded 200 (Some "http://192.168.1.20:3000/dial/apps/") ["<root/>"] in
  let result := getDialDevice any_parseURL demo_parseString callback_returns url answer in
  http_count result = 1%nat ∧ calls_back_once result ∧
  ∃ dev icons, callbacks result = [(Some (dev, icons), None)] ∧
               descriptionUrl dev = Some url ∧
               applicationUrl dev = Some "http://192.168.1.20:3000/dial/apps".
Proof.
  destruct (getDialDevice_result any_parseURL demo_parseString callback_returns
           "http://192.168.1.20:3000/dial/ssdp/device-desc.xml"
           {| URL.href := "http://192.168.1.20:3000/dial/ssdp/device-desc.xml";
              URL.protocol := "http:";
              URL.hostname := "192.168.1.20"; URL.port := "3000";
              URL.pathname := "/"; URL.search := "" |}
           (DescResponded 200 (Some "http://192.168.1.20:3000/dial/apps/") ["<root/>"])
           eq_refl eq_refl) as (Hcount & Honce & _ & _ & _ & _ & _).
  split; [exact Hcount|]. split; [exact (Honce (λ _, eq_refl))|].
  eexists _, _. repeat split.
Defined.

(** A callback that throws when it is handed the device is called again,
    with the error it threw. *)
Example getDialDevice_callback_throws :
  let url := "http://192.168.1.20:3000/dial/ssdp/device-desc.xml" in
  let answer := DescResponded 200 (Some "http://192.168.1.20:3000/dial/apps/") ["<root/>"] in
  ∃ dev,
    callbacks (getDialDevice any_parseURL demo_parseString
                 (λ _, Some (mkError "listener failed")) url answer) =
      [(Some dev, None); (None, Some (mkError "listener failed"))].
Proof. eexists. vm_compute. reflexivity. Qed.

Lemma post_app_location {Store} (srv : Server.t Store) (req : Request.t) (σ : Store)
  (info : AppInfo.t)
  (hook : Request.t → string → option string → Store →
          list (option string * option Error) * Store) (p : string) :
  reported srv req σ = Some info → within_limit srv req →
  ServerDelegate.launchApp (Server.delegate srv) = Some hook →
  (hook req (Request.appName req) (or_ostr (Request.text req) None)
        (store_after_get srv req σ)).1 = [(Some p, None)] →
  p ≠ "" →
  response_header "LOCATION" (post_app srv req σ).1 =
    Some (base_url srv req +:+ "/apps/" +:+ Request.appName req +:+ "/" +:+ p).
Proof.
  intros Hrep Hlim%within_limit_not_too_large Hhook Hreply Hp%truthy_str_true.
  unfold post_app. rewrite Hlim, Hhook.
  split_lookup srv req σ; [|discriminate]. subst r.
  destruct (hook req (Request.appName req) (or_ostr (Request.text req) None) σ1)
    as [replies σ2]. cbn [fst] in Hreply. subst replies.
  cbn [fst app map complete_all]. unfold launch_callback. cbn [fst snd truthy_ostr].
  rewrite Hp. cbn. done.
Qed.

(** X19: the server and the client agree on addresses.  The description
    route answers 200 with [Application-URL] set to the base URL followed by
    [/apps]; a device built by [getDialDevice] from that answer, fetched
    from an [http:] address, has this
    address as its application URL, so it launches an application at
    [base/apps/{name}]; and when a launch of that application, requested
    under the same base URL, returns a pid, the LOCATION header of the
    answer is exactly the URL at which the device's [stopApp] deletes that
    pid. *)
Theorem launched_location_is_stop_url {Store} (parseURL : string → option URL.t)
  (parseString : string → XmlParse Description)
  (callback_throws : DialDevice * list IconInfo.t → option Error)
  (srv : Server.t Store) (names : ServerNames.t) (req_desc req : Request.t)
  (deviceDescriptionUrl : string) (u : URL.t) (doc : DeviceInfo.t)
  (σ : Store) (info : AppInfo.t)
  (hook : Request.t → string → option string → Store →
          list (option string * option Error) * Store) (p : string) :
  let desc := get_device_desc srv names req_desc in
  parseURL deviceDescriptionUrl = Some u → URL.protocol u = "http:" →
  parseString (String.concat "" (option_list (response_body desc)))
    = XmlParsed (Device doc) →
  base_url srv req_desc = base_url srv req →
  Request.appName req ≠ "" →
  reported srv req σ = Some info → within_limit srv req →
  ServerDelegate.launchApp (Server.delegate srv) = Some hook →
  (hook req (Request.appName req) (or_ostr (Request.text req) None)
        (store_after_get srv req σ)).1 = [(Some p, None)] →
  p ≠ "" →
  response_status desc = Some 200 ∧
  response_header "Application-URL" desc = Some (base_url srv req_desc +:+ "/apps") ∧
  ∃ dev icons rest,
    callbacks (getDialDevice parseURL parseString callback_throws deviceDescriptionUrl
                 (description_answer desc)) = (Some (dev, icons), None) :: rest ∧
    applicationUrl dev = Some (base_url srv req_desc +:+ "/apps") ∧
    app_url dev (Request.appName req) =
      Some (base_url srv req +:+ "/apps/" +:+ Request.appName req) ∧
    response_header "LOCATION" (post_app srv req σ).1 =
      stop_url dev (Request.appName req) p.
Proof.
  intros desc Hp Hhttp Hparse Hbase Hname Hrep Hlim Hhook Hreply Hpid.
  split; [done|]. split; [done|].
  unfold getDialDevice, description_answer.
  rewrite (http_get_accepts_true _ _ _ Hp Hhttp).
  change (response_status desc) with (Some 200).
  change (response_header "Application-URL" desc)
    with (Some (base_url srv req_desc +:+ "/apps")).
  cbn [default Z.eqb Pos.eqb andb truthy_ostr show_ostr].
  assert (truthy_str (base_url srv req_desc +:+ "/apps") = true) as ->.
  { apply truthy_str_true. intros [_ [=]]%append_eq_empty. }
  rewrite Hparse, strip_trailing_slash_apps. cbn [callbacks flat_map app].
  eexists _, _, _. split; [reflexivity|].
  cbn [DialDevice_new applicationUrl DeviceInfo.applicationUrl].
  split; [done|].
  assert (Hdev : ∀ dev, applicationUrl dev = Some (base_url srv req_desc +:+ "/apps") →
    app_url dev (Request.appName req) =
      Some (base_url srv req +:+ "/apps/" +:+ Request.appName req) ∧
    stop_url dev (Request.appName req) p =
      Some (base_url srv req +:+ "/apps/" +:+ Request.appName req +:+ "/" +:+ p)).
  { intros dev Hdev.
    assert (Hne : base_url srv req_desc +:+ "/apps" ≠ "") by
      (intros [_ [=]]%append_eq_empty).
    destruct (app_url_some dev _ _ Hdev Hne Hname) as [-> _].
    rewrite (stop_url_some dev _ p _ Hdev Hne Hname Hpid).
    rewrite Hbase, !append_assoc. done. }
  destruct (Hdev (DialDevice_new
    {| DeviceInfo.descriptionUrl := Some deviceDescriptionUrl;
       DeviceInfo.applicationUrl := Some (base_url srv req_desc +:+ "/apps");
       DeviceInfo.deviceType := DeviceInfo.deviceType doc;
       DeviceInfo.friendlyName := DeviceInfo.friendlyName doc;
       DeviceInfo.manufacturer := DeviceInfo.manufacturer doc;
       DeviceInfo.modelName := DeviceInfo.modelName doc;
       DeviceInfo.UDN := DeviceInfo.UDN doc;
       DeviceInfo.iconList := DeviceInfo.iconList doc |}) eq_refl) as [Happ Hstop].
  split; [exact Happ|]. rewrite Hstop.
  by eapply post_app_location.
Qed.

Lemma launched_location_is_stop_url_witness :
  let req := demo_request "YouTube" None (Some "v=YE7VzlLtp-4") (Some 13) in
  let req_desc := demo_request "" None None None in
  let desc := get_device_desc demo_server demo_names req_desc in
  response_status desc = Some 200 ∧
  response_header "Application-URL" desc = Some (base_url demo_server req_desc +:+ "/apps") ∧
  ∃ dev icons rest,
    callbacks (getDialDevice any_parseURL demo_parseString callback_returns
                 "http://192.168.1.20:3000/dial/ssdp/device-desc.xml"
                 (description_answer desc)) = (Some (dev, icons), None) :: rest ∧
    applicationUrl dev = Some (base_url demo_server req_desc +:+ "/apps") ∧
    app_url dev (Request.appName req) =
      Some (base_url demo_server req +:+ "/apps/" +:+ Request.appName req) ∧
    response_header "LOCATION" (post_app demo_server req demo_apps).1 =
      stop_url dev (Request.appName req) "run".
Proof.
  refine (launched_location_is_stop_url any_parseURL demo_parseString callback_returns
    demo_server demo_names
    (demo_request "" None None None)
    (demo_request "YouTube" None (Some "v=YE7VzlLtp-4") (Some 13))
    "http://192.168.1.20:3000/dial/ssdp/device-desc.xml"
    {| URL.href := "http://192.168.1.20:3000/dial/ssdp/device-desc.xml";
       URL.protocol := "http:";
       URL.hostname := "192.168.1.20"; URL.port := "3000";
       URL.pathname := "/"; URL.search := "" |}
    {| DeviceInfo.descriptionUrl := None; DeviceInfo.applicationUrl := None;
       DeviceInfo.deviceType := Some DIAL_DEVICE;
       DeviceInfo.friendlyName := Some "living room";
       DeviceInfo.manufacturer := Some "Fraunhofer FOKUS";
       DeviceInfo.modelName := Some "DIAL Demo Server";
       DeviceInfo.UDN := Some "uuid:6e1f0b2c-7c1d-4c57-9d53-0c8a1f4e2b90";
       DeviceInfo.iconList := None |}
    demo_apps
    {| AppInfo.name := "YouTube"; AppInfo.state := Some "stopped";
       AppInfo.pid := None; AppInfo.allowStop := Some true;
       AppInfo.additionalData := None; AppInfo.namespaces := None |}
    demo_launchApp "run" _ _ _ _ _ _ _ _ _ _).
  - reflexivity.
  - reflexivity.
  - reflexivity.
  - reflexivity.
  - discriminate.
  - reflexivity.
  - intros n [= <-]. vm_compute. discriminate.
  - reflexivity.
  - reflexivity.
  - discriminate.
Defined.

(** ** More on the [Client] *)

Lemma found_fresh (h : SsdpHeaders) (c : Client.t) (loc : string) :
  unseen_location c h loc → records (Client.PeerFound h) c loc h.
Proof.
  intros Hf. destruct (on_found_cases h c) as [(l & Hl & Hr) | [Hno _]].
  - destruct Hf as (H1 & _), Hl as (H2 & _). by simplify_eq.
  - by apply Hno in Hf.
Qed.

Lemma found_known (h : SsdpHeaders) (c : Client.t) (loc : string) :
  h !! "LOCATION" = Some loc → is_Some (Client.read_service c loc) →
  ignored (Client.PeerFound h) c.
Proof.
  intros Hl [old Hold]. destruct (on_found_cases h c) as [(l & Hf & _) | [_ Hi]]; [|done].
  destruct Hf as (H1 & _ & H3). simplify_eq.
Qed.

Lemma notify_alive_known (h : SsdpHeaders) (c : Client.t) (loc : string) :
  h !! "NTS" = Some "ssdp:alive" → h !! "LOCATION" = Some loc →
  is_Some (Client.read_service c loc) → ignored (Client.PeerNotify h) c.
Proof.
  intros Hnts Hl [old Hold].
  destruct (on_notify_alive_cases h c Hnts) as [(l & _ & Hf & _) | [_ Hi]]; [|done].
  destruct Hf as (H1 & _ & H3). simplify_eq.
Qed.

Lemma notify_byebye_known (h : SsdpHeaders) (service : Client.Service) (c : Client.t)
  (loc : string) :
  Client.tracked (h !! "NT") = true → h !! "NTS" = Some "ssdp:byebye" →
  h !! "LOCATION" = Some loc → loc ≠ "" → Client.read_service c loc = Some service →
  Client.step (Client.PeerNotify h) c =
    ([Client.EmitDisappear loc service],
     {| Client.services := delete loc (Client.services c) |}).
Proof.
  intros Hnt Hnts Hl Hne%truthy_str_true Hs. cbn [Client.step]. unfold Client.on_notify.
  rewrite Hnt, Hl, Hnts, Hs, Hne.
  rewrite (bool_decide_eq_false_2 (Some "ssdp:byebye" = Some "ssdp:alive")) by done.
  by rewrite (bool_decide_eq_true_2 _ eq_refl).
Qed.

Lemma notify_found_location (h : SsdpHeaders) (c : Client.t) (loc : string)
  (h' : SsdpHeaders) (c' : Client.t) :
  Client.on_notify h c = ([Client.EmitFound loc h'], c') →
  h' = h ∧ h !! "LOCATION" = Some loc ∧ loc ≠ "".
Proof.
  unfold Client.on_notify.
  destruct (Client.tracked (h !! "NT")); [|discriminate].
  destruct (h !! "LOCATION") as [l|]; [|discriminate].
  destruct (truthy_str l) eqn:Ht; cbn [andb].
  - apply truthy_str_true in Ht.
    destruct (_ && _).
    + by intros [= <- <- <-].
    + destruct (Client.read_service c l); [|discriminate].
      destruct (bool_decide _); discriminate.
  - destruct (Client.read_service c l); discriminate.
Qed.

(** X20: the table of the client is what its listeners were told: at
    the end of every run in which no event carries a location that is the
    name of a member of [Object.prototype], the recorded locations and
    headers are exactly those for which "found" was emitted and no
    "disappear" since, counted from the last [refresh()]. *)
Theorem client_table_is_what_was_emitted (es : list Client.Event) (c : Client.t) :
  Forall (λ e, plain_event e = true) es →
  replay (Client.services c) (Client.run es c).1 = Some (Client.services (Client.run es c).2).
Proof.
  revert c. induction es as [|e es IH]; intros c Hplain; [done|].
  apply Forall_cons in Hplain as [He_plain Hplain].
  cbn [Client.run].
  destruct (Client.step e c) as [acts c1] eqn:Hstep.
  specialize (IH c1 Hplain).
  destruct (Client.run es c1) as [log c2]. cbn [fst snd replay] in *.
  destruct (is_refresh e) eqn:He.
  - destruct e; try discriminate. cbn in Hstep. injection Hstep as <- <-. cbn. apply IH.
  - pose proof (step_observed e c He_plain He) as Hobs. rewrite Hstep in Hobs. cbn in Hobs.
    rewrite Hobs. apply IH.
Qed.

(** X20 on a run with two devices, one of which goes away. *)
Lemma client_table_is_what_was_emitted_witness :
  let tv : SsdpHeaders :=
    {[ "LOCATION" := "http://192.168.1.20:3000/dial/ssdp/device-desc.xml";
       "NT" := DIAL_DEVICE; "NTS" := "ssdp:alive" ]} in
  let box : SsdpHeaders :=
    {[ "LOCATION" := "http://192.168.1.21:8008/ssdp/device-desc.xml";
       "ST" := DIAL_SERVICE ]} in
  let gone : SsdpHeaders :=
    {[ "LOCATION" := "http://192.168.1.20:3000/dial/ssdp/device-desc.xml";
       "NT" := DIAL_DEVICE; "NTS" := "ssdp:byebye" ]} in
  let es := [Client.PeerNotify tv; Client.PeerFound box; Client.PeerNotify gone] in
  replay ∅ (Client.run es Client.new).1 = Some (Client.services (Client.run es Client.new).2) ∧
  Client.services (Client.run es Client.new).2 =
    {[ "http://192.168.1.21:8008/ssdp/device-desc.xml" := box ]}.
Proof.
  intros tv box gone es. split.
  - apply (client_table_is_what_was_emitted es Client.new).
    repeat (apply List.Forall_cons; [reflexivity|]). apply List.Forall_nil.
  - vm_compute. reflexivity.
Defined.

Lemma step_keyed (e : Client.Event) (c : Client.t) :
  keyed_by_location c → keyed_by_location (Client.step e c).2.
Proof.
  intros Hc. unfold keyed_by_location in *.
  assert (Hins : ∀ l h, h !! "LOCATION" = Some l → l ≠ "" →
            ∀ loc h0, <[l := h]> (Client.services c) !! loc = Some h0 →
                      loc ≠ "" ∧ h0 !! "LOCATION" = Some loc).
  { intros l h Hl Hne loc h0. rewrite lookup_insert. case_decide as Heq.
    - intros [= <-]. by subst.
    - apply Hc. }
  destruct e as [|h|h| | | |]; try exact Hc; cbn [Client.step].
  - destruct (on_found_cases h c) as [(l & (Hl & Hne & _) & Hr) | [_ Hi]].
    + unfold records in Hr. cbn [Client.step] in Hr. rewrite Hr. by apply Hins.
    + unfold ignored in Hi. cbn [Client.step] in Hi. by rewrite Hi.
  - destruct (on_notify_cases h c)
      as [-> | [(l & _ & _ & Heq) | (l & s & _ & _ & ->)]]; [done| |].
    + destruct (notify_found_location _ _ _ _ _ Heq) as (_ & Hl & Hne).
      rewrite Heq. by apply Hins.
    + cbn. intros loc h0 Hd. apply lookup_delete_Some in Hd as [_ Hd]. by apply Hc.
  - cbn. intros loc h0. by rewrite lookup_empty.
Qed.

Lemma run_keyed (es : list Client.Event) (c : Client.t) :
  keyed_by_location c → keyed_by_location (Client.run es c).2.
Proof.
  revert c. induction es as [|e es IH]; intros c Hc; [done|].
  cbn [Client.run]. pose proof (step_keyed e c Hc) as Hstep.
  destruct (Client.step e c) as [acts c1]. specialize (IH c1 Hstep).
  by destruct (Client.run es c1).
Qed.

(** X21: a client that starts empty never records an entry under an
    empty key, and every recorded entry sits under the location that its
    own headers announce. *)
Theorem client_records_keyed_by_location (es : list Client.Event) :
  keyed_by_location (Client.run es Client.new).2.
Proof.
  apply run_keyed. intros loc h. cbn. by rewrite lookup_empty.
Qed.

(** X22: the first announcement of a location is the one that is kept
    (the location not being the name of a member of [Object.prototype]).
    After a location is found, further search replies and alive
    notifications for it, whatever their other headers, change nothing and
    emit nothing; the byebye of a tracked type for it then emits
    "disappear" with the headers of the first announcement and leaves the
    table as it was before the location was found. *)
Theorem first_announcement_is_kept (c : Client.t) (first again alive byebye : SsdpHeaders)
  (loc : string) :
  first !! "LOCATION" = Some loc → loc ≠ "" → inherited loc = false →
  Client.services c !! loc = None →
  again !! "LOCATION" = Some loc →
  alive !! "LOCATION" = Some loc → alive !! "NTS" = Some "ssdp:alive" →
  byebye !! "LOCATION" = Some loc → byebye !! "NTS" = Some "ssdp:byebye" →
  Client.tracked (byebye !! "NT") = true →
  let result := Client.run [Client.PeerFound first; Client.PeerFound again;
                            Client.PeerNotify alive; Client.PeerNotify byebye] c in
  Client.actions result.1 =
    [Client.EmitFound loc first; Client.EmitDisappear loc (Client.Stored first)] ∧
  Client.services result.2 = Client.services c.
Proof.
  intros Hfirst Hne Hplain Hnone Hagain Halive Hnts Hbye Hbnts Hnt result. subst result.
  assert (Hunseen : unseen_location c first loc).
  { split; [done|]. split; [done|]. by apply read_service_none. }
  pose proof (found_fresh first c loc Hunseen) as H1.
  unfold records in H1. cbn [Client.run]. rewrite H1.
  set (c1 := {| Client.services := <[loc := first]> (Client.services c) |}).
  assert (Hknown : Client.read_service c1 loc = Some (Client.Stored first)).
  { unfold Client.read_service. cbn. by rewrite lookup_insert_eq. }
  pose proof (found_known again c1 loc Hagain (mk_is_Some _ _ Hknown)) as H2.
  unfold ignored in H2. rewrite H2.
  pose proof (notify_alive_known alive c1 loc Hnts Halive (mk_is_Some _ _ Hknown)) as H3.
  unfold ignored in H3. rewrite H3.
  rewrite (notify_byebye_known byebye _ c1 loc Hnt Hbnts Hbye Hne Hknown).
  cbn. split; [done|]. by apply delete_insert_id.
Qed.

Lemma first_announcement_is_kept_witness :
  let loc := "http://192.168.1.20:3000/dial/ssdp/device-desc.xml" in
  let first : SsdpHeaders := {[ "LOCATION" := loc; "ST" := DIAL_DEVICE ]} in
  let again : SsdpHeaders := {[ "LOCATION" := loc; "ST" := DIAL_SERVICE ]} in
  let alive : SsdpHeaders :=
    {[ "LOCATION" := loc; "NT" := DIAL_SERVICE; "NTS" := "ssdp:alive" ]} in
  let byebye : SsdpHeaders :=
    {[ "LOCATION" := loc; "NT" := DIAL_SERVICE; "NTS" := "ssdp:byebye" ]} in
  let result := Client.run [Client.PeerFound first; Client.PeerFound again;
                            Client.PeerNotify alive; Client.PeerNotify byebye]
                           Client.new in
  Client.actions result.1 =
    [Client.EmitFound loc first; Client.EmitDisappear loc (Client.Stored first)] ∧
  Client.services result.2 = Client.services Client.new.
Proof.
  apply (first_announcement_is_kept Client.new
    {[ "LOCATION" := "http://192.168.1.20:3000/dial/ssdp/device-desc.xml";
       "ST" := DIAL_DEVICE ]}
    {[ "LOCATION" := "http://192.168.1.20:3000/dial/ssdp/device-desc.xml";
       "ST" := DIAL_SERVICE ]}
    {[ "LOCATION" := "http://192.168.1.20:3000/dial/ssdp/device-desc.xml";
       "NT" := DIAL_SERVICE; "NTS" := "ssdp:alive" ]}
    {[ "LOCATION" := "http://192.168.1.20:3000/dial/ssdp/device-desc.xml";
       "NT" := DIAL_SERVICE; "NTS" := "ssdp:byebye" ]}
    "http://192.168.1.20:3000/dial/ssdp/device-desc.xml");
    (vm_compute; reflexivity) || discriminate.
Defined.

Lemma inherited_nonempty (loc : string) : inherited loc = true → loc ≠ "".
Proof. by intros H ->. Qed.

(** X26: a location that is the name of a member of [Object.prototype]
    (such as [constructor] or [toString]) and is not recorded reads as
    recorded: a search reply and an alive notification for it are
    ignored, whatever they announce, and a byebye of a tracked type for
    it emits "disappear" with that member in place of the headers and
    leaves the table as it is. *)
Theorem prototype_named_location (c : Client.t) (h : SsdpHeaders) (loc : string) :
  h !! "LOCATION" = Some loc → inherited loc = true → Client.services c !! loc = None →
  ignored (Client.PeerFound h) c ∧
  (h !! "NTS" ≠ Some "ssdp:byebye" → ignored (Client.PeerNotify h) c) ∧
  (Client.tracked (h !! "NT") = false → ignored (Client.PeerNotify h) c) ∧
  (h !! "NTS" = Some "ssdp:byebye" → Client.tracked (h !! "NT") = true →
     Client.step (Client.PeerNotify h) c =
       ([Client.EmitDisappear loc (Client.Member loc)], c)).
Proof.
  intros Hloc Hin Hnone.
  assert (Hread : Client.read_service c loc = Some (Client.Member loc)).
  { unfold Client.read_service. by rewrite Hnone, Hin. }
  pose proof (inherited_nonempty loc Hin) as Hne.
  split; [by eapply found_known|]. split; [|split].
  - intros Hnts. unfold ignored. cbn [Client.step]. unfold Client.on_notify.
    destruct (Client.tracked (h !! "NT")); [|done].
    rewrite Hloc, Hread.
    rewrite (bool_decide_eq_true_2 (is_Some (Some (Client.Member loc)))) by eauto.
    cbn [negb]. rewrite andb_false_r.
    by rewrite (bool_decide_eq_false_2 (h !! "NTS" = Some "ssdp:byebye")), andb_false_r.
  - apply on_notify_untracked.
  - intros Hnts Hnt.
    rewrite (notify_byebye_known h _ c loc Hnt Hnts Hloc Hne Hread).
    f_equal. destruct c as [services]. cbn in *. f_equal. by apply delete_id.
Qed.

Lemma prototype_named_location_witness :
  let h : SsdpHeaders :=
    {[ "LOCATION" := "constructor"; "NT" := DIAL_DEVICE; "NTS" := "ssdp:byebye" ]} in
  Client.step (Client.PeerNotify h) Client.new =
    ([Client.EmitDisappear "constructor" (Client.Member "constructor")], Client.new).
Proof.
  exact (proj2 (proj2 (proj2 (prototype_named_location Client.new
    {[ "LOCATION" := "constructor"; "NT" := DIAL_DEVICE; "NTS" := "ssdp:byebye" ]}
    "constructor" eq_refl eq_refl eq_refl))) eq_refl eq_refl).
Defined.

(** ** Announcing, withdrawing and answering agree *)

(** X23: on "ready" the server sends one alive per service type, with NT
    the type, USN [uuid:{uuid}::{type}], LOCATION the description document
    and SERVER the server string; [stop()] withdraws with exactly the
    headers that were announced; and a search for an announced type is
    answered with the same USN, LOCATION and SERVER. *)
Theorem announce_withdraw_reply_agree {Store} (srv : Server.t Store) (os : Os) :
  map peer_headers (Server_stop srv os).1 = map peer_headers (Server_on_ready srv os) ∧
  Forall2 (λ call st,
     ∃ h, call = PeerAlive h ∧
          header_str h "NT" = Some st ∧
          header_str h "USN" = Some ("uuid:" +:+ Server.uuid srv +:+ "::" +:+ st) ∧
          header_str h "LOCATION" = Some (ssdp_location srv) ∧
          header_str h "SERVER" = Some (SERVER_STR os) ∧
          ∃ r, Server_on_search srv os (Some st) = [PeerReply r] ∧
               header_str r "USN" = header_str h "USN" ∧
               header_str r "LOCATION" = header_str h "LOCATION" ∧
               header_str r "SERVER" = header_str h "SERVER")
    (Server_on_ready srv os) (serviceTypes (Server.uuid srv)).
Proof.
  split.
  - unfold Server_stop, Server_on_ready. cbn [fst]. rewrite <- !list_fmap_compose.
    by apply list_fmap_ext.
  - unfold Server_on_ready.
    apply Forall2_fmap_l, Forall_Forall2_diag, Forall_forall.
    intros st Hin. pose proof (serviceTypes_nonempty _ _ Hin) as Hst.
    assert (Ha : ∀ k v, advert_base srv os st !! k = Some v →
                        advert_headers srv os st !! k = Some v).
    { intros k v. by apply call_sites_keep_base. }
    assert (Hr : ∀ k v, reply_base srv os st !! k = Some v →
                        reply_headers srv os st !! k = Some v).
    { intros k v. by apply call_sites_keep_base. }
    eexists. split; [done|].
    split; [by apply advert_headers_NT|]. split; [by apply advert_headers_USN|].
    unfold header_str, Server_on_search.
    rewrite (Ha "LOCATION" (VStr (ssdp_location srv))) by done.
    rewrite (Ha "SERVER" (VStr (SERVER_STR os))) by done.
    rewrite (Ha "USN" (VStr ("uuid:" +:+ Server.uuid srv +:+ "::" +:+ st))) by done.
    split; [done|]. split; [done|].
    rewrite bool_decide_eq_true_2 by done. eexists. split; [done|].
    rewrite (Hr "LOCATION" (VStr (ssdp_location srv))) by done.
    rewrite (Hr "SERVER" (VStr (SERVER_STR os))) by done.
    by rewrite (Hr "USN" (VStr ("uuid:" +:+ Server.uuid srv +:+ "::" +:+ st))) by done.
Qed.

(** ** Icons and completions *)

Lemma fold_push_icons (items : list (option (option IconInfo.t))) (acc : list IconInfo.t) :
  fold_left (λ icons item,
               match item with
               | Some (Some icon) => icons ++ [icon]
               | _ => icons
               end) items acc
  = acc ++ omap (λ item, item ≫= id) items.
Proof.
  revert acc. induction items as [|item items IH]; intros acc.
  - cbn. by rewrite app_nil_r.
  - cbn [fold_left omap]. rewrite IH.
    destruct item as [[icon|]|]; cbn; [|done..]. by rewrite <- app_assoc.
Qed.

(** X24: from an icon list given as an array the constructor collects
    the icons of the items that have one, in the order of the array; null
    items and items without icon are skipped, so there are never more icons
    than items. *)
Theorem icons_collected_in_order (deviceInfo : DeviceInfo.t)
  (items : list (option (option IconInfo.t))) :
  DeviceInfo.iconList deviceInfo = Some (IconArray items) →
  DialDevice_icons deviceInfo = omap (λ item, item ≫= id) items ∧
  (List.length (DialDevice_icons deviceInfo) ≤ List.length items)%nat ∧
  (∀ icon, icon ∈ DialDevice_icons deviceInfo ↔ Some (Some icon) ∈ items).
Proof.
  intros Hlist. unfold DialDevice_icons. rewrite Hlist, fold_push_icons. cbn [app].
  split; [done|]. split.
  { clear Hlist. induction items as [|[[?|]|] items IH]; cbn [omap list_omap]; cbn; lia. }
  intros icon. rewrite list_elem_of_omap. split.
  - intros (item & Hin & Hitem). by destruct item as [[?|]|]; simplify_eq/=.
  - intros Hin. by exists (Some (Some icon)).
Qed.

Lemma icons_collected_in_order_witness :
  DialDevice_icons icons_demo_info =
    omap (λ item, item ≫= id)
      [Some (Some (png_icon "/a.png")); None; Some None; Some (Some (png_icon "/b.png"))] ∧
  (List.length (DialDevice_icons icons_demo_info) ≤ 4)%nat ∧
  (∀ icon, icon ∈ DialDevice_icons icons_demo_info ↔
           Some (Some icon) ∈ [Some (Some (png_icon "/a.png")); None; Some None;
                               Some (Some (png_icon "/b.png"))]).
Proof.
  apply (icons_collected_in_order icons_demo_info
    [Some (Some (png_icon "/a.png")); None; Some None; Some (Some (png_icon "/b.png"))]).
  reflexivity.
Defined.

Lemma response_count_app (a b : list Effect) :
  response_count (a ++ b) = (response_count a + response_count b)%nat.
Proof. unfold response_count. by rewrite List.filter_app, length_app. Qed.

Lemma throw_count_app (a b : list Effect) :
  throw_count (a ++ b) = (throw_count a + throw_count b)%nat.
Proof. unfold throw_count. by rewrite List.filter_app, length_app. Qed.

Lemma complete_all_counts {A} (f : A → list Effect) (replies : list A) :
  (∀ a, response_count (f a) = 1%nat ∧ throw_count (f a) = 0%nat) →
  response_count (complete_all f replies) = Nat.min (List.length replies) 1 ∧
  throw_count (complete_all f replies) = Nat.pred (List.length replies).
Proof.
  intros Hf. destruct replies as [|a later]; [done|].
  cbn [complete_all List.length Nat.pred].
  rewrite response_count_app, throw_count_app. destruct (Hf a) as [-> ->].
  assert (response_count (map (λ _ : A, ThrowHeadersSent) later) = 0%nat ∧
          throw_count (map (λ _ : A, ThrowHeadersSent) later) = List.length later)
    as [-> ->].
  { clear. induction later as [|b later [IH1 IH2]]; [done|].
    unfold response_count, throw_count in *. cbn. by rewrite IH2. }
  split; [|done]. destruct later; cbn; lia.
Qed.

(** X25: the handlers send one response, however often the hook
    completes.  For a known application and a body within the limit, the
    POST handler sends no response when the launch hook never calls its
    callback and exactly one when it calls it once or more; every call
    after the first throws [ERR_HTTP_HEADERS_SENT] instead.  The DELETE
    handler does the same with the stop hook, for a stoppable application
    and a pid. *)
Theorem responses_match_completions {Store} (srv : Server.t Store) (req : Request.t)
  (σ σ1 : Store) (info : AppInfo.t)
  (get : Request.t → string → Store → option AppInfo.t * Store) :
  ServerDelegate.getApp (Server.delegate srv) = Some get →
  get req (Request.appName req) σ = (Some info, σ1) →
  (within_limit srv req →
   ∀ launch, ServerDelegate.launchApp (Server.delegate srv) = Some launch →
     let completions :=
       List.length (launch req (Request.appName req) (or_ostr (Request.text req) None)
                      σ1).1 in
     response_count (post_app srv req σ).1 = Nat.min completions 1 ∧
     throw_count (post_app srv req σ).1 = Nat.pred completions) ∧
  (AppInfo.allowStop info = Some true →
   ∀ pid stop, Request.pid req = Some pid → pid ≠ "" →
     ServerDelegate.stopApp (Server.delegate srv) = Some stop →
     let completions := List.length (stop req (Request.appName req) pid σ1).1 in
     response_count (delete_app srv req σ).1 = Nat.min completions 1 ∧
     throw_count (delete_app srv req σ).1 = Nat.pred completions).
Proof.
  intros Hget Hinfo. split.
  - intros Hlim%within_limit_not_too_large launch Hlaunch.
    unfold post_app, lookup_app. rewrite Hget, Hinfo, Hlim, Hlaunch.
    destruct (launch req (Request.appName req) (or_ostr (Request.text req) None) σ1)
      as [replies σ2]. cbn [fst app].
    change (response_count (CallGetApp (Request.appName req) ::
              CallLaunchApp (Request.appName req) (or_ostr (Request.text req) None) ::
              ?l)) with (response_count l).
    change (throw_count (CallGetApp (Request.appName req) ::
              CallLaunchApp (Request.appName req) (or_ostr (Request.text req) None) ::
              ?l)) with (throw_count l).
    apply complete_all_counts. intros [p [e|]]; [done|].
    unfold launch_callback. cbn [fst snd]. by destruct (truthy_ostr p).
  - intros Hallow pid stop Hpid Hne%truthy_str_true Hstop.
    unfold delete_app, lookup_app. rewrite Hget, Hinfo, Hstop, Hpid, Hallow.
    cbn [truthy_ostr show_ostr]. rewrite Hne.
    destruct (stop req (Request.appName req) pid σ1) as [replies σ2]. cbn [fst app].
    change (response_count (CallGetApp (Request.appName req) ::
              CallStopApp (Request.appName req) pid :: ?l)) with (response_count l).
    change (throw_count (CallGetApp (Request.appName req) ::
              CallStopApp (Request.appName req) pid :: ?l)) with (throw_count l).
    apply complete_all_counts. by intros [].
Qed.

(** X25 at a provider whose launch hook completes twice: one response
    (the first, 201 with the LOCATION), and the second completion
    throws. *)
Lemma responses_match_completions_witness :
  let req := demo_request "YouTube" None (Some "v=1") (Some 3) in
  let tr := (post_app twice_server req demo_apps).1 in
  response_count tr = 1%nat ∧ throw_count tr = 1%nat ∧ response_status tr = Some 201.
Proof.
  destruct (responses_match_completions twice_server
           (demo_request "YouTube" None (Some "v=1") (Some 3)) demo_apps demo_apps
           {| AppInfo.name := "YouTube"; AppInfo.state := Some "stopped";
              AppInfo.pid := None; AppInfo.allowStop := Some true;
              AppInfo.additionalData := None; AppInfo.namespaces := None |}
           demo_getApp eq_refl eq_refl) as [Hpost _].
  destruct (Hpost ltac:(intros n [= <-]; vm_compute; discriminate) twice_launchApp eq_refl)
    as [Hresp Hthrow].
  split; [exact Hresp|]. split; [exact Hthrow | reflexivity].
Defined.
